(** * Commit analyzer: extraction and aggregation pipeline

    A shallow embedding of [src/main.py] (class [GitHubCommitAnalyzer] and
    [fix_git_ownership]) together with the fragments of the Python runtime,
    of GitPython and of pandas that the program calls, followed by the
    properties of the natural-language specification.

    Conventions.
    - A Python [str] is a list of Unicode code points ([str := list N]), so
      that [len] counts characters and not bytes.
    - A Python [int] is a [Z]; an [int64] column of a frame holds [Z] values
      within the range of [int64], and its sums wrap around ([wrap64]).
    - A call that may raise returns a [result]; stateful code runs in the
      monad [M] over a [World] (file system, repositories, output trace).
    - A naive [datetime] is the number of seconds of wall-clock time since
      1970-01-01T00:00:00 (commit times are whole seconds).
    - What a library leaves open is read from the environment [Env]: the
      order in which numpy's quicksort leaves equal elements of a long
      array, and the wording of the messages of the libraries' errors. *)

From Stdlib Require Import ZArith NArith List Bool Lia String Ascii.
From Stdlib Require Import Permutation Sorted.
Import ListNotations.
Open Scope Z_scope.

(* ================================================================== *)
(** * Python values: strings, exceptions, results *)

Module Py.

Definition str := list N.

(** Reads an ASCII literal as a [str]. *)
Definition py (s : string) : str :=
  List.map N_of_ascii (list_ascii_of_string s).

Fixpoint str_eqb (a b : str) : bool :=
  match a, b with
  | [], [] => true
  | x :: a', y :: b' => N.eqb x y && str_eqb a' b'
  | _, _ => false
  end.

Definition len (s : str) : Z := Z.of_nat (List.length s).

(** [s[:k]] for a non-negative constant [k]. *)
Definition slice_to (k : nat) (s : str) : str := firstn k s.

Fixpoint mem (x : str) (l : list str) : bool :=
  match l with
  | [] => false
  | y :: l' => str_eqb x y || mem x l'
  end.

(** [a.startswith(b)] *)
Fixpoint startswith (b a : str) : bool :=
  match b, a with
  | [], _ => true
  | x :: b', y :: a' => N.eqb x y && startswith b' a'
  | _ :: _, [] => false
  end.

(** [s.replace(old, new)] for a non-empty [old]: the occurrences of [old]
    are replaced from the left, without overlap.  [fuel] only bounds the
    recursion; [replace] below gives it the length of [s] plus one. *)
Fixpoint replace_fuel (fuel : nat) (old new s : str) : str :=
  match fuel with
  | O => s
  | S fuel' =>
      match s with
      | [] => []
      | c :: s' =>
          if startswith old s
          then new ++ replace_fuel fuel' old new (skipn (List.length old) s)
          else c :: replace_fuel fuel' old new s'
      end
  end.

Definition replace (old new s : str) : str :=
  replace_fuel (S (List.length s)) old new s.

(** [sep.join(parts)] *)
Fixpoint join (sep : str) (parts : list str) : str :=
  match parts with
  | [] => []
  | [p] => p
  | p :: rest => p ++ sep ++ join sep rest
  end.

(** [str.isspace] on one code point (the Unicode white-space set of
    CPython: bidirectional types WS, B, S and category Zs). *)
Definition isspace (c : N) : bool :=
  ((9 <=? c) && (c <=? 13) || (28 <=? c) && (c <=? 32) ||
   (c =? 133) || (c =? 160) || (c =? 5760) ||
   (8192 <=? c) && (c <=? 8202) || (c =? 8232) || (c =? 8233) ||
   (c =? 8239) || (c =? 8287) || (c =? 12288))%N.

Fixpoint lstrip (s : str) : str :=
  match s with
  | c :: s' => if isspace c then lstrip s' else s
  | [] => []
  end.

(** [s.strip()] *)
Definition strip (s : str) : str := rev (lstrip (rev (lstrip s))).

(** An exception: its class name and [str(e)]. *)
Record exn := Exn { exn_type : str; exn_str : str }.

Inductive result (A : Type) : Type :=
| Ok (a : A)
| Raise (e : exn).
Arguments Ok {A} a.
Arguments Raise {A} e.

Definition is_ok {A} (r : result A) : bool :=
  match r with Ok _ => true | Raise _ => false end.

Definition rbind {A B} (r : result A) (k : A -> result B) : result B :=
  match r with
  | Ok a => k a
  | Raise e => Raise e
  end.

(** [str(KeyError(k))] is the [repr] of the key. *)
Definition KeyError (k : str) : exn :=
  Exn (py "KeyError") (py "'" ++ k ++ py "'").

Definition ValueError (msg : str) : exn := Exn (py "ValueError") msg.
Definition AttributeError (msg : str) : exn := Exn (py "AttributeError") msg.
Definition TypeError (msg : str) : exn := Exn (py "TypeError") msg.

(** A [dict] with [str] keys, as an association list in insertion order. *)
Fixpoint dict_get {V} (d : list (str * V)) (k : str) : result V :=
  match d with
  | [] => Raise (KeyError k)
  | (k', v) :: d' => if str_eqb k' k then Ok v else dict_get d' k
  end.

End Py.
Import Py.

Declare Scope result_scope.
Notation "'let?' x ':=' r 'in' k" := (rbind r (fun x => k))
  (at level 10, x name, r at level 100, k at level 200) : result_scope.
Open Scope result_scope.

(* ================================================================== *)
(** * The proleptic Gregorian calendar of [datetime]

    [_is_leap], [_days_before_year], [_days_in_month], [_days_before_month],
    [_ymd2ord] and [_ord2ymd] follow the functions of the same names of
    CPython's [datetime] module; ordinal 1 is 0001-01-01. *)

Module Calendar.

Definition _is_leap (year : Z) : bool :=
  (year mod 4 =? 0) && (negb (year mod 100 =? 0) || (year mod 400 =? 0)).

Definition _days_before_year (year : Z) : Z :=
  let y := year - 1 in y * 365 + y / 4 - y / 100 + y / 400.

Definition _DAYS_IN_MONTH (month : Z) : Z :=
  match month with
  | 1 => 31 | 2 => 28 | 3 => 31 | 4 => 30 | 5 => 31 | 6 => 30
  | 7 => 31 | 8 => 31 | 9 => 30 | 10 => 31 | 11 => 30 | 12 => 31
  | _ => -1
  end.

Definition _DAYS_BEFORE_MONTH (month : Z) : Z :=
  match month with
  | 1 => 0 | 2 => 31 | 3 => 59 | 4 => 90 | 5 => 120 | 6 => 151
  | 7 => 181 | 8 => 212 | 9 => 243 | 10 => 273 | 11 => 304 | 12 => 334
  | _ => -1
  end.

Definition _days_in_month (year month : Z) : Z :=
  if (month =? 2) && _is_leap year then 29 else _DAYS_IN_MONTH month.

Definition _days_before_month (year month : Z) : Z :=
  _DAYS_BEFORE_MONTH month + (if (2 <? month) && _is_leap year then 1 else 0).

Definition _ymd2ord (year month day : Z) : Z :=
  _days_before_year year + _days_before_month year month + day.

Definition _ord2ymd (n0 : Z) : Z * Z * Z :=
  let n := n0 - 1 in
  let n400 := n / 146097 in let n := n mod 146097 in
  let year := n400 * 400 + 1 in
  let n100 := n / 36524 in let n := n mod 36524 in
  let n4 := n / 1461 in let n := n mod 1461 in
  let n1 := n / 365 in let n := n mod 365 in
  let year := year + n100 * 100 + n4 * 4 + n1 in
  if (n1 =? 4) || (n100 =? 4) then (year - 1, 12, 31)
  else
    let leapyear := (n1 =? 3) && (negb (n4 =? 24) || (n100 =? 3)) in
    let month := Z.shiftr (n + 50) 5 in
    let preceding :=
      _DAYS_BEFORE_MONTH month + (if (2 <? month) && leapyear then 1 else 0) in
    if n <? preceding then
      let month := month - 1 in
      let preceding :=
        preceding
        - (_DAYS_IN_MONTH month + (if (month =? 2) && leapyear then 1 else 0)) in
      (year, month, n - preceding + 1)
    else (year, month, n - preceding + 1).

(** Ordinal of 1970-01-01. *)
Definition EPOCH_ORDINAL : Z := 719163.

Definition SECONDS_PER_DAY : Z := 86400.

(** A date is a day number, day 0 being 1970-01-01. *)
Definition date_of_ymd (y m d : Z) : Z := _ymd2ord y m d - EPOCH_ORDINAL.
Definition ymd_of_date (day : Z) : Z * Z * Z := _ord2ymd (day + EPOCH_ORDINAL).

Definition year_of_date (day : Z) : Z := fst (fst (ymd_of_date day)).
Definition month_of_date (day : Z) : Z := snd (fst (ymd_of_date day)).
Definition day_of_date (day : Z) : Z := snd (ymd_of_date day).

(** [date.weekday()]: Monday is 0 and Sunday is 6. *)
Definition weekday (day : Z) : Z := (day + EPOCH_ORDINAL + 6) mod 7.

(** A naive [datetime] with whole seconds: [datetime(y, m, d, hh, mm, ss)]
    and its [year]. *)
Definition datetime (y m d hh mm ss : Z) : Z :=
  date_of_ymd y m d * SECONDS_PER_DAY + hh * 3600 + mm * 60 + ss.
Definition datetime_year (t : Z) : Z := year_of_date (t / SECONDS_PER_DAY).

(** [datetime.MINYEAR] and [datetime.MAXYEAR]. *)
Definition MINYEAR : Z := 1.
Definition MAXYEAR : Z := 9999.

(** [datetime.fromtimestamp(ts)] for an integer [ts], in the local time zone
    whose offset from UTC at the instant [ts] is [utcoffset ts] seconds.  A
    result outside the years 1..9999 raises. *)
Definition fromtimestamp (utcoffset : Z -> Z) (ts : Z) : result Z :=
  let local := ts + utcoffset ts in
  let y := datetime_year local in
  if (MINYEAR <=? y) && (y <=? MAXYEAR) then Ok local
  else Raise (ValueError (py "year is out of range")).

End Calendar.

(* ================================================================== *)
(** * pandas: frames, sorting, counting and grouping

    The operations of pandas that [main.py] calls, at the level of detail
    the program depends on.  A column is typed as pandas infers it: [object]
    strings, [int64], [datetime64[ns]] and [object] dates. *)

Module Pandas.
Import Calendar.

(** A [datetime64[ns]] value counts nanoseconds; a [datetime] is converted
    when it enters a frame. *)
Definition NS_PER_SECOND : Z := 1000000000.
Definition NS_PER_DAY : Z := SECONDS_PER_DAY * NS_PER_SECOND.
Definition to_datetime64 (t : Z) : Z := t * NS_PER_SECOND.

(** [Timestamp.date()], midnight of a date, [Timestamp.normalize()], the
    time of day and [Timestamp.year]. *)
Definition date_of (t : Z) : Z := t / NS_PER_DAY.
Definition midnight (day : Z) : Z := day * NS_PER_DAY.
Definition normalize (t : Z) : Z := midnight (date_of t).
Definition time_of_day (t : Z) : Z := t mod NS_PER_DAY.
Definition year_of (t : Z) : Z := year_of_date (date_of t).

(** An [int64] value: numpy and pandas add and subtract [int64] columns
    modulo 2^64, the result wrapping around into the range. *)
Definition INT64_MIN : Z := -9223372036854775808.
Definition INT64_MAX : Z := 9223372036854775807.
Definition is_int64 (z : Z) : Prop := INT64_MIN <= z <= INT64_MAX.
Definition wrap64 (z : Z) : Z :=
  (z + 9223372036854775808) mod 18446744073709551616 - 9223372036854775808.

Inductive column :=
| ColStr (v : list str)
| ColInt (v : list Z)
| ColTime (v : list Z)
| ColDate (v : list Z).

(** The values of a column, each tagged with the type of the column. *)
Inductive label :=
| LStr (s : str)
| LInt (z : Z)
| LTime (t : Z)
| LDate (d : Z).

Definition label_eqb (a b : label) : bool :=
  match a, b with
  | LStr x, LStr y => str_eqb x y
  | LInt x, LInt y | LTime x, LTime y | LDate x, LDate y => Z.eqb x y
  | _, _ => false
  end.

Definition col_labels (c : column) : list label :=
  match c with
  | ColStr v => List.map LStr v
  | ColInt v => List.map LInt v
  | ColTime v => List.map LTime v
  | ColDate v => List.map LDate v
  end.

(** A frame: the row labels and the columns in order. *)
Record DataFrame := mkDataFrame {
  df_index : list Z;
  df_columns : list (str * column)
}.

Definition nrows (df : DataFrame) : nat := List.length (df_index df).
Definition column_names (df : DataFrame) : list str := List.map fst (df_columns df).

Definition RangeIndex (n : nat) : list Z := List.map Z.of_nat (seq 0 n).

(** [df[key]] *)
Definition getitem (df : DataFrame) (key : str) : result column :=
  dict_get (df_columns df) key.

Fixpoint set_assoc (cols : list (str * column)) (key : str) (c : column)
  : list (str * column) :=
  match cols with
  | [] => [(key, c)]
  | (k, c0) :: rest =>
      if str_eqb k key then (k, c) :: rest else (k, c0) :: set_assoc rest key c
  end.

(** [df[key] = c]: replaces the column in place or appends a new one. *)
Definition setitem (df : DataFrame) (key : str) (c : column) : DataFrame :=
  mkDataFrame (df_index df) (set_assoc (df_columns df) key c).

(** ** Sorting *)

(** Lexicographic order of strings by code point. *)
Fixpoint str_leb (a b : str) : bool :=
  match a, b with
  | [], _ => true
  | _ :: _, [] => false
  | x :: a', y :: b' => (x <? y)%N || ((x =? y)%N && str_leb a' b')
  end.

Section StableSort.
Context {A : Type} (leb : A -> A -> bool).

(** Insertion in front of the first element that is not smaller: with
    [sort] below, equal elements keep their order. *)
Fixpoint insert (x : A) (l : list A) : list A :=
  match l with
  | [] => [x]
  | y :: l' => if leb x y then x :: l else y :: insert x l'
  end.

Fixpoint sort (l : list A) : list A :=
  match l with
  | [] => []
  | x :: l' => insert x (sort l')
  end.
End StableSort.

(** The positions of [values] in ascending order of value, equal values
    in order of position: a stable argsort. *)
Definition argsort {A} (leb : A -> A -> bool) (values : list A) : list nat :=
  List.map snd
    (sort (fun p q => leb (fst p) (fst q))
          (combine values (seq 0 (List.length values)))).

(** The sort of numpy's default kind, [quicksort], which pandas uses
    wherever the program sorts.  An array of at most [SMALL_QUICKSORT]
    elements is sorted by insertion, which keeps equal elements in place.  On
    a longer array the order of equal elements is whatever the partitioning
    leaves: it is given here by [rank], a number for every position of the
    array, which the caller takes from the environment; equal elements come
    in ascending rank. *)
Definition SMALL_QUICKSORT : nat := 16.

Definition numpy_sort {A} (rank : nat -> Z) (leb : A -> A -> bool) (l : list A)
  : list A :=
  if (List.length l <=? SMALL_QUICKSORT)%nat then sort leb l
  else
    List.map fst
      (sort (fun p q => leb (fst p) (fst q))
         (sort (fun p q => rank (snd p) <=? rank (snd q))
               (combine l (seq 0 (List.length l))))).

(** [values.argsort()] *)
Definition numpy_argsort {A} (rank : nat -> Z) (leb : A -> A -> bool)
    (values : list A) : list nat :=
  List.map snd
    (numpy_sort rank (fun p q => leb (fst p) (fst q))
                (combine values (seq 0 (List.length values)))).

(** [values.take(indexer)] *)
Definition take {A} (d : A) (values : list A) (indexer : list nat) : list A :=
  List.map (fun i => nth i values d) indexer.

(** [ties] gives the ranks of the positions of an array, by its values. *)
Definition col_argsort (ties : list label -> nat -> Z) (c : column) : list nat :=
  let rank := ties (col_labels c) in
  match c with
  | ColStr v => numpy_argsort rank str_leb v
  | ColInt v | ColTime v | ColDate v => numpy_argsort rank Z.leb v
  end.

Definition col_take (indexer : list nat) (c : column) : column :=
  match c with
  | ColStr v => ColStr (take [] v indexer)
  | ColInt v => ColInt (take 0 v indexer)
  | ColTime v => ColTime (take 0 v indexer)
  | ColDate v => ColDate (take 0 v indexer)
  end.

Definition df_take (df : DataFrame) (indexer : list nat) : DataFrame :=
  mkDataFrame (take 0 (df_index df) indexer)
              (List.map (fun kc => (fst kc, col_take indexer (snd kc)))
                        (df_columns df)).

(** [df.sort_values(by)]: a missing label raises [KeyError]. *)
Definition sort_values (ties : list label -> nat -> Z) (df : DataFrame)
    (by_ : str) : result DataFrame :=
  let? c := getitem df by_ in
  Ok (df_take df (col_argsort ties c)).

(** [df.reset_index(drop=True)] *)
Definition reset_index_drop (df : DataFrame) : DataFrame :=
  mkDataFrame (RangeIndex (nrows df)) (df_columns df).

(** ** Counting values *)

(** A series: labels with their values, in order. *)
Definition Series (K : Type) := list (K * Z).

(** The hash table of [value_count]: a key seen again has its count
    increased, a new key is appended with count 1. *)
Fixpoint bump (k : label) (tbl : Series label) : Series label :=
  match tbl with
  | [] => [(k, 1)]
  | (k', n) :: tbl' =>
      if label_eqb k' k then (k', n + 1) :: tbl' else (k', n) :: bump k tbl'
  end.

Definition value_count (values : list label) : Series label :=
  fold_left (fun tbl k => bump k tbl) values [].

(** [Series.sort_values(ascending=False)].  For a descending order
    [nargsort] reverses the values, sorts them ascending and reverses the
    outcome, so that equal values keep their original order where the sort
    keeps them in place. *)
Definition sort_values_descending {K} (ties : list label -> nat -> Z)
    (s : Series K) : Series K :=
  let items := rev s in
  rev (numpy_sort (ties (List.map (fun p => LInt (snd p)) items))
                  (fun p q => Z.leb (snd p) (snd q)) items).

(** [Series.value_counts()]: the groups in order of first appearance,
    then sorted by descending count. *)
Definition value_counts (ties : list label -> nat -> Z) (c : column)
  : Series label :=
  sort_values_descending ties (value_count (col_labels c)).

(** [s.head(n)] *)
Definition head {K} (n : nat) (s : Series K) : Series K := firstn n s.

(** ** The [.dt] accessor *)

Definition dt_date (c : column) : result column :=
  match c with
  | ColTime v => Ok (ColDate (List.map date_of v))
  | _ => Raise (AttributeError
                  (py "Can only use .dt accessor with datetimelike values"))
  end.

Definition dt_year (c : column) : result column :=
  match c with
  | ColTime v => Ok (ColInt (List.map year_of v))
  | _ => Raise (AttributeError
                  (py "Can only use .dt accessor with datetimelike values"))
  end.

(** ** Group by a key column and sum *)

Fixpoint dedup (l : list Z) : list Z :=
  match l with
  | [] => []
  | x :: l' => if existsb (Z.eqb x) l' then dedup l' else x :: dedup l'
  end.

(** The group keys, sorted ([groupby] has [sort=True]). *)
Definition group_keys (keys : list Z) : list Z := sort Z.leb (dedup keys).

Fixpoint index_of (x : Z) (l : list Z) : nat :=
  match l with
  | [] => O
  | y :: l' => if Z.eqb y x then O else S (index_of x l')
  end.

(** The group number of every row. *)
Definition codes (keys : list Z) : list nat :=
  List.map (fun k => index_of k (group_keys keys)) keys.

Fixpoint add_at (i : nat) (v : Z) (out : list Z) : list Z :=
  match out, i with
  | [], _ => []
  | x :: out', O => wrap64 (x + v) :: out'
  | x :: out', S i' => x :: add_at i' v out'
  end.

(** The kernel [group_sum]: [out[codes[i]] += values[i]] for every row, in
    [int64]. *)
Fixpoint group_sum (cs : list nat) (values : list Z) (out : list Z) : list Z :=
  match cs, values with
  | c :: cs', v :: values' => group_sum cs' values' (add_at c v out)
  | _, _ => out
  end.

(** The grouping and the sums are modelled on [int64] columns, which is
    what the program passes; another dtype is reported as a [TypeError]. *)
Definition int_values (c : column) : result (list Z) :=
  match c with
  | ColInt v => Ok v
  | _ => Raise (TypeError (py "int64 column expected"))
  end.

Definition agg_sum (keys : list Z) (values : list Z) : list Z :=
  group_sum (codes keys) values (repeat 0 (List.length (group_keys keys))).

(** [df.groupby(by).agg({a: "sum", b: "sum"})]: a frame indexed by the
    sorted group keys with the two columns of sums. *)
Definition groupby_agg_sum2 (df : DataFrame) (by_ a b : str) : result DataFrame :=
  let? kc := getitem df by_ in
  let? keys := int_values kc in
  let? ca := getitem df a in
  let? va := int_values ca in
  let? cb := getitem df b in
  let? vb := int_values cb in
  Ok (mkDataFrame (group_keys keys)
        [(a, ColInt (agg_sum keys va)); (b, ColInt (agg_sum keys vb))]).

Fixpoint zip_sub (x y : list Z) : list Z :=
  match x, y with
  | a :: x', b :: y' => wrap64 (a - b) :: zip_sub x' y'
  | _, _ => []
  end.

(** [x - y] on two [int64] columns of one frame. *)
Definition col_sub (x y : column) : result column :=
  let? vx := int_values x in
  let? vy := int_values y in
  Ok (ColInt (zip_sub vx vy)).

(** ** Date offsets and time bins ([pd.Grouper(key=..., freq=...)]) *)

(** The offsets behind the aliases [ME], [W] (weeks ending on Sunday) and
    [D]. *)
Inductive DateOffset := MonthEnd | Week | Day.

Definition to_offset (freq : str) : option DateOffset :=
  if str_eqb freq (py "ME") then Some MonthEnd
  else if str_eqb freq (py "W") then Some Week
  else if str_eqb freq (py "D") then Some Day
  else None.

(** [Week(weekday=6)] *)
Definition WEEKDAY_SUN : Z := 6.

(** [roll_convention(other, n, compare)] *)
Definition roll_convention (other n compare : Z) : Z :=
  if (0 <? n) && (other <? compare) then n - 1
  else if (n <=? 0) && (compare <? other) then n + 1
  else n.

(** [shift_month(stamp, months, "end")]: the last day of the month that is
    [months] months away, at the same time of day. *)
Definition shift_month_end (t months : Z) : Z :=
  let '(y, m, _) := ymd_of_date (date_of t) in
  let dy := (m + months) / 12 in
  let month := (m + months) mod 12 in
  let '(month, dy) := if month =? 0 then (12, dy - 1) else (month, dy) in
  let year := y + dy in
  midnight (date_of_ymd year month (_days_in_month year month)) + time_of_day t.

Definition is_on_offset (off : DateOffset) (t : Z) : bool :=
  match off with
  | MonthEnd =>
      let '(y, m, d) := ymd_of_date (date_of t) in d =? _days_in_month y m
  | Week => weekday (date_of t) =? WEEKDAY_SUN
  | Day => true
  end.

(** [t + n * off] for the offsets above. *)
Definition apply (off : DateOffset) (n : Z) (t : Z) : Z :=
  match off with
  | MonthEnd =>
      let '(y, m, d) := ymd_of_date (date_of t) in
      shift_month_end t (roll_convention d n (_days_in_month y m))
  | Week =>
      let otherwd := weekday (date_of t) in
      if otherwd =? WEEKDAY_SUN then t + n * (7 * NS_PER_DAY)
      else
        let t' := t + ((WEEKDAY_SUN - otherwd) mod 7) * NS_PER_DAY in
        let k := if 0 <? n then n - 1 else n in
        t' + k * (7 * NS_PER_DAY)
  | Day => t + n * NS_PER_DAY
  end.

Definition rollforward (off : DateOffset) (t : Z) : Z :=
  if is_on_offset off t then t else apply off 1 t.

(** The loop of [generate_range]: [cur] is produced while it does not pass
    [end_].  Every step moves forward by a day at least, so the fuel that
    [date_range] gives is never exhausted. *)
Fixpoint generate_range (fuel : nat) (off : DateOffset) (cur end_ : Z) : list Z :=
  match fuel with
  | O => []
  | S fuel' =>
      if cur <=? end_ then
        cur :: (if cur =? end_ then []
                else generate_range fuel' off (apply off 1 cur) end_)
      else []
  end.

(** [date_range(start=start, end=end_, freq=off)] *)
Definition date_range (off : DateOffset) (start end_ : Z) : list Z :=
  let start := rollforward off start in
  generate_range (S (Z.to_nat ((end_ - start) / NS_PER_DAY))) off start end_.

(** Bins of [ME] and [W] are closed and labelled on the right, bins of [D]
    on the left. *)
Definition closed_right (off : DateOffset) : bool :=
  match off with
  | MonthEnd | Week => true
  | Day => false
  end.

(** [_adjust_dates_anchored] for a tick of [freq] nanoseconds, closed on
    the left, with origin [start_day]. *)
Definition _adjust_dates_anchored (first last freq : Z) : Z * Z :=
  let origin := normalize first in
  let foffset := (first - origin) mod freq in
  let loffset := (last - origin) mod freq in
  let fresult := if 0 <? foffset then first - foffset else first in
  let lresult := if 0 <? loffset then last + (freq - loffset) else last + freq in
  (fresult, lresult).

Definition _get_timestamp_range_edges (off : DateOffset) (first last : Z) : Z * Z :=
  match off with
  | Day => _adjust_dates_anchored first last NS_PER_DAY
  | _ =>
      let first := normalize first in
      let last := normalize last in
      (apply off (-1) first, apply off 1 last)
  end.

Definition list_min (d : Z) (l : list Z) : Z := fold_right Z.min d l.
Definition list_max (d : Z) (l : list Z) : Z := fold_right Z.max d l.

Definition IndexError (msg : str) : exn := Exn (py "IndexError") msg.

(** [_adjust_bin_edges]: for [ME] and [W] an edge is moved to the last
    nanosecond of its day, and a last edge that is not needed is dropped
    ([bin_edges[-2] > ax_values.max()]). *)
Definition _adjust_bin_edges (off : DateOffset) (binner : list Z) (ax_max : Z)
  : result (list Z * list Z) :=
  match off with
  | Day => Ok (binner, binner)
  | _ =>
      let bin_edges := List.map (fun e => e + NS_PER_DAY - 1) binner in
      match rev bin_edges with
      | _ :: e2 :: _ =>
          if ax_max <? e2 then Ok (removelast binner, removelast bin_edges)
          else Ok (binner, bin_edges)
      | _ => Raise (IndexError (py "index -2 is out of bounds"))
      end
  end.

Fixpoint take_while (f : Z -> bool) (l : list Z) : list Z :=
  match l with
  | x :: l' => if f x then x :: take_while f l' else []
  | [] => []
  end.

(** The linear scan of [generate_bins_dt64]: [j] values are already
    consumed, [values] are the remaining ones and [r_bins] the right edges
    still to visit. *)
Fixpoint scan_bins (right_closed : bool) (values : list Z) (j : nat)
    (r_bins : list Z) : list nat :=
  match r_bins with
  | [] => []
  | r_bin :: rest =>
      let k := List.length
                 (take_while (fun v => if right_closed then v <=? r_bin
                                       else v <? r_bin) values) in
      (j + k)%nat :: scan_bins right_closed (skipn k values) (j + k)%nat rest
  end.

(** [generate_bins_dt64(values, binner, closed)] on sorted [values]. *)
Definition generate_bins_dt64 (values binner : list Z) (right_closed : bool)
  : result (list nat) :=
  match values, binner with
  | [], _ | _, [] =>
      Raise (ValueError (py "Invalid length for values or for binner"))
  | v0 :: _, b0 :: r_bins =>
      if v0 <? b0 then Raise (ValueError (py "Values falls before first bin"))
      else if last binner b0 <? last values v0
      then Raise (ValueError (py "Values falls after last bin"))
      else Ok (scan_bins right_closed values 0 r_bins)
  end.

(** [_get_time_bins]: the cumulative bin ends and the bin labels of an
    axis of sorted timestamps. *)
Definition _get_time_bins (off : DateOffset) (ax : list Z)
  : result (list nat * list Z) :=
  match ax with
  | [] => Ok ([], [])
  | a0 :: _ =>
      let '(first, last) :=
        _get_timestamp_range_edges off (list_min a0 ax) (list_max a0 ax) in
      let binner := date_range off first last in
      let? adjusted := _adjust_bin_edges off binner (list_max a0 ax) in
      let '(binner, bin_edges) := adjusted in
      let? bins := generate_bins_dt64 ax bin_edges (closed_right off) in
      let labels := if closed_right off then tl binner else binner in
      let labels :=
        if (List.length bins <? List.length labels)%nat
        then firstn (List.length bins) labels else labels in
      Ok (bins, labels)
  end.

(** The group sizes of a binned grouping: the differences of the
    cumulative bin ends. *)
Fixpoint bin_sizes (prev : nat) (bins : list nat) : list Z :=
  match bins with
  | [] => []
  | b :: bins' => Z.of_nat (b - prev) :: bin_sizes b bins'
  end.

(** [df.groupby(pd.Grouper(key=key, freq=off)).size()] on the values of
    the key column: the axis is sorted, binned and counted per bin. *)
Definition grouper_size (off : DateOffset) (times : list Z) : result (Series Z) :=
  let ax := sort Z.leb times in
  let? r := _get_time_bins off ax in
  let '(bins, labels) := r in
  Ok (combine labels (bin_sizes 0 bins)).

Definition time_values (c : column) : result (list Z) :=
  match c with
  | ColTime v => Ok v
  | _ => Raise (TypeError (py "Only valid with DatetimeIndex, TimedeltaIndex or PeriodIndex"))
  end.

End Pandas.

(* ================================================================== *)
(** * GitPython: commits and repositories *)

Module Git.

Record Actor := mkActor { name : str; email : str }.

(** [commit.stats]: [total] is a [dict] of counters. *)
Record Stats := mkStats { total : list (str * Z) }.

(** A commit as [iter_commits] yields it.  Its identifier is known from the
    revision listing; the other attributes are read from the object
    database (or computed by a diff) when they are accessed, and the access
    may raise. *)
Record Commit := mkCommit {
  hexsha : str;
  author : result Actor;
  committed_date : result Z;
  message : result str;
  stats : result Stats
}.

(** A repository: its log from [HEAD], newest commit first, or the error of
    listing it. *)
Record Repo := mkRepo { log : result (list Commit) }.

(** [list(repo.iter_commits(max_count=n))] *)
Definition iter_commits (repo : Repo) (max_count : nat) : result (list Commit) :=
  let? l := log repo in Ok (firstn max_count l).

End Git.

(* ================================================================== *)
(** * The program: [main.py] *)

Import Calendar Pandas Git.

(** ** The world outside the program *)

Inductive title :=
| TitleContributors
| TitleTrend (freq_label : str)
| TitleChurn
| TitleWordCloud.

Inductive report := Contributors | Trend | Churn | WordCloud.

(** The console lines of the program, by what they report. *)
Inductive line :=
| MsgSafeDirectory (path : str)
| MsgSafeDirectoryFailed (reason : str)
| MsgCloning (url : str)
| MsgCloned
| MsgLoaded
| MsgExtracting
| MsgSkip (hexsha8 reason : str)
| MsgExtracted (n : nat)
| MsgHeading (r : report)
| MsgContributors (s : Series label)
| MsgTrend (freq : str) (last10 : Series Z)
| MsgChurn (code_churn : DataFrame)
| MsgSaved (r : report)
| MsgDone.

Inductive event :=
| Echo (l : line)
| Sleep
| GitExecute (command : str)
| CloneFrom (url path : str)
| OpenRepo (path : str)
| Makedirs (path : str)
| ToCsv (path : str) (df : DataFrame)
| Figure
| PlotBarh (s : Series label)
| PlotLine (s : Series Z)
| PlotBarStacked (df : DataFrame)
| WordCloudGenerate (word_text : str)
| SetTitle (t : title)
| Savefig (path : str).

(** The places where a library raises with a message of its own wording. *)
Inductive site :=
| InvalidFrequency (freq : str)
| EmptyBarhPlot
| EmptyLinePlot
| EmptyBarPlot.

(** What the process finds around it and does not change: the environment,
    the remote repositories, the time zone and the libraries whose results
    are taken as given. *)
Record Env := mkEnv {
  GITHUB_TOKEN : str;
  (** [os.path.abspath] *)
  abspath : str -> str;
  (** outcome of running a [git] command line *)
  git_execute : str -> result unit;
  (** history behind a fetch address, or the error of fetching it *)
  remote : str -> result Repo;
  (** offset of local time from UTC, in seconds, at an instant *)
  utcoffset : Z -> Z;
  (** [jieba.lcut] *)
  lcut : str -> list str;
  (** lower-case mapping of a code point outside ASCII *)
  unicode_lower : N -> list N;
  (** bin counts under a frequency alias that pandas accepts beside [ME],
      [W] and [D]; [None] for a string that is not an alias *)
  other_freq : str -> option (list Z -> Series Z);
  (** outcome of laying out the word cloud of a text *)
  wordcloud_generate : str -> result unit;
  (** numpy's quicksort on an array of more than [SMALL_QUICKSORT] elements:
      the ranks by which equal elements are ordered, given the values *)
  quicksort_ties : list label -> nat -> Z;
  (** the text of the exception that a library raises at a site *)
  library_message : site -> str
}.

(** What the process can change: the paths that exist, the repositories on
    disk, and the trace of its outputs (oldest first). *)
Record World := mkWorld {
  w_paths : list str;
  w_repos : list (str * Repo);
  w_trace : list event
}.

(** ** The analyzer object and the monad of its methods *)

Record Analyzer := mkAnalyzer {
  repo_url : str;
  local_repo_path : str;
  repo : option Repo;
  commits_df : option DataFrame
}.

(** [GitHubCommitAnalyzer(repo_url, local_repo_path)] *)
Definition __init__ (repo_url local_repo_path : str) : Analyzer :=
  mkAnalyzer repo_url local_repo_path None None.

Definition DEFAULT_LOCAL_REPO_PATH : str := py "./temp_repo".

Record State := mkState { self : Analyzer; world : World }.

Definition M (A : Type) : Type := State -> result A * State.

Definition ret {A} (a : A) : M A := fun st => (Ok a, st).

Definition bind {A B} (c : M A) (k : A -> M B) : M B :=
  fun st =>
    match c st with
    | (Ok a, st') => k a st'
    | (Raise e, st') => (Raise e, st')
    end.

Definition raise {A} (e : exn) : M A := fun st => (Raise e, st).

Definition lift {A} (r : result A) : M A := fun st => (r, st).

(** [try: c except Exception as e: h e] *)
Definition try_except {A} (c : M A) (h : exn -> M A) : M A :=
  fun st =>
    match c st with
    | (Ok a, st') => (Ok a, st')
    | (Raise e, st') => h e st'
    end.

Declare Scope monad_scope.
Delimit Scope monad_scope with monad.
Notation "x <- c ;; k" := (bind c (fun x => k))
  (at level 61, c at next level, right associativity) : monad_scope.
Notation "c ;; k" := (bind c (fun _ => k))
  (at level 61, right associativity) : monad_scope.
Open Scope monad_scope.

Definition emit (e : event) : M unit :=
  fun st =>
    let w := world st in
    (Ok tt, mkState (self st) (mkWorld (w_paths w) (w_repos w) (w_trace w ++ [e]))).

Definition print (l : line) : M unit := emit (Echo l).

Definition get_self : M Analyzer := fun st => (Ok (self st), st).

Definition set_repo (r : Repo) : M unit :=
  fun st =>
    let a := self st in
    (Ok tt, mkState (mkAnalyzer (repo_url a) (local_repo_path a) (Some r)
                                (commits_df a)) (world st)).

Definition set_commits_df (df : DataFrame) : M unit :=
  fun st =>
    let a := self st in
    (Ok tt, mkState (mkAnalyzer (repo_url a) (local_repo_path a) (repo a)
                                (Some df)) (world st)).

(** [self.repo.<attr>] and [self.commits_df[...]] on an attribute that is
    still [None]. *)
Definition get_repo : M Repo :=
  a <- get_self ;;
  match repo a with
  | Some r => ret r
  | None =>
      raise (AttributeError
               (py "'NoneType' object has no attribute 'iter_commits'"))
  end.

Definition get_commits_df : M DataFrame :=
  a <- get_self ;;
  match commits_df a with
  | Some df => ret df
  | None => raise (TypeError (py "'NoneType' object is not subscriptable"))
  end.

(** [os.path.exists(path)] *)
Definition path_exists (path : str) : M bool :=
  fun st => (Ok (mem path (w_paths (world st))), st).

Definition add_path (path : str) : M unit :=
  fun st =>
    let w := world st in
    (Ok tt, mkState (self st) (mkWorld (path :: w_paths w) (w_repos w) (w_trace w))).

Definition add_repo (path : str) (r : Repo) : M unit :=
  fun st =>
    let w := world st in
    (Ok tt, mkState (self st)
              (mkWorld (path :: w_paths w) ((path, r) :: w_repos w) (w_trace w))).

(** [plt.savefig(path)]: the chart file is written. *)
Definition savefig (path : str) : M unit :=
  emit (Savefig path) ;; add_path path.

(** ** [fix_git_ownership] and [clone_repo] *)

Section Program.
Variable env : Env.

Definition safe_directory_command (repo_path : str) : str :=
  py "git config --global --add safe.directory " ++ repo_path.

Definition fix_git_ownership (repo_path : str) : M unit :=
  let repo_path := replace [92%N] (py "/") repo_path in
  try_except
    (emit (GitExecute (safe_directory_command repo_path)) ;;
     lift (git_execute env (safe_directory_command repo_path)) ;;
     print (MsgSafeDirectory repo_path))
    (fun e => print (MsgSafeDirectoryFailed (exn_str e))).

(** [git.Repo.clone_from(url, to_path)] *)
Definition clone_from (url to_path : str) : M Repo :=
  emit (CloneFrom url to_path) ;;
  r <- lift (remote env url) ;;
  add_repo to_path r ;;
  ret r.

Definition InvalidGitRepositoryError (path : str) : exn :=
  Exn (py "InvalidGitRepositoryError") path.

(** [git.Repo(path)]; the error carries the absolute path. *)
Definition open_repo (path : str) : M Repo :=
  emit (OpenRepo path) ;;
  fun st =>
    match dict_get (w_repos (world st)) path with
    | Ok r => (Ok r, st)
    | Raise _ => (Raise (InvalidGitRepositoryError (abspath env path)), st)
    end.

(** [self.repo_url.replace("https://", f"https://{GITHUB_TOKEN}@")] *)
Definition repo_url_with_token (url : str) : str :=
  replace (py "https://") (py "https://" ++ GITHUB_TOKEN env ++ py "@") url.

(** The address that [clone_repo] fetches from. *)
Definition fetch_address (url : str) : str :=
  match GITHUB_TOKEN env with
  | _ :: _ => repo_url_with_token url
  | [] => url
  end.

Definition clone_repo : M unit :=
  a <- get_self ;;
  fix_git_ownership (abspath env (local_repo_path a)) ;;
  present <- path_exists (local_repo_path a) ;;
  if negb present then
    print (MsgCloning (repo_url a)) ;;
    r <- (match GITHUB_TOKEN env with
          | _ :: _ =>
              clone_from (repo_url_with_token (repo_url a)) (local_repo_path a)
          | [] => clone_from (repo_url a) (local_repo_path a)
          end) ;;
    set_repo r ;;
    print MsgCloned
  else
    r <- open_repo (local_repo_path a) ;;
    set_repo r ;;
    print MsgLoaded.

(** ** [extract_commit_data] *)

(** The [dict] built for a commit; its keys are fixed. *)
Record CommitInfo := mkCommitInfo {
  commit_hash : str;
  author_name : str;
  author_email : str;
  commit_time : Z;
  commit_message : str;
  insertions : Z;
  deletions : Z
}.

(** The [dict] display of the loop body, its entries evaluated in order. *)
Definition commit_info (commit : Commit) : result CommitInfo :=
  let commit_hash := slice_to 8 (hexsha commit) in
  let? a := author commit in
  let author_name := name a in
  let? a := author commit in
  let author_email := email a in
  let? ts := committed_date commit in
  let? commit_time := fromtimestamp (utcoffset env) ts in
  let? m := message commit in
  let commit_message := strip m in
  let? st := stats commit in
  let? insertions := dict_get (total st) (py "insertions") in
  let? st := stats commit in
  let? deletions := dict_get (total st) (py "deletions") in
  Ok (mkCommitInfo commit_hash author_name author_email commit_time
                   commit_message insertions deletions).

Definition MAX_COUNT : nat := 800.

(** The body of the loop for the commit at position [idx]. *)
Definition walk_step (idx : Z) (commit : Commit) (commit_data : list CommitInfo)
  : M (list CommitInfo) :=
  try_except
    ((if idx mod 20 =? 0 then emit Sleep else ret tt) ;;
     info <- lift (commit_info commit) ;;
     ret (commit_data ++ [info]))
    (fun e =>
       print (MsgSkip (slice_to 8 (hexsha commit)) (slice_to 50 (exn_str e))) ;;
       ret commit_data).

(** [for idx, commit in enumerate(commits)] from position [idx] on. *)
Fixpoint walk (idx : Z) (commits : list Commit) (commit_data : list CommitInfo)
  : M (list CommitInfo) :=
  match commits with
  | [] => ret commit_data
  | commit :: rest =>
      commit_data <- walk_step idx commit commit_data ;;
      walk (idx + 1) rest commit_data
  end.

(** [pd.DataFrame(commit_data)]: the columns are the keys of the dicts; an
    empty list gives a frame without columns.  The counts of lines are
    taken to fit [int64], the type that pandas infers for them. *)
Definition DataFrame_of (commit_data : list CommitInfo) : DataFrame :=
  match commit_data with
  | [] => mkDataFrame [] []
  | _ :: _ =>
      mkDataFrame (RangeIndex (List.length commit_data))
        [ (py "commit_hash", ColStr (List.map commit_hash commit_data));
          (py "author_name", ColStr (List.map author_name commit_data));
          (py "author_email", ColStr (List.map author_email commit_data));
          (py "commit_time",
            ColTime (List.map (fun r => to_datetime64 (commit_time r)) commit_data));
          (py "commit_message", ColStr (List.map commit_message commit_data));
          (py "insertions", ColInt (List.map insertions commit_data));
          (py "deletions", ColInt (List.map deletions commit_data)) ]
  end.

Definition CSV_PATH : str := py "data/commit_history.csv".

Definition extract_commit_data : M unit :=
  print MsgExtracting ;;
  r <- get_repo ;;
  commits <- lift (iter_commits r MAX_COUNT) ;;
  commit_data <- walk 0 commits [] ;;
  set_commits_df (DataFrame_of commit_data) ;;
  df <- get_commits_df ;;
  sorted <- lift (sort_values (quicksort_ties env) df (py "commit_time")) ;;
  set_commits_df (reset_index_drop sorted) ;;
  present <- path_exists (py "data") ;;
  (if negb present then emit (Makedirs (py "data")) ;; add_path (py "data")
   else ret tt) ;;
  df <- get_commits_df ;;
  emit (ToCsv CSV_PATH df) ;;
  add_path CSV_PATH ;;
  print (MsgExtracted (nrows df)).

(** ** The four aggregations *)

Definition CONTRIBUTORS_PATH : str := py "data/contributor_top10.png".
Definition CHURN_PATH : str := py "data/code_churn_year.png".
Definition WORDCLOUD_PATH : str := py "data/commit_message_wordcloud.png".

(** [s.plot(kind="barh")]: an empty series has no bar to draw. *)
Definition plot_barh (s : Series label) : M unit :=
  match s with
  | [] => raise (IndexError (library_message env EmptyBarhPlot))
  | _ :: _ => emit (PlotBarh s)
  end.

(** [s.plot(kind="line")] over a time index: an empty series has no range
    of dates to lay the axis on. *)
Definition plot_line (s : Series Z) : M unit :=
  match s with
  | [] => raise (ValueError (library_message env EmptyLinePlot))
  | _ :: _ => emit (PlotLine s)
  end.

(** [df.plot(kind="bar", stacked=True)]: a frame without rows has no bar to
    draw. *)
Definition plot_bar_stacked (df : DataFrame) : M unit :=
  match df_index df with
  | [] => raise (IndexError (library_message env EmptyBarPlot))
  | _ :: _ => emit (PlotBarStacked df)
  end.

Definition analyze_contributor_distribution : M unit :=
  print (MsgHeading Contributors) ;;
  df <- get_commits_df ;;
  c <- lift (getitem df (py "author_name")) ;;
  let contributor_stats := head 10 (value_counts (quicksort_ties env) c) in
  print (MsgContributors contributor_stats) ;;
  emit Figure ;;
  plot_barh contributor_stats ;;
  emit (SetTitle TitleContributors) ;;
  savefig CONTRIBUTORS_PATH ;;
  print (MsgSaved Contributors).

(** The lookup table of the chart label: month, week, day. *)
Definition freq_labels : list (str * str) :=
  [ (py "ME", [26376%N]); (py "W", [21608%N]); (py "D", [26085%N]) ].

(** [pd.Grouper(key=..., freq=freq)] checks the alias; the grouping is
    computed by [size]. *)
Definition Grouper (freq : str) : result (list Z -> result (Series Z)) :=
  match to_offset freq with
  | Some off => Ok (grouper_size off)
  | None =>
      match other_freq env freq with
      | Some f => Ok (fun times => Ok (f times))
      | None => Raise (ValueError (library_message env (InvalidFrequency freq)))
      end
  end.

(** [s.tail(n)] *)
Definition tail {K} (n : nat) (s : Series K) : Series K :=
  skipn (List.length s - n) s.

Definition trend_path (freq : str) : str :=
  py "data/commit_trend_" ++ freq ++ py ".png".

Definition analyze_commit_trend (freq : str) : M unit :=
  print (MsgHeading Trend) ;;
  df <- get_commits_df ;;
  c <- lift (getitem df (py "commit_time")) ;;
  d <- lift (dt_date c) ;;
  set_commits_df (setitem df (py "commit_date") d) ;;
  df <- get_commits_df ;;
  g <- lift (Grouper freq) ;;
  c <- lift (getitem df (py "commit_time")) ;;
  times <- lift (time_values c) ;;
  commit_trend <- lift (g times) ;;
  print (MsgTrend freq (tail 10 commit_trend)) ;;
  emit Figure ;;
  plot_line commit_trend ;;
  freq_label <- lift (dict_get freq_labels freq) ;;
  emit (SetTitle (TitleTrend freq_label)) ;;
  savefig (trend_path freq) ;;
  print (MsgSaved Trend).

Definition analyze_code_churn : M unit :=
  print (MsgHeading Churn) ;;
  df <- get_commits_df ;;
  c <- lift (getitem df (py "commit_time")) ;;
  y <- lift (dt_year c) ;;
  set_commits_df (setitem df (py "commit_year") y) ;;
  df <- get_commits_df ;;
  code_churn <- lift (groupby_agg_sum2 df (py "commit_year")
                        (py "insertions") (py "deletions")) ;;
  i <- lift (getitem code_churn (py "insertions")) ;;
  d <- lift (getitem code_churn (py "deletions")) ;;
  net <- lift (col_sub i d) ;;
  let code_churn := setitem code_churn (py "net_change") net in
  print (MsgChurn code_churn) ;;
  emit Figure ;;
  plot_bar_stacked
    (mkDataFrame (df_index code_churn)
       [(py "insertions", i); (py "deletions", d)]) ;;
  emit (SetTitle TitleChurn) ;;
  savefig CHURN_PATH ;;
  print (MsgSaved Churn).

(** [str.lower]: ASCII capitals are mapped here, the other code points by
    the table of the environment. *)
Definition lower_char (c : N) : list N :=
  if ((65 <=? c) && (c <=? 90))%N then [(c + 32)%N]
  else if (c <? 128)%N then [c]
  else unicode_lower env c.

Definition lower (s : str) : str := flat_map lower_char s.

Definition stop_words : list str :=
  List.map py
    [ "the"; "a"; "an"; "and"; "or"; "to"; "in"; "for"; "of"; "with"; "on";
      "at"; "by"; "is"; "are"; "was"; "were"; "I"; "we"; "this"; "that";
      "it"; "fix"; "fixed"; "update"; "add"; "remove"; "clean"; "up" ]%string.

(** [[word for word in words if len(word) >= 2 and word.lower() not in
    stop_words]] *)
Definition filtered_words (words : list str) : list str :=
  List.filter (fun word => (2 <=? len word) && negb (mem (lower word) stop_words))
              words.

(** [" ".join(column.dropna())] *)
Definition join_messages (c : column) : result str :=
  match c with
  | ColStr v => Ok (join (py " ") v)
  | ColInt [] | ColTime [] | ColDate [] => Ok []
  | _ => Raise (TypeError (py "sequence item 0: expected str instance"))
  end.

Definition generate_commit_message_wordcloud : M unit :=
  print (MsgHeading WordCloud) ;;
  df <- get_commits_df ;;
  c <- lift (getitem df (py "commit_message")) ;;
  all_messages <- lift (join_messages c) ;;
  let words := lcut env all_messages in
  let word_text := join (py " ") (filtered_words words) in
  emit (WordCloudGenerate word_text) ;;
  lift (wordcloud_generate env word_text) ;;
  emit Figure ;;
  emit (SetTitle TitleWordCloud) ;;
  savefig WORDCLOUD_PATH ;;
  print (MsgSaved WordCloud).

Definition run_full_analysis : M unit :=
  clone_repo ;;
  extract_commit_data ;;
  analyze_contributor_distribution ;;
  analyze_commit_trend (py "ME") ;;
  analyze_commit_trend (py "W") ;;
  analyze_code_churn ;;
  generate_commit_message_wordcloud ;;
  print MsgDone.

End Program.

(* ================================================================== *)
(** * Specification vocabulary

    The notions in which the properties below are stated: the traces of
    the operations, the records that a walk keeps, groups and buckets. *)

(** ** Repository resolution *)

(** Events of [fix_git_ownership]. *)
Definition fix_trace (env : Env) (path : str) : list event :=
  let p := replace [92%N] (py "/") path in
  GitExecute (safe_directory_command p) ::
  match git_execute env (safe_directory_command p) with
  | Ok _ => [Echo (MsgSafeDirectory p)]
  | Raise e => [Echo (MsgSafeDirectoryFailed (exn_str e))]
  end.

Definition is_fetch (e : event) : bool :=
  match e with CloneFrom _ _ => true | _ => false end.

Fixpoint contains (pat s : str) : bool :=
  startswith pat s ||
  match s with
  | [] => false
  | _ :: s' => contains pat s'
  end.

Definition occurs (pat s : str) : Prop :=
  exists pre post, s = pre ++ pat ++ post.

(** The access token occurs in an address, followed by [@]. *)
Definition has_token (tok addr : str) : Prop := occurs (tok ++ py "@") addr.

(** ** The walk and the extracted table *)

Definition record_of (env : Env) (c : Commit) : list CommitInfo :=
  match commit_info env c with
  | Ok info => [info]
  | Raise _ => []
  end.

(** The records of the commits whose [dict] can be built, in walk order. *)
Definition good_records (env : Env) (commits : list Commit) : list CommitInfo :=
  flat_map (record_of env) commits.

(** The commits that the walk drops. *)
Definition dropped (env : Env) (commits : list Commit) : list Commit :=
  filter (fun c => negb (is_ok (commit_info env c))) commits.

Definition skip_line (env : Env) (c : Commit) : list line :=
  match commit_info env c with
  | Ok _ => []
  | Raise e => [MsgSkip (slice_to 8 (hexsha c)) (slice_to 50 (exn_str e))]
  end.

(** The diagnostics of the walk, in order. *)
Definition skip_lines (env : Env) (commits : list Commit) : list line :=
  flat_map (skip_line env) commits.

(** The events of the walk from position [idx]. *)
Fixpoint walk_events (env : Env) (idx : Z) (commits : list Commit) : list event :=
  match commits with
  | [] => []
  | c :: rest =>
      (if idx mod 20 =? 0 then [Sleep] else [])
      ++ List.map Echo (skip_line env c)
      ++ walk_events env (idx + 1) rest
  end.

Definition with_trace (st : State) (events : list event) : State :=
  mkState (self st)
    (mkWorld (w_paths (world st)) (w_repos (world st))
             (w_trace (world st) ++ events)).

Definition print_of (e : event) : list line :=
  match e with Echo l => [l] | _ => [] end.

Definition time_column (data : list CommitInfo) : list Z :=
  List.map (fun r => to_datetime64 (commit_time r)) data.

(** The order in which extraction puts the rows of the records. *)
Definition time_order (env : Env) (data : list CommitInfo) : list nat :=
  numpy_argsort (quicksort_ties env (List.map LTime (time_column data))) Z.leb
                (time_column data).

(** The table that extraction leaves for a non-empty list of records. *)
Definition extracted_table (env : Env) (data : list CommitInfo) : DataFrame :=
  reset_index_drop (df_take (DataFrame_of data) (time_order env data)).

Definition makedirs_events (paths : list str) : list event :=
  if mem (py "data") paths then [] else [Makedirs (py "data")].

Definition makedirs_paths (paths : list str) : list str :=
  if mem (py "data") paths then paths else py "data" :: paths.

(** ** The table after an aggregation *)

Definition with_frame (a : Analyzer) (df : DataFrame) : Analyzer :=
  mkAnalyzer (repo_url a) (local_repo_path a) (repo a) (Some df).

(** The column that [analyze_commit_trend] stores in the table, when the
    table has timestamps. *)
Definition derived_date (df : DataFrame) : result column :=
  let? c := getitem df (py "commit_time") in dt_date c.

Definition derived_year (df : DataFrame) : result column :=
  let? c := getitem df (py "commit_time") in dt_year c.

(** ** Sums per year *)

(** Sum of the values of the rows whose key is [g]. *)
Definition sum_for (g : Z) (keys values : list Z) : Z :=
  fold_right Z.add 0
    (List.map snd (filter (fun p => fst p =? g) (combine keys values))).

(** Sum of the values of the rows whose group number is [j]. *)
Definition sum_code (j : nat) (cs : list nat) (values : list Z) : Z :=
  fold_right Z.add 0
    (List.map snd (filter (fun p => Nat.eqb (fst p) j) (combine cs values))).

(** The frame that [analyze_code_churn] prints. *)
Definition code_churn_frame (times ins dels : list Z) : DataFrame :=
  let years := List.map year_of times in
  mkDataFrame (group_keys years)
    [ (py "insertions", ColInt (agg_sum years ins));
      (py "deletions", ColInt (agg_sum years dels));
      (py "net_change",
        ColInt (zip_sub (agg_sum years ins) (agg_sum years dels))) ].

(** The events of [analyze_code_churn] when it returns. *)
Definition churn_events (times ins dels : list Z) : list event :=
  let years := List.map year_of times in
  [ Echo (MsgHeading Churn);
    Echo (MsgChurn (code_churn_frame times ins dels));
    Figure;
    PlotBarStacked
      (mkDataFrame (group_keys years)
         [ (py "insertions", ColInt (agg_sum years ins));
           (py "deletions", ColInt (agg_sum years dels)) ]);
    SetTitle TitleChurn;
    Savefig CHURN_PATH;
    Echo (MsgSaved Churn) ].

(** ** Counts per author *)

(** Number of rows whose value is [a]. *)
Definition count_label (a : label) (values : list label) : Z :=
  Z.of_nat (List.length (filter (label_eqb a) values)).

Definition other_key (x : label) (p : label * Z) : bool :=
  negb (label_eqb x (fst p)).

(** The groups of a column in order of first appearance, each with its
    number of rows: the value of the first row comes first, followed by the
    groups of the rows after it, that value left out. *)
Fixpoint groups (values : list label) : Series label :=
  match values with
  | [] => []
  | x :: rest =>
      (x, 1 + count_label x rest) :: filter (other_key x) (groups rest)
  end.



(** The ranking that [analyze_contributor_distribution] prints and plots. *)
Definition contributor_stats (env : Env) (c : column) : Series label :=
  head 10 (value_counts (quicksort_ties env) c).

(** The events of [analyze_contributor_distribution] when it returns. *)
Definition contributor_events (env : Env) (c : column) : list event :=
  [ Echo (MsgHeading Contributors);
    Echo (MsgContributors (contributor_stats env c));
    Figure;
    PlotBarh (contributor_stats env c);
    SetTitle TitleContributors;
    Savefig CONTRIBUTORS_PATH;
    Echo (MsgSaved Contributors) ].

(** ** Months *)

Definition valid_ymd (y m d : Z) : Prop :=
  1 <= m <= 12 /\ 1 <= d <= _days_in_month y m.

(** The month and the day of the [n]-th day (from 0) of a year. *)
Definition month_day (leap : bool) (n : Z) : Z * Z :=
  let month := Z.shiftr (n + 50) 5 in
  let preceding :=
    _DAYS_BEFORE_MONTH month + (if (2 <? month) && leap then 1 else 0) in
  if n <? preceding then
    let month := month - 1 in
    let preceding :=
      preceding - (_DAYS_IN_MONTH month + (if (month =? 2) && leap then 1 else 0)) in
    (month, n - preceding + 1)
  else (month, n - preceding + 1).

(** Months are numbered through the years: month [12 * y + (m - 1)] is
    month [m] of year [y]. *)
Definition month_number (y m : Z) : Z := 12 * y + (m - 1).
Definition year_of_month (i : Z) : Z := i / 12.
Definition month_of_month (i : Z) : Z := i mod 12 + 1.

(** The dates of the first and of the last day of a month. *)
Definition month_first (i : Z) : Z :=
  date_of_ymd (year_of_month i) (month_of_month i) 1.
Definition month_last (i : Z) : Z :=
  date_of_ymd (year_of_month i) (month_of_month i)
              (_days_in_month (year_of_month i) (month_of_month i)).

(** The month of a date. *)
Definition month_index (date : Z) : Z :=
  let '(y, m, _) := ymd_of_date date in month_number y m.

(** ** Buckets of the commit trend *)

(** The bucket number of a timestamp: its day, its week (Monday to Sunday)
    or its month. *)
Definition bucket_index (off : DateOffset) (t : Z) : Z :=
  match off with
  | Day => date_of t
  | Week => (date_of t + 3) / 7
  | MonthEnd => month_index (date_of t)
  end.

(** The label of a bucket: the midnight of the day, of the Sunday that ends
    the week, or of the last day of the month. *)
Definition bucket_label (off : DateOffset) (i : Z) : Z :=
  match off with
  | Day => midnight i
  | Week => midnight (7 * i + 3)
  | MonthEnd => midnight (month_last i)
  end.

(** The label of the bucket that holds a timestamp, read off the calendar. *)
Definition label_of (off : DateOffset) (t : Z) : Z :=
  match off with
  | Day => normalize t
  | Week =>
      midnight (date_of t + (WEEKDAY_SUN - weekday (date_of t)) mod 7)
  | MonthEnd =>
      let '(y, m, _) := ymd_of_date (date_of t) in
      midnight (date_of_ymd y m (_days_in_month y m))
  end.

(** The [n] consecutive integers from [a]. *)
Fixpoint zrange (a : Z) (n : nat) : list Z :=
  match n with
  | O => []
  | S n' => a :: zrange (a + 1) n'
  end.

(** The right edge of a bucket: the last nanosecond of the day of its
    label. *)
Definition edge (off : DateOffset) (i : Z) : Z :=
  bucket_label off i + NS_PER_DAY - 1.

(** Number of timestamps in bucket [i]. *)
Definition count_bucket (off : DateOffset) (i : Z) (values : list Z) : Z :=
  Z.of_nat (List.length (filter (fun v => bucket_index off v =? i) values)).

(** The series of the buckets [i0], ..., [i0 + m - 1]. *)
Definition bucket_series (off : DateOffset) (values : list Z) (i0 : Z) (m : nat)
  : Series Z :=
  List.map (fun i => (bucket_label off i, count_bucket off i values))
           (zrange i0 m).

(** Number of timestamps whose bucket has the label [l]. *)
Definition count_in (off : DateOffset) (l : Z) (times : list Z) : Z :=
  Z.of_nat (List.length (filter (fun r => label_of off r =? l) times)).

Definition trend_events (freq : str) (series : Series Z) (freq_label : str)
  : list event :=
  [ Echo (MsgHeading Trend);
    Echo (MsgTrend freq (tail 10 series));
    Figure;
    PlotLine series;
    SetTitle (TitleTrend freq_label);
    Savefig (trend_path freq);
    Echo (MsgSaved Trend) ].

Definition SUPPORTED_PERIODS : list str := [py "ME"; py "W"; py "D"].

(** The errors by which an unsupported period is refused: the lookup of
    the chart label fails, or pandas does not know the alias. *)
Definition ConfigurationError (freq : str) (e : exn) : Prop :=
  e = KeyError freq \/ exn_type e = py "ValueError".

Definition is_savefig (e : event) : bool :=
  match e with Savefig _ => true | _ => false end.

(** ** The entry point *)

(** The block under [if __name__ == "__main__"]: an analyzer of the
    requests repository with the default local path, run in full. *)
Definition TARGET_REPO : str := py "https://github.com/psf/requests.git".

Definition main (env : Env) (w : World) : result unit * State :=
  let analyzer := __init__ TARGET_REPO DEFAULT_LOCAL_REPO_PATH in
  run_full_analysis env (mkState analyzer w).

(** ** Paths and messages *)

Definition BACKSLASH : N := 92.
Definition SLASH : N := 47.

(** The path with every backslash turned into a slash. *)
Definition unix_path (path : str) : str :=
  List.map (fun c => if (c =? BACKSLASH)%N then SLASH else c) path.

(** A string that neither starts nor ends with white space. *)
Definition stripped (s : str) : Prop :=
  match s with
  | [] => True
  | c :: _ => isspace c = false /\ isspace (last s c) = false
  end.

(** The keys of the [dict] of a commit, in the order of the display. *)
Definition COMMIT_KEYS : list str :=
  List.map py ["commit_hash"; "author_name"; "author_email"; "commit_time";
               "commit_message"; "insertions"; "deletions"]%string.

(** The error of subscripting [self.commits_df] while it is [None]. *)
Definition NoneType_not_subscriptable : exn :=
  TypeError (py "'NoneType' object is not subscriptable").

(** The text that [generate_commit_message_wordcloud] hands to the word
    cloud, for the messages of the table. *)
Definition word_text (env : Env) (messages : list str) : str :=
  join (py " ") (filtered_words env (lcut env (join (py " ") messages))).

(** ** Events of one kind and the files of a run *)

Definition is_sleep (e : event) : bool :=
  match e with Sleep => true | _ => false end.

Definition is_to_csv (e : event) : bool :=
  match e with ToCsv _ _ => true | _ => false end.

Definition is_makedirs (e : event) : bool :=
  match e with Makedirs _ => true | _ => false end.

Definition file_of (e : event) : list str :=
  match e with
  | ToCsv path _ | Savefig path => [path]
  | _ => []
  end.

(** The files that a trace writes, in order. *)
Definition files_written (events : list event) : list str :=
  flat_map file_of events.

(** The files of a full run, in the order of [run_full_analysis]. *)
Definition OUTPUT_FILES : list str :=
  [ CSV_PATH; CONTRIBUTORS_PATH; trend_path (py "ME"); trend_path (py "W");
    CHURN_PATH; WORDCLOUD_PATH ].

(** A stage that writes the files [l] when it returns and no file when it
    raises. *)
Definition writes (c : M unit) (l : list str) : Prop :=
  forall st, exists delta,
    w_trace (world (snd (c st))) = w_trace (world st) ++ delta /\
    files_written delta = if is_ok (fst (c st)) then l else [].

(** [c; c1; ...; cn] *)
Fixpoint in_sequence (c : M unit) (rest : list (M unit)) : M unit :=
  match rest with
  | [] => c
  | c' :: rest' => c ;; in_sequence c' rest'
  end.

(** ** Totals and whole seconds *)

(** [sum(values)] *)
Definition zsum (values : list Z) : Z := fold_right Z.add 0 values.

(** The sum of the values of a series. *)
Definition series_total {K} (s : Series K) : Z := zsum (List.map snd s).

(** A timestamp of whole seconds, as [to_datetime64] gives them. *)
Definition whole_second (t : Z) : Prop := t mod NS_PER_SECOND = 0.

(** The fields of a time of day. *)
Definition valid_hms (hh mm ss : Z) : Prop :=
  0 <= hh < 24 /\ 0 <= mm < 60 /\ 0 <= ss < 60.

(** The table at the end of a full run: the extracted table with the two
    derived columns. *)
Definition final_table (table : DataFrame) (times : list Z) : DataFrame :=
  setitem (setitem table (py "commit_date") (ColDate (List.map date_of times)))
          (py "commit_year") (ColInt (List.map year_of times)).

(* ================================================================== *)
(** * Sample inputs

    Concrete environments, repositories and tables on which the statements
    below are evaluated. *)

Module Samples.

(** An environment in UTC with the access token [token] (empty for none),
    whose remote holds the repository [r] behind every address. *)
Definition env_of (token : str) (r : Repo) : Env :=
  mkEnv token (fun p => py "/home/user/" ++ p) (fun _ => Ok tt)
        (fun _ => Ok r) (fun _ => 0)
        (fun text => [text]) (fun c => [c]) (fun _ => None) (fun _ => Ok tt)
        (fun _ _ => 0) (fun _ => []).

Definition alice : Actor := mkActor (py "Alice") (py "alice@example.org").
Definition bob : Actor := mkActor (py "Bob") (py "bob@example.org").
Definition carol : Actor := mkActor (py "Carol") (py "carol@example.org").

Definition good_stats (i d : Z) : result Stats :=
  Ok (mkStats [(py "insertions", i); (py "deletions", d);
               (py "lines", i + d); (py "files", 1)]).

Definition GitCommandError : exn :=
  Exn (py "GitCommandError") (py "Cmd('git') failed due to: exit code(128)").

(** A commit whose attributes are all readable. *)
Definition good_commit (sha : string) (a : Actor) (ts i d : Z) (msg : string)
  : Commit :=
  mkCommit (py sha) (Ok a) (Ok ts) (Ok (py msg)) (good_stats i d).

(** A commit whose diff statistics cannot be computed. *)
Definition bad_commit (sha : string) (a : Actor) (ts : Z) : Commit :=
  mkCommit (py sha) (Ok a) (Ok ts) (Ok (py "broken")) (Raise GitCommandError).

Definition empty_world : World := mkWorld [] [] [].

Definition URL : str := py "https://github.com/psf/requests.git".
Definition SSH_URL : str := py "git@github.com:psf/requests.git".

(** A reference that holds "https://" twice, and not at its start. *)
Definition MIRROR_URL : str :=
  py "git+https://proxy.example/https://github.com/psf/requests.git".

Definition start (r : Repo) : State :=
  mkState (mkAnalyzer URL DEFAULT_LOCAL_REPO_PATH (Some r) None) empty_world.

End Samples.

Module CloneSamples.
Import Samples.

Definition one_commit_repo : Repo :=
  mkRepo (Ok [good_commit "0123456789abcdef" alice 1700000000 10 2 "initial import"]).

Definition env_token : Env := env_of (py "tok") one_commit_repo.
Definition env_public : Env := env_of [] one_commit_repo.

Definition fresh (url : str) : State :=
  mkState (__init__ url DEFAULT_LOCAL_REPO_PATH) empty_world.

Definition cloned (url : str) : State :=
  mkState (__init__ url DEFAULT_LOCAL_REPO_PATH)
          (mkWorld [DEFAULT_LOCAL_REPO_PATH]
                   [(DEFAULT_LOCAL_REPO_PATH, one_commit_repo)] []).
End CloneSamples.

Module LogSamples.
Import Samples CloneSamples.

Definition c_new : Commit :=
  good_commit "aaaaaaaa11111111" alice 1700000300 10 2 "add parser".
Definition c_bad : Commit := bad_commit "bbbbbbbb22222222" bob 1700000200.
Definition c_old : Commit :=
  good_commit "cccccccc33333333" carol 1700000100 4 9 "  first draft  ".

(** A log of three commits, newest first, the middle one unreadable. *)
Definition mixed_repo : Repo := mkRepo (Ok [c_new; c_bad; c_old]).

(** A log whose only commit is unreadable, and an empty log. *)
Definition bad_repo : Repo := mkRepo (Ok [c_bad]).
Definition empty_repo : Repo := mkRepo (Ok []).

End LogSamples.

Module ExtractedSamples.
Import Samples CloneSamples LogSamples.

(** The state after extraction from the three-commit log. *)
Definition extracted : State :=
  snd (extract_commit_data env_public (start mixed_repo)).

Definition canonical_columns : list str :=
  List.map py ["commit_hash"; "author_name"; "author_email"; "commit_time";
               "commit_message"; "insertions"; "deletions"]%string.

End ExtractedSamples.

Module TableSamples.
Import Samples.

Definition record (a : Actor) (t i d : Z) : CommitInfo :=
  mkCommitInfo (py "0123abcd") (name a) (email a) t (py "work") i d.

(** Two commits of 2023 with insertions 10, 20 and deletions 5, 5, and one
    commit of 2024 that deletes more than it inserts. *)
Definition churn_table : DataFrame :=
  DataFrame_of
    [ record alice (datetime 2023 3 1 12 0 0) 10 5;
      record bob (datetime 2023 11 20 8 30 0) 20 5;
      record alice (datetime 2024 1 5 9 0 0) 3 40 ].

Definition churn_times : list Z :=
  List.map to_datetime64
    [datetime 2023 3 1 12 0 0; datetime 2023 11 20 8 30 0; datetime 2024 1 5 9 0 0].

Definition with_table (df : DataFrame) : State :=
  mkState (mkAnalyzer URL DEFAULT_LOCAL_REPO_PATH None (Some df)) empty_world.

(** A table with the seven columns and no row. *)
Definition empty_table : DataFrame :=
  mkDataFrame []
    [ (py "commit_hash", ColStr []); (py "author_name", ColStr []);
      (py "author_email", ColStr []); (py "commit_time", ColTime []);
      (py "commit_message", ColStr []); (py "insertions", ColInt []);
      (py "deletions", ColInt []) ].

(** Two commits of 2023 that insert 2^62 lines each. *)
Definition HUGE : Z := 4611686018427387904.

Definition huge_table : DataFrame :=
  DataFrame_of
    [ record alice (datetime 2023 3 1 12 0 0) HUGE 0;
      record bob (datetime 2023 11 20 8 30 0) HUGE 0 ].

Definition huge_times : list Z :=
  List.map to_datetime64
    [datetime 2023 3 1 12 0 0; datetime 2023 11 20 8 30 0].

End TableSamples.

Module AuthorSamples.
Import Samples TableSamples.

(** Eleven commits: Alice 5, Bob 3, Carol 3, Bob appearing before Carol. *)
Definition authors_abc : list Actor :=
  [alice; bob; carol; alice; bob; carol; alice; bob; carol; alice; alice].


Definition table_of (authors : list Actor) : DataFrame :=
  DataFrame_of (List.map (fun a => record a 1700000000 1 1) authors).




End AuthorSamples.

Module TrendSamples.
Import Samples TableSamples.

(** An environment in which pandas knows the quarterly alias [Q] (all the
    commits of the samples fall in one quarter, labelled here by 0). *)
Definition env_q : Env :=
  mkEnv [] (fun p => p) (fun _ => Ok tt) (fun _ => Raise GitCommandError)
        (fun _ => 0) (fun text => [text]) (fun c => [c])
        (fun freq =>
           if str_eqb freq (py "Q")
           then Some (fun times => [(0, Z.of_nat (List.length times))])
           else None)
        (fun _ => Ok tt) (fun _ _ => 0) (fun _ => []).

(** Commits in January and in March 2024 only. *)
Definition jan_mar_times : list Z :=
  List.map to_datetime64
    [datetime 2024 1 10 9 0 0; datetime 2024 1 25 18 30 0;
     datetime 2024 3 5 12 0 0].

Definition jan_mar_table : DataFrame :=
  DataFrame_of
    [ record alice (datetime 2024 1 10 9 0 0) 1 0;
      record bob (datetime 2024 1 25 18 30 0) 2 1;
      record alice (datetime 2024 3 5 12 0 0) 3 2 ].

Definition month_end (y m d : Z) : Z := to_datetime64 (datetime y m d 0 0 0).

End TrendSamples.

(* ================================================================== *)
(** * Properties *)

(** ** Strings *)

Lemma str_eqb_eq a b : str_eqb a b = true <-> a = b.
Proof.
  revert b; induction a as [|x a IH]; intros [|y b]; simpl; split; intros H;
    try reflexivity; try discriminate.
  - apply andb_true_iff in H. destruct H as [H1 H2].
    apply N.eqb_eq in H1. apply IH in H2. congruence.
  - injection H as -> ->. rewrite N.eqb_refl. simpl. now apply IH.
Qed.

Lemma str_eqb_refl a : str_eqb a a = true.
Proof. now apply str_eqb_eq. Qed.

Lemma mem_In x l : mem x l = true <-> In x l.
Proof.
  induction l as [|y l IH]; simpl.
  - split; [discriminate | tauto].
  - rewrite orb_true_iff, IH, str_eqb_eq. split; intros [H|H]; auto.
Qed.

(** ** Running the methods *)

(** Unfolds the combinators of [M] and reduces the projections of the
    state. *)
Ltac msimpl :=
  repeat (progress
    (cbv beta iota zeta delta
       [bind ret lift raise emit print try_except get_self set_repo
        set_commits_df get_repo get_commits_df path_exists add_path add_repo
        savefig plot_barh plot_line plot_bar_stacked];
     cbn [self world w_paths w_repos w_trace repo commits_df repo_url
          local_repo_path fst snd negb])).

Lemma fix_git_ownership_run env path st :
  fix_git_ownership env path st =
  (Ok tt, mkState (self st)
            (mkWorld (w_paths (world st)) (w_repos (world st))
                     (w_trace (world st) ++ fix_trace env path))).
Proof.
  unfold fix_git_ownership, fix_trace. msimpl.
  destruct (git_execute env _) as [[]|e]; msimpl;
    rewrite <- !app_assoc; reflexivity.
Qed.

Lemma clone_repo_present env st :
  let a := self st in
  let w := world st in
  let p := local_repo_path a in
  mem p (w_paths w) = true ->
  clone_repo env st =
  match dict_get (w_repos w) p with
  | Ok r =>
      (Ok tt,
       mkState (mkAnalyzer (repo_url a) p (Some r) (commits_df a))
         (mkWorld (w_paths w) (w_repos w)
            (w_trace w ++ fix_trace env (abspath env p)
                       ++ [OpenRepo p; Echo MsgLoaded])))
  | Raise _ =>
      (Raise (InvalidGitRepositoryError (abspath env p)),
       mkState a
         (mkWorld (w_paths w) (w_repos w)
            (w_trace w ++ fix_trace env (abspath env p) ++ [OpenRepo p])))
  end.
Proof.
  intros a w p Hp. subst a w p.
  unfold clone_repo. unfold bind at 1. unfold get_self at 1.
  unfold bind at 1. rewrite fix_git_ownership_run.
  unfold open_repo. msimpl. rewrite Hp. msimpl.
  destruct (dict_get (w_repos (world st)) (local_repo_path (self st)));
    msimpl; rewrite <- !app_assoc; reflexivity.
Qed.

Lemma clone_repo_absent env st :
  let a := self st in
  let w := world st in
  let p := local_repo_path a in
  let u := fetch_address env (repo_url a) in
  mem p (w_paths w) = false ->
  clone_repo env st =
  match remote env u with
  | Ok r =>
      (Ok tt,
       mkState (mkAnalyzer (repo_url a) p (Some r) (commits_df a))
         (mkWorld (p :: w_paths w) ((p, r) :: w_repos w)
            (w_trace w ++ fix_trace env (abspath env p)
                       ++ [Echo (MsgCloning (repo_url a)); CloneFrom u p;
                           Echo MsgCloned])))
  | Raise e =>
      (Raise e,
       mkState a
         (mkWorld (w_paths w) (w_repos w)
            (w_trace w ++ fix_trace env (abspath env p)
                       ++ [Echo (MsgCloning (repo_url a)); CloneFrom u p])))
  end.
Proof.
  intros a w p u Hp. subst a w p u.
  unfold clone_repo. unfold bind at 1. unfold get_self at 1.
  unfold bind at 1. rewrite fix_git_ownership_run.
  unfold fetch_address, clone_from. msimpl. rewrite Hp. msimpl.
  destruct (GITHUB_TOKEN env); msimpl.
  all: match goal with |- context [remote ?e0 ?u] =>
         destruct (remote e0 u) as [r|e]; msimpl end.
  all: rewrite <- !app_assoc; reflexivity.
Qed.

(** ** Occurrences and [replace] *)

Lemma startswith_spec pat s :
  startswith pat s = true <-> exists post, s = pat ++ post.
Proof.
  revert s; induction pat as [|x pat IH]; intros s; simpl.
  - split; eauto.
  - destruct s as [|y s].
    + split; [discriminate | intros [post H]; discriminate].
    + rewrite andb_true_iff, N.eqb_eq, IH. split.
      * intros [-> [post ->]]. eauto.
      * intros [post H]. injection H as -> ->. eauto.
Qed.

Lemma contains_spec pat s : contains pat s = true <-> occurs pat s.
Proof.
  unfold occurs. induction s as [|c s IH]; simpl.
  - rewrite orb_false_r, startswith_spec. split.
    + intros [post H]. exists [], post. exact H.
    + intros [[|? ?] [post H]]; [eauto | discriminate].
  - rewrite orb_true_iff, startswith_spec, IH. split.
    + intros [[post H] | [pre [post H]]].
      * exists [], post. exact H.
      * exists (c :: pre), post. simpl. now rewrite H.
    + intros [[|c' pre] [post H]].
      * left. eauto.
      * right. injection H as -> ->. eauto.
Qed.

Lemma replace_fuel_absent fuel old new s :
  contains old s = false -> replace_fuel fuel old new s = s.
Proof.
  revert s; induction fuel as [|fuel IH]; intros s H; simpl; [reflexivity|].
  destruct s as [|c s]; [reflexivity|].
  simpl in H. apply orb_false_iff in H. destruct H as [H1 H2].
  rewrite H1. now rewrite IH.
Qed.

Lemma replace_absent old new s :
  contains old s = false -> replace old new s = s.
Proof. apply replace_fuel_absent. Qed.

Lemma startswith_app pat s : startswith pat (pat ++ s) = true.
Proof. apply startswith_spec. eauto. Qed.

Lemma skipn_app_exact {A} (l1 l2 : list A) : skipn (List.length l1) (l1 ++ l2) = l2.
Proof. induction l1; simpl; auto. Qed.

Lemma replace_prefix old new rest :
  old <> [] -> contains old rest = false ->
  replace old new (old ++ rest) = new ++ rest.
Proof.
  intros Hne Hrest. unfold replace. destruct old as [|c old]; [congruence|].
  set (pat := c :: old).
  change (replace_fuel (S (List.length (pat ++ rest))) pat new (pat ++ rest))
    with (if startswith pat (pat ++ rest)
          then new ++ replace_fuel (List.length (pat ++ rest)) pat new
                        (skipn (List.length pat) (pat ++ rest))
          else c :: replace_fuel (List.length (pat ++ rest)) pat new (old ++ rest)).
  rewrite startswith_app, skipn_app_exact.
  now rewrite replace_fuel_absent.
Qed.

(** Fuel above the length of the string is enough. *)
Lemma replace_fuel_enough old new : old <> [] -> forall fuel fuel' s,
  (List.length s < fuel)%nat -> (List.length s < fuel')%nat ->
  replace_fuel fuel old new s = replace_fuel fuel' old new s.
Proof.
  intros Hne.
  assert (Hold : (1 <= List.length old)%nat)
    by (destruct old; [congruence | cbn [List.length]; lia]).
  induction fuel as [|fuel IH]; intros [|fuel'] s H H'; try lia.
  destruct s as [|c s]; [reflexivity|]. cbn [replace_fuel].
  pose proof (length_skipn (List.length old) (c :: s)) as Hs.
  cbn [List.length] in H, H', Hs.
  destruct (startswith old (c :: s)).
  - f_equal. apply IH; lia.
  - f_equal. apply IH; lia.
Qed.

Lemma replace_miss old new c s :
  startswith old (c :: s) = false ->
  replace old new (c :: s) = c :: replace old new s.
Proof.
  intros H. unfold replace. cbn [List.length].
  change (replace_fuel (S (S (List.length s))) old new (c :: s))
    with (if startswith old (c :: s)
          then new ++ replace_fuel (S (List.length s)) old new
                        (skipn (List.length old) (c :: s))
          else c :: replace_fuel (S (List.length s)) old new s).
  now rewrite H.
Qed.

Lemma replace_hit old new rest :
  old <> [] -> replace old new (old ++ rest) = new ++ replace old new rest.
Proof.
  intros Hne. unfold replace. destruct old as [|c old]; [congruence|].
  set (pat := c :: old).
  change (replace_fuel (S (List.length (pat ++ rest))) pat new (pat ++ rest))
    with (if startswith pat (pat ++ rest)
          then new ++ replace_fuel (List.length (pat ++ rest)) pat new
                        (skipn (List.length pat) (pat ++ rest))
          else c :: replace_fuel (List.length (pat ++ rest)) pat new (old ++ rest)).
  rewrite startswith_app, skipn_app_exact. f_equal.
  apply replace_fuel_enough; [discriminate | | lia].
  rewrite length_app. unfold pat. cbn [List.length]. lia.
Qed.

(** ** Occurrences of "https://"

    No end of "https://" is a beginning of it, so that an occurrence
    cannot start in a text that holds none and run into an occurrence that
    follows the text. *)

Lemma https_chars : py "https://" = [104; 116; 116; 112; 115; 58; 47; 47]%N.
Proof. reflexivity. Qed.

Lemma https_no_overlap s rest :
  s <> [] -> startswith (py "https://") s = false ->
  startswith (py "https://") (s ++ py "https://" ++ rest) = false.
Proof.
  rewrite https_chars. intros Hne H.
  destruct s as [|c1 s]; [congruence|].
  do 7 (destruct s as [|? s];
        [cbn [startswith app] in *;
         repeat match goal with
         | |- context [(?a =? ?b)%N] =>
             destruct (a =? b)%N; cbn [andb]; try reflexivity
         end|]).
  cbn [startswith app andb] in *. exact H.
Qed.

(** The first occurrence: the text before it is kept. *)
Lemma replace_https_first new pre rest :
  contains (py "https://") pre = false ->
  replace (py "https://") new (pre ++ py "https://" ++ rest)
  = pre ++ new ++ replace (py "https://") new rest.
Proof.
  induction pre as [|c pre IH]; intros H.
  - cbn [app]. apply replace_hit. discriminate.
  - cbn [contains] in H. apply orb_false_iff in H. destruct H as [H1 H2].
    cbn [app]. rewrite replace_miss.
    + f_equal. now apply IH.
    + apply (https_no_overlap (c :: pre) rest); [discriminate | exact H1].
Qed.

(** Every occurrence: the texts between the occurrences are kept. *)
Lemma replace_https_join new : forall segs,
  Forall (fun s => contains (py "https://") s = false) segs ->
  replace (py "https://") new (join (py "https://") segs) = join new segs.
Proof.
  induction segs as [|s segs IH]; intros H; [reflexivity|].
  inversion H as [|? ? Hs Hsegs]; subst.
  destruct segs as [|s' segs].
  - cbn [join]. now apply replace_absent.
  - change (join (py "https://") (s :: s' :: segs))
      with (s ++ py "https://" ++ join (py "https://") (s' :: segs)).
    change (join new (s :: s' :: segs)) with (s ++ new ++ join new (s' :: segs)).
    rewrite replace_https_first by exact Hs. now rewrite IH.
Qed.

Lemma fix_trace_no_fetch env path : filter is_fetch (fix_trace env path) = [].
Proof.
  unfold fix_trace. cbn [filter is_fetch].
  destruct (git_execute env _); reflexivity.
Qed.

Lemma filter_is_fetch_app l1 l2 :
  filter is_fetch (l1 ++ l2) = filter is_fetch l1 ++ filter is_fetch l2.
Proof. apply filter_app. Qed.

(** C10 (amended).  [clone_repo] opens the local copy without fetching when
    the local path exists; otherwise it fetches once into the local path,
    from the reference itself when no token is configured or when the
    reference holds no "https://", and from the reference with the token and
    "@" put after each "https://" when a token is configured: the texts
    before, between and after the occurrences of "https://" are kept. *)
Theorem clone_repo_resolution env st :
  let a := self st in
  let w := world st in
  let p := local_repo_path a in
  let url := repo_url a in
  let st' := snd (clone_repo env st) in
  (mem p (w_paths w) = true ->
     exists delta,
       w_trace (world st') = w_trace w ++ delta /\
       filter is_fetch delta = [] /\ In (OpenRepo p) delta /\
       forall r, dict_get (w_repos w) p = Ok r ->
                 fst (clone_repo env st) = Ok tt /\ repo (self st') = Some r) /\
  (mem p (w_paths w) = false ->
     exists delta,
       w_trace (world st') = w_trace w ++ delta /\
       filter is_fetch delta = [CloneFrom (fetch_address env url) p] /\
       forall r, remote env (fetch_address env url) = Ok r ->
                 fst (clone_repo env st) = Ok tt /\ repo (self st') = Some r /\
                 dict_get (w_repos (world st')) p = Ok r /\
                 mem p (w_paths (world st')) = true) /\
  (GITHUB_TOKEN env = [] -> fetch_address env url = url) /\
  (GITHUB_TOKEN env <> [] ->
     forall rest, url = py "https://" ++ rest ->
                  contains (py "https://") rest = false ->
                  fetch_address env url
                  = py "https://" ++ GITHUB_TOKEN env ++ py "@" ++ rest) /\
  (contains (py "https://") url = false -> fetch_address env url = url) /\
  (GITHUB_TOKEN env <> [] ->
     forall pre rest, url = pre ++ py "https://" ++ rest ->
                      contains (py "https://") pre = false ->
                      fetch_address env url
                      = pre ++ py "https://" ++ GITHUB_TOKEN env ++ py "@"
                            ++ fetch_address env rest) /\
  (GITHUB_TOKEN env <> [] ->
     forall segs, url = join (py "https://") segs ->
                  Forall (fun s => contains (py "https://") s = false) segs ->
                  fetch_address env url
                  = join (py "https://" ++ GITHUB_TOKEN env ++ py "@") segs).
Proof.
  intros a w p url st'. subst st'.
  split; [|split; [|split; [|split; [|split; [|split]]]]].
  - intros Hp. rewrite (clone_repo_present env st Hp). fold a w p.
    destruct (dict_get (w_repos w) p) as [r|e]; cbn [snd fst world w_trace self repo].
    + exists (fix_trace env (abspath env p) ++ [OpenRepo p; Echo MsgLoaded]).
      rewrite filter_is_fetch_app, fix_trace_no_fetch.
      split; [reflexivity|]. split; [reflexivity|]. split.
      * apply in_or_app. right. now left.
      * intros r' Hr. now injection Hr as <-.
    + exists (fix_trace env (abspath env p) ++ [OpenRepo p]).
      rewrite filter_is_fetch_app, fix_trace_no_fetch.
      split; [reflexivity|]. split; [reflexivity|]. split.
      * apply in_or_app. right. now left.
      * discriminate.
  - intros Hp. rewrite (clone_repo_absent env st Hp). fold a w p url.
    destruct (remote env (fetch_address env url)) as [r|e];
      cbn [snd fst world w_trace w_repos w_paths self repo].
    + eexists. split; [reflexivity|].
      rewrite filter_is_fetch_app, fix_trace_no_fetch. split; [reflexivity|].
      intros r' Hr. injection Hr as <-. cbn [dict_get mem].
      rewrite str_eqb_refl. auto.
    + eexists. split; [reflexivity|].
      rewrite filter_is_fetch_app, fix_trace_no_fetch. split; [reflexivity|].
      discriminate.
  - intros H. unfold fetch_address. now rewrite H.
  - intros H rest -> Hrest. unfold fetch_address, repo_url_with_token.
    destruct (GITHUB_TOKEN env) as [|c tok]; [congruence|].
    rewrite replace_prefix; [|discriminate | exact Hrest].
    now rewrite <- !app_assoc.
  - intros H. unfold fetch_address, repo_url_with_token.
    destruct (GITHUB_TOKEN env); [reflexivity|]. now apply replace_absent.
  - intros H pre rest -> Hpre. unfold fetch_address, repo_url_with_token.
    destruct (GITHUB_TOKEN env) as [|c tok]; [congruence|].
    rewrite replace_https_first by exact Hpre.
    now rewrite <- !app_assoc.
  - intros H segs -> Hsegs. unfold fetch_address, repo_url_with_token.
    destruct (GITHUB_TOKEN env) as [|c tok]; [congruence|].
    now apply replace_https_join.
Qed.

Lemma clone_repo_resolution_witness :
  (mem DEFAULT_LOCAL_REPO_PATH
       (w_paths (world (CloneSamples.cloned Samples.URL))) = true /\
   exists delta,
     w_trace (world (snd (clone_repo CloneSamples.env_token
                            (CloneSamples.cloned Samples.URL)))) = [] ++ delta /\
     filter is_fetch delta = []) /\
  (GITHUB_TOKEN CloneSamples.env_token <> [] /\
   fetch_address CloneSamples.env_token Samples.URL
   = py "https://tok@github.com/psf/requests.git") /\
  (Samples.MIRROR_URL
   = join (py "https://") [py "git+"; py "proxy.example/"; py "github.com/psf/requests.git"] /\
   fetch_address CloneSamples.env_token Samples.MIRROR_URL
   = py "git+https://tok@proxy.example/https://tok@github.com/psf/requests.git").
Proof.
  pose proof (clone_repo_resolution CloneSamples.env_token
                (CloneSamples.cloned Samples.URL)) as H.
  cbv zeta in H. destruct H as (Hpresent & _ & _ & Htoken & _).
  pose proof (clone_repo_resolution CloneSamples.env_token
                (CloneSamples.cloned Samples.MIRROR_URL)) as H'.
  cbv zeta in H'. destruct H' as (_ & _ & _ & _ & _ & _ & Hjoin).
  split; [|split].
  - split; [reflexivity|].
    destruct (Hpresent eq_refl) as (delta & Ht & Hf & _).
    exists delta. split; assumption.
  - split; [discriminate|].
    apply (Htoken ltac:(discriminate) (py "github.com/psf/requests.git"));
      reflexivity.
  - split; [reflexivity|].
    apply (Hjoin ltac:(discriminate)
             [py "git+"; py "proxy.example/"; py "github.com/psf/requests.git"]);
      [reflexivity|].
    repeat constructor.
Defined.

(** C10 (as stated) fails: with a token configured and a reference that is
    not an "https://" address, the fetch uses the reference unchanged and
    the token is nowhere in the address. *)
Lemma clone_repo_token_not_injected :
  let env := CloneSamples.env_token in
  let st := CloneSamples.fresh Samples.SSH_URL in
  GITHUB_TOKEN env <> [] /\
  mem (local_repo_path (self st)) (w_paths (world st)) = false /\
  filter is_fetch (w_trace (world (snd (clone_repo env st))))
  = [CloneFrom Samples.SSH_URL DEFAULT_LOCAL_REPO_PATH] /\
  ~ has_token (GITHUB_TOKEN env) Samples.SSH_URL.
Proof.
  cbv zeta. split; [discriminate|]. split; [reflexivity|]. split.
  - vm_compute. reflexivity.
  - intros H. apply contains_spec in H. vm_compute in H. discriminate.
Qed.

(** ** The word filter *)

Lemma lower_char_nonempty env c :
  (forall c, unicode_lower env c <> []) -> lower_char env c <> [].
Proof.
  intros H. unfold lower_char.
  destruct ((65 <=? c)%N && (c <=? 90)%N); [discriminate|].
  destruct (c <? 128)%N; [discriminate | apply H].
Qed.

Lemma length_lower env w :
  (forall c, unicode_lower env c <> []) ->
  (List.length w <= List.length (lower env w))%nat.
Proof.
  intros H. unfold lower. induction w as [|c w IH]; simpl; [lia|].
  rewrite length_app.
  pose proof (lower_char_nonempty env c H) as Hc.
  destruct (lower_char env c); [congruence | simpl; lia].
Qed.

Lemma stop_words_lower env s :
  In s stop_words -> s = py "I" \/ lower env s = s.
Proof.
  unfold stop_words. cbn [List.map In]. intros H.
  repeat (destruct H as [H|H]; [subst s; try (now left); right; reflexivity|]).
  contradiction.
Qed.

Lemma filtered_words_In env words w :
  In w (filtered_words env words) <->
  In w words /\ 2 <= len w /\ ~ In (lower env w) stop_words.
Proof.
  unfold filtered_words. rewrite filter_In, andb_true_iff, Z.leb_le, negb_true_iff.
  pose proof (mem_In (lower env w) stop_words) as Hm.
  destruct (mem (lower env w) stop_words); intuition congruence.
Qed.

(** C9.  The filter keeps a token exactly when it has two characters at
    least and its lower-case form is not a stop word, in the order of the
    stream; a token that matches a stop word in any letter case is excluded,
    and so is every token shorter than two characters. *)
Theorem filtered_words_exact env :
  (forall c, unicode_lower env c <> []) ->
  forall words,
    (forall w, In w (filtered_words env words) <->
               In w words /\ 2 <= len w /\ ~ In (lower env w) stop_words) /\
    (forall words', filtered_words env (words ++ words')
                    = filtered_words env words ++ filtered_words env words') /\
    (forall w s, In s stop_words -> lower env w = lower env s ->
                 ~ In w (filtered_words env words)) /\
    (forall w, len w < 2 -> ~ In w (filtered_words env words)).
Proof.
  intros Hlow words. split; [|split; [|split]].
  - intros w. apply filtered_words_In.
  - intros words'. unfold filtered_words. apply filter_app.
  - intros w s Hs Heq Hin. apply filtered_words_In in Hin.
    destruct Hin as (_ & Hlen & Hstop).
    destruct (stop_words_lower env s Hs) as [-> | Hs'].
    + pose proof (length_lower env w Hlow) as Hl. rewrite Heq in Hl.
      change (lower env (py "I")) with [105%N] in Hl. cbn [List.length] in Hl.
      unfold len in Hlen. lia.
    + apply Hstop. rewrite Heq, Hs'. exact Hs.
  - intros w Hlen Hin. apply filtered_words_In in Hin. lia.
Qed.

Lemma filtered_words_exact_witness :
  (forall c, unicode_lower CloneSamples.env_public c <> []) /\
  ~ In (py "Fix")
       (filtered_words CloneSamples.env_public
          (List.map py ["Fix"; " "; "login"; " "; "bug"; "a"; "Update"; "readme"]%string)) /\
  filtered_words CloneSamples.env_public
    (List.map py ["fix"; " "; "login"; " "; "bug"; " "; "update"; " "; "readme"]%string)
  = List.map py ["login"; "bug"; "readme"]%string.
Proof.
  assert (H : forall c, unicode_lower CloneSamples.env_public c <> [])
    by (intros c; discriminate).
  split; [exact H|]. split.
  - destruct (filtered_words_exact CloneSamples.env_public H
                (List.map py ["Fix"; " "; "login"; " "; "bug"; "a"; "Update"; "readme"]%string))
      as (_ & _ & Hci & _).
    apply (Hci (py "Fix") (py "fix")).
    + unfold stop_words. cbn [List.map In]. do 22 right. now left.
    + reflexivity.
  - reflexivity.
Defined.

(** ** Stable sorting *)

Section SortFacts.
Context {A : Type} (key : A -> Z).

Let leb (x y : A) : bool := key x <=? key y.
Let le (x y : A) : Prop := key x <= key y.

Lemma insert_perm x l : Permutation (insert leb x l) (x :: l).
Proof.
  induction l as [|y l IH]; simpl; [reflexivity|].
  destruct (leb x y); [reflexivity|].
  rewrite IH. apply perm_swap.
Qed.

Lemma sort_perm l : Permutation (sort leb l) l.
Proof.
  induction l as [|x l IH]; simpl; [reflexivity|].
  rewrite insert_perm. now constructor.
Qed.

Lemma insert_sorted x l : Sorted le l -> Sorted le (insert leb x l).
Proof.
  induction l as [|y l IH]; intros Hs; simpl.
  - repeat constructor.
  - unfold leb at 1. destruct (Z.leb_spec (key x) (key y)) as [Hxy|Hxy].
    + constructor; [exact Hs|]. constructor. exact Hxy.
    + inversion Hs as [|? ? Hs' Hhd]; subst.
      constructor; [now apply IH|].
      destruct l as [|z l]; simpl.
      * constructor. unfold le. lia.
      * unfold leb. destruct (Z.leb_spec (key x) (key z)).
        -- constructor. unfold le. lia.
        -- constructor. now inversion Hhd.
Qed.

Lemma sort_sorted l : Sorted le (sort leb l).
Proof.
  induction l as [|x l IH]; simpl; [constructor|]. now apply insert_sorted.
Qed.

Lemma sort_keys_sorted l : StronglySorted Z.le (List.map key (sort leb l)).
Proof.
  apply Sorted_StronglySorted; [intros x y z; apply Z.le_trans|].
  pose proof (sort_sorted l) as H.
  induction H as [|x s Hs IH Hhd]; simpl; constructor; auto.
  destruct Hhd; simpl; constructor; auto.
Qed.

Lemma sort_length l : List.length (sort leb l) = List.length l.
Proof. apply Permutation_length, sort_perm. Qed.
End SortFacts.

Lemma combine_seq_nth {A} (d : A) (v : list A) k x i :
  In (x, i) (combine v (seq k (List.length v))) ->
  (k <= i)%nat /\ nth (i - k) v d = x.
Proof.
  revert k; induction v as [|y v IH]; intros k; simpl; [tauto|].
  intros [H|H].
  - injection H as -> ->. split; [lia|]. now rewrite Nat.sub_diag.
  - apply IH in H. destruct H as [Hk Hn]. split; [lia|].
    replace (i - k)%nat with (S (i - S k)) by lia. exact Hn.
Qed.

Lemma map_snd_combine {A B} (l : list A) (l' : list B) :
  List.length l = List.length l' -> List.map snd (combine l l') = l'.
Proof.
  revert l'; induction l as [|x l IH]; intros [|y l'] H; simpl in *;
    try discriminate; [reflexivity|]. f_equal. apply IH. lia.
Qed.

Lemma take_length {A} (d : A) v idx : List.length (take d v idx) = List.length idx.
Proof. unfold take. apply length_map. Qed.

(** ** The sort of numpy *)

Lemma map_fst_combine {A B} (l : list A) (l' : list B) :
  List.length l = List.length l' -> List.map fst (combine l l') = l.
Proof.
  revert l'; induction l as [|x l IH]; intros [|y l'] H; simpl in *;
    try discriminate; [reflexivity|]. f_equal. apply IH. lia.
Qed.

Lemma numpy_sort_small {A} rank (leb : A -> A -> bool) l :
  (List.length l <= SMALL_QUICKSORT)%nat -> numpy_sort rank leb l = sort leb l.
Proof.
  intros H. unfold numpy_sort.
  now destruct (Nat.leb_spec (List.length l) SMALL_QUICKSORT); [|lia].
Qed.

Lemma numpy_sort_perm {A} (key : A -> Z) rank l :
  Permutation (numpy_sort rank (fun x y => key x <=? key y) l) l.
Proof.
  unfold numpy_sort.
  destruct (List.length l <=? SMALL_QUICKSORT)%nat; [apply (sort_perm key)|].
  rewrite (sort_perm (fun p => key (fst p))).
  rewrite (sort_perm (fun p => rank (snd p))).
  rewrite map_fst_combine; [reflexivity | now rewrite length_seq].
Qed.

Lemma numpy_sort_keys_sorted {A} (key : A -> Z) rank l :
  StronglySorted Z.le
    (List.map key (numpy_sort rank (fun x y => key x <=? key y) l)).
Proof.
  unfold numpy_sort.
  destruct (List.length l <=? SMALL_QUICKSORT)%nat;
    [apply (sort_keys_sorted key)|].
  rewrite map_map. apply (sort_keys_sorted (fun p => key (fst p))).
Qed.

Lemma numpy_argsort_small {A} rank (leb : A -> A -> bool) v :
  (List.length v <= SMALL_QUICKSORT)%nat ->
  numpy_argsort rank leb v = argsort leb v.
Proof.
  intros H. unfold numpy_argsort, argsort. rewrite numpy_sort_small; [reflexivity|].
  rewrite length_combine, length_seq. lia.
Qed.

Lemma numpy_argsort_perm rank (v : list Z) :
  Permutation (numpy_argsort rank Z.leb v) (seq 0 (List.length v)).
Proof.
  unfold numpy_argsort.
  rewrite (numpy_sort_perm fst rank (combine v (seq 0 (List.length v)))).
  rewrite map_snd_combine; [reflexivity | now rewrite length_seq].
Qed.

Lemma take_numpy_argsort rank (v : list Z) :
  take 0 v (numpy_argsort rank Z.leb v)
  = List.map fst (numpy_sort rank (fun p q => Z.leb (fst p) (fst q))
                             (combine v (seq 0 (List.length v)))).
Proof.
  unfold take, numpy_argsort. rewrite map_map. apply map_ext_in.
  intros [x i] Hin. simpl.
  apply (Permutation_in _ (numpy_sort_perm fst rank _)) in Hin.
  apply (combine_seq_nth 0) in Hin. destruct Hin as [_ Hn].
  now rewrite Nat.sub_0_r in Hn.
Qed.

Lemma take_numpy_argsort_sorted rank (v : list Z) :
  StronglySorted Z.le (take 0 v (numpy_argsort rank Z.leb v)).
Proof. rewrite take_numpy_argsort. apply (numpy_sort_keys_sorted fst). Qed.

Lemma time_order_perm env data :
  Permutation (time_order env data) (seq 0 (List.length data)).
Proof.
  unfold time_order. rewrite numpy_argsort_perm.
  unfold time_column. now rewrite length_map.
Qed.

Lemma time_order_length env data :
  List.length (time_order env data) = List.length data.
Proof.
  rewrite (Permutation_length (time_order_perm env data)). apply length_seq.
Qed.

Lemma time_order_sorted env data :
  StronglySorted Z.le (take 0 (time_column data) (time_order env data)).
Proof. apply take_numpy_argsort_sorted. Qed.

(** ** The walk over the commits *)

Lemma with_trace_nil st : with_trace st [] = st.
Proof.
  destruct st as [a [p r t]]. unfold with_trace. cbn. now rewrite app_nil_r.
Qed.

Lemma with_trace_app st e1 e2 :
  with_trace (with_trace st e1) e2 = with_trace st (e1 ++ e2).
Proof. unfold with_trace. cbn. now rewrite app_assoc. Qed.

Lemma walk_step_run env idx c data st :
  walk_step env idx c data st =
  (Ok (data ++ record_of env c),
   with_trace st ((if idx mod 20 =? 0 then [Sleep] else [])
                  ++ List.map Echo (skip_line env c))).
Proof.
  unfold walk_step, record_of, skip_line, with_trace. msimpl.
  destruct (idx mod 20 =? 0); msimpl;
    destruct (commit_info env c) as [info|e]; msimpl;
    cbn [List.map app]; rewrite <- ?app_assoc, ?app_nil_r; try reflexivity.
  destruct st as [a [p r t]]; reflexivity.
Qed.

Lemma walk_run env commits : forall idx data st,
  walk env idx commits data st =
  (Ok (data ++ good_records env commits),
   with_trace st (walk_events env idx commits)).
Proof.
  induction commits as [|c rest IH]; intros idx data st.
  - cbn [walk good_records flat_map walk_events]. unfold ret.
    now rewrite app_nil_r, with_trace_nil.
  - cbn [walk good_records flat_map walk_events].
    unfold bind. rewrite walk_step_run, IH, with_trace_app.
    now rewrite <- !app_assoc.
Qed.

Lemma good_records_dropped env commits :
  (List.length (good_records env commits) + List.length (dropped env commits)
   = List.length commits)%nat.
Proof.
  unfold good_records, dropped, record_of.
  induction commits as [|c rest IH]; simpl; [reflexivity|].
  destruct (commit_info env c); simpl; rewrite ?length_app; simpl; lia.
Qed.

Lemma skip_lines_dropped env commits :
  skip_lines env commits
  = flat_map (skip_line env) (dropped env commits).
Proof.
  unfold skip_lines, dropped.
  induction commits as [|c rest IH]; simpl; [reflexivity|].
  destruct (commit_info env c) eqn:E; simpl.
  - unfold skip_line at 1. now rewrite E.
  - now rewrite IH.
Qed.

Lemma walk_events_prints env commits : forall idx,
  flat_map print_of (walk_events env idx commits) = skip_lines env commits.
Proof.
  unfold skip_lines.
  induction commits as [|c rest IH]; intros idx; simpl; [reflexivity|].
  rewrite !flat_map_app, IH.
  replace (flat_map print_of (if idx mod 20 =? 0 then [Sleep] else []))
    with (@nil line) by (destruct (idx mod 20 =? 0); reflexivity).
  simpl. f_equal.
  destruct (skip_line env c) as [|l [|l' ls]] eqn:E; try reflexivity.
  unfold skip_line in E. destruct (commit_info env c); discriminate.
Qed.

(** ** Extraction *)

Lemma getitem_commit_time d data :
  getitem (DataFrame_of (d :: data)) (py "commit_time")
  = Ok (ColTime (time_column (d :: data))).
Proof. reflexivity. Qed.

Lemma sort_values_DataFrame_of env d data :
  sort_values (quicksort_ties env) (DataFrame_of (d :: data)) (py "commit_time")
  = Ok (df_take (DataFrame_of (d :: data)) (time_order env (d :: data))).
Proof. unfold sort_values. rewrite getitem_commit_time. reflexivity. Qed.

Lemma sort_values_empty ties :
  sort_values ties (DataFrame_of []) (py "commit_time")
  = Raise (KeyError (py "commit_time")).
Proof. reflexivity. Qed.

Lemma extract_commit_data_run env st r l :
  repo (self st) = Some r -> log r = Ok l ->
  let a := self st in
  let w := world st in
  let commits := firstn MAX_COUNT l in
  let data := good_records env commits in
  let walked := w_trace w ++ Echo MsgExtracting :: walk_events env 0 commits in
  extract_commit_data env st =
  match data with
  | [] =>
      (Raise (KeyError (py "commit_time")),
       mkState (mkAnalyzer (repo_url a) (local_repo_path a) (repo a)
                           (Some (mkDataFrame [] [])))
               (mkWorld (w_paths w) (w_repos w) walked))
  | _ :: _ =>
      (Ok tt,
       mkState (mkAnalyzer (repo_url a) (local_repo_path a) (repo a)
                           (Some (extracted_table env data)))
               (mkWorld (CSV_PATH :: makedirs_paths (w_paths w)) (w_repos w)
                  (walked ++ makedirs_events (w_paths w)
                          ++ [ToCsv CSV_PATH (extracted_table env data);
                              Echo (MsgExtracted (nrows (extracted_table env data)))])))
  end.
Proof.
  intros Hr Hl a w commits data walked.
  unfold extract_commit_data. msimpl. rewrite Hr. msimpl.
  unfold iter_commits. rewrite Hl. cbn [rbind]. msimpl.
  rewrite walk_run. cbn [app]. fold commits. fold data.
  unfold with_trace. msimpl.
  destruct data as [|d data'].
  - rewrite sort_values_empty. msimpl. subst walked a w.
    rewrite <- !app_assoc. reflexivity.
  - rewrite sort_values_DataFrame_of. msimpl.
    fold (extracted_table env (d :: data')).
    unfold makedirs_paths, makedirs_events. subst walked a w.
    destruct (mem (py "data") (w_paths (world st))); msimpl;
      rewrite <- !app_assoc; reflexivity.
Qed.

Lemma good_records_In env commits info :
  In info (good_records env commits) <->
  exists c, In c commits /\ commit_info env c = Ok info.
Proof.
  unfold good_records. rewrite in_flat_map. unfold record_of. split.
  - intros (c & Hc & Hin). exists c. split; [exact Hc|].
    destruct (commit_info env c); simpl in Hin; [|contradiction].
    destruct Hin as [->|[]]. reflexivity.
  - intros (c & Hc & E). exists c. split; [exact Hc|]. rewrite E. now left.
Qed.

Lemma dropped_In env commits c :
  In c (dropped env commits) <->
  In c commits /\ exists e, commit_info env c = Raise e.
Proof.
  unfold dropped. rewrite filter_In. split; intros [Hc H]; split; auto.
  - destruct (commit_info env c) as [|e]; [discriminate | eauto].
  - destruct H as [e ->]. reflexivity.
Qed.

Lemma nrows_sorted_frame env data :
  nrows (df_take (DataFrame_of data) (time_order env data))
  = List.length data.
Proof.
  unfold nrows, df_take. cbn [df_index].
  now rewrite take_length, time_order_length.
Qed.

Lemma df_index_extracted_table env data :
  df_index (extracted_table env data) = RangeIndex (List.length data).
Proof.
  unfold extracted_table, reset_index_drop. cbn [df_index].
  now rewrite nrows_sorted_frame.
Qed.

Lemma nrows_extracted_table env data :
  nrows (extracted_table env data) = List.length data.
Proof.
  unfold nrows. rewrite df_index_extracted_table.
  unfold RangeIndex. now rewrite length_map, length_seq.
Qed.

Lemma getitem_extracted_time env d data :
  getitem (extracted_table env (d :: data)) (py "commit_time")
  = Ok (ColTime (take 0 (time_column (d :: data))
                      (time_order env (d :: data)))).
Proof. reflexivity. Qed.

Lemma skip_line_truncated env c l :
  In l (skip_line env c) ->
  exists sha reason, l = MsgSkip sha reason /\
    sha = slice_to 8 (hexsha c) /\ (List.length reason <= 50)%nat /\
    exists e, commit_info env c = Raise e /\ reason = slice_to 50 (exn_str e).
Proof.
  unfold skip_line. destruct (commit_info env c) as [|e]; cbn [In]; [tauto|].
  intros [<-|[]]. eexists _, _. split; [reflexivity|]. split; [reflexivity|].
  split; [apply firstn_le_length|]. eauto.
Qed.

(** C1 (defect in the code).  On a log whose only commit is skipped, and on
    an empty log, [extract_commit_data] raises [KeyError] on the sort key
    and leaves a frame without columns, although the walk itself succeeded
    and the skip was reported. *)
Theorem extract_commit_data_all_skipped :
  let env := CloneSamples.env_public in
  let run r := extract_commit_data env (Samples.start r) in
  fst (run LogSamples.bad_repo) = Raise (KeyError (py "commit_time")) /\
  commits_df (self (snd (run LogSamples.bad_repo))) = Some (mkDataFrame [] []) /\
  w_trace (world (snd (run LogSamples.bad_repo)))
  = [Echo MsgExtracting; Sleep;
     Echo (MsgSkip (py "bbbbbbbb") (py "Cmd('git') failed due to: exit code(128)"))] /\
  fst (run LogSamples.empty_repo) = Raise (KeyError (py "commit_time")).
Proof. cbv zeta. repeat split; vm_compute; reflexivity. Qed.

(** The extraction raises exactly when the log cannot be listed or no
    record could be built. *)
Lemma extract_commit_data_result env st r :
  repo (self st) = Some r ->
  fst (extract_commit_data env st) =
  match log r with
  | Raise e => Raise e
  | Ok l =>
      match good_records env (firstn MAX_COUNT l) with
      | [] => Raise (KeyError (py "commit_time"))
      | _ :: _ => Ok tt
      end
  end.
Proof.
  intros Hr. destruct (log r) as [l|e] eqn:Hl.
  - rewrite (extract_commit_data_run env st r l Hr Hl).
    now destruct (good_records env (firstn MAX_COUNT l)).
  - unfold extract_commit_data. msimpl. rewrite Hr. msimpl.
    unfold iter_commits. rewrite Hl. reflexivity.
Qed.

Lemma extract_commit_data_no_repo env st :
  repo (self st) = None ->
  fst (extract_commit_data env st)
  = Raise (AttributeError
             (py "'NoneType' object has no attribute 'iter_commits'")).
Proof.
  intros Hr. unfold extract_commit_data. msimpl. rewrite Hr. reflexivity.
Qed.

Lemma files_written_app l1 l2 :
  files_written (l1 ++ l2) = files_written l1 ++ files_written l2.
Proof. apply flat_map_app. Qed.

Lemma files_written_walk_events env commits : forall idx,
  files_written (walk_events env idx commits) = [].
Proof.
  induction commits as [|c commits IH]; intros idx; [reflexivity|].
  cbn [walk_events]. rewrite !files_written_app, IH.
  assert (H : files_written (List.map Echo (skip_line env c)) = [])
    by (unfold skip_line; destruct (commit_info env c); reflexivity).
  rewrite H. destruct (idx mod 20 =? 0); reflexivity.
Qed.

Lemma all_dropped env commits :
  good_records env commits = [] -> dropped env commits = commits.
Proof.
  unfold good_records, dropped, record_of.
  induction commits as [|c rest IH]; simpl; [reflexivity|].
  destruct (commit_info env c); simpl; [discriminate|].
  intros H. now rewrite IH.
Qed.

(** C5 (defect in the code, the one of C1).  The walk never raises: a commit
    whose record cannot be built is left out, reported by one line with the
    reason cut to 50 characters, and the walk goes on.  The records kept are
    those of the readable commits.  When at least one record is kept,
    extraction returns a table that has one row less per dropped commit, and
    no other row.  When every commit of the walk is dropped, no record is
    left and extraction raises [KeyError] on the sort key after the walk: it
    leaves a frame without columns and writes no file. *)
Theorem walk_skips_failed_commits env commits idx data st :
  let res := walk env idx commits data st in
  let events := walk_events env idx commits in
  fst res = Ok (data ++ good_records env commits) /\
  w_trace (world (snd res)) = w_trace (world st) ++ events /\
  flat_map print_of events = flat_map (skip_line env) (dropped env commits) /\
  (forall c l, In c commits -> In l (skip_line env c) ->
     exists reason e, l = MsgSkip (slice_to 8 (hexsha c)) reason /\
       commit_info env c = Raise e /\ reason = slice_to 50 (exn_str e) /\
       (List.length reason <= 50)%nat) /\
  (forall info, In info (good_records env commits) <->
     exists c, In c commits /\ commit_info env c = Ok info) /\
  (List.length (good_records env commits) + List.length (dropped env commits)
   = List.length commits)%nat /\
  (forall r l, repo (self st) = Some r -> log r = Ok l ->
     let walked := firstn MAX_COUNT l in
     let out := extract_commit_data env st in
     (good_records env walked <> [] ->
      fst out = Ok tt /\
      exists df indexer,
        commits_df (self (snd out)) = Some df /\
        Permutation indexer (seq 0 (List.length (good_records env walked))) /\
        df = reset_index_drop
               (df_take (DataFrame_of (good_records env walked)) indexer) /\
        (nrows df + List.length (dropped env walked) = List.length walked)%nat) /\
     (good_records env walked = [] ->
      dropped env walked = walked /\
      fst out = Raise (KeyError (py "commit_time")) /\
      commits_df (self (snd out)) = Some (mkDataFrame [] []) /\
      files_written (w_trace (world (snd out)))
      = files_written (w_trace (world st)))).
Proof.
  intros res events. subst res events. rewrite walk_run. cbn [fst snd].
  split; [reflexivity|]. split; [reflexivity|].
  split; [rewrite walk_events_prints; apply skip_lines_dropped|].
  split.
  { intros c l _ Hl. apply skip_line_truncated in Hl.
    destruct Hl as (sha & reason & -> & -> & Hlen & e & He & Hr).
    exists reason, e. auto. }
  split; [intros info; apply good_records_In|].
  split; [apply good_records_dropped|].
  intros r l Hr Hl. cbv zeta.
  rewrite (extract_commit_data_run env st r l Hr Hl). cbv zeta.
  set (walked := firstn MAX_COUNT l).
  destruct (good_records env walked) as [|d data'] eqn:E.
  - split; [congruence|]. intros _. cbn [fst snd self commits_df world w_trace].
    split; [apply all_dropped; exact E|].
    split; [reflexivity|]. split; [reflexivity|].
    rewrite files_written_app. cbn [files_written flat_map file_of app].
    fold (files_written (walk_events env 0 walked)).
    rewrite files_written_walk_events. apply app_nil_r.
  - split; [|discriminate]. intros _.
    cbn [fst snd self commits_df]. split; [reflexivity|].
    exists (extracted_table env (d :: data')), (time_order env (d :: data')).
    split; [reflexivity|]. split; [apply time_order_perm|].
    split; [reflexivity|].
    rewrite nrows_extracted_table, <- E. apply good_records_dropped.
Qed.

Lemma walk_skips_failed_commits_witness :
  let env := CloneSamples.env_public in
  (let st := Samples.start LogSamples.mixed_repo in
   fst (extract_commit_data env st) = Ok tt /\
   exists df,
     commits_df (self (snd (extract_commit_data env st))) = Some df /\
     (nrows df + 1 = 3)%nat) /\
  (let st := Samples.start LogSamples.bad_repo in
   dropped env [LogSamples.c_bad] = [LogSamples.c_bad] /\
   fst (extract_commit_data env st) = Raise (KeyError (py "commit_time")) /\
   commits_df (self (snd (extract_commit_data env st)))
   = Some (mkDataFrame [] [])).
Proof.
  cbv zeta. split.
  - destruct (walk_skips_failed_commits CloneSamples.env_public
                [LogSamples.c_new; LogSamples.c_bad; LogSamples.c_old] 0 []
                (Samples.start LogSamples.mixed_repo))
      as (_ & _ & _ & _ & _ & _ & H).
    destruct (H LogSamples.mixed_repo _ eq_refl eq_refl) as [Hgood _].
    destruct Hgood as (Hok & df & idx & Hdf & _ & _ & Hn); [discriminate|].
    split; [exact Hok|]. exists df. split; [exact Hdf | exact Hn].
  - destruct (walk_skips_failed_commits CloneSamples.env_public
                [LogSamples.c_bad] 0 [] (Samples.start LogSamples.bad_repo))
      as (_ & _ & _ & _ & _ & _ & H).
    destruct (H LogSamples.bad_repo _ eq_refl eq_refl) as [_ Hbad].
    destruct (Hbad eq_refl) as (Hd & Hraise & Hdf & _).
    split; [exact Hd|]. split; [exact Hraise | exact Hdf].
Defined.

(** C6.  A table that extraction produces has at most [MAX_COUNT] = 800
    rows, its [commit_time] column is sorted in non-decreasing order, and its
    index is 0, 1, ..., n-1. *)
Theorem extracted_table_invariants env st st' :
  extract_commit_data env st = (Ok tt, st') ->
  exists df ts,
    commits_df (self st') = Some df /\
    (nrows df <= MAX_COUNT)%nat /\ MAX_COUNT = 800%nat /\
    getitem df (py "commit_time") = Ok (ColTime ts) /\
    List.length ts = nrows df /\
    StronglySorted Z.le ts /\
    df_index df = RangeIndex (nrows df).
Proof.
  intros Hrun.
  destruct (repo (self st)) as [r|] eqn:Hr.
  2:{ pose proof (extract_commit_data_no_repo env st Hr) as H.
      rewrite Hrun in H. discriminate. }
  destruct (log r) as [l|e] eqn:Hl.
  2:{ pose proof (extract_commit_data_result env st r Hr) as H.
      rewrite Hl, Hrun in H. discriminate. }
  rewrite (extract_commit_data_run env st r l Hr Hl) in Hrun.
  destruct (good_records env (firstn MAX_COUNT l)) as [|d data'] eqn:E;
    [discriminate|].
  injection Hrun as <-. cbn [self commits_df].
  exists (extracted_table env (d :: data')),
         (take 0 (time_column (d :: data'))
               (time_order env (d :: data'))).
  split; [reflexivity|]. rewrite nrows_extracted_table.
  split.
  { rewrite <- E. pose proof (good_records_dropped env (firstn MAX_COUNT l)).
    pose proof (firstn_le_length MAX_COUNT l). lia. }
  split; [reflexivity|].
  split; [apply getitem_extracted_time|].
  split.
  { now rewrite take_length, time_order_length. }
  split; [apply time_order_sorted|].
  apply df_index_extracted_table.
Qed.

Lemma extracted_table_invariants_witness :
  let run := extract_commit_data CloneSamples.env_public
               (Samples.start LogSamples.mixed_repo) in
  run = (Ok tt, snd run) /\
  exists df ts,
    commits_df (self (snd run)) = Some df /\
    (nrows df <= 800)%nat /\
    getitem df (py "commit_time") = Ok (ColTime ts) /\
    StronglySorted Z.le ts /\
    df_index df = RangeIndex (nrows df).
Proof.
  cbv zeta.
  assert (E : extract_commit_data CloneSamples.env_public
                (Samples.start LogSamples.mixed_repo)
              = (Ok tt, snd (extract_commit_data CloneSamples.env_public
                               (Samples.start LogSamples.mixed_repo))))
    by (vm_compute; reflexivity).
  split; [exact E|].
  destruct (extracted_table_invariants _ _ _ E)
    as (df & ts & Hdf & Hn & _ & Hts & _ & Hsorted & Hidx).
  exists df, ts. auto.
Defined.

(** ** Columns of a frame *)

Lemma str_eqb_spec a b : reflect (a = b) (str_eqb a b).
Proof.
  destruct (str_eqb a b) eqn:E; constructor.
  - now apply str_eqb_eq.
  - intros H. apply str_eqb_eq in H. congruence.
Qed.

Lemma dict_get_set_assoc cols k c k' :
  dict_get (set_assoc cols k c) k'
  = if str_eqb k k' then Ok c else dict_get cols k'.
Proof.
  induction cols as [|[k0 c0] cols IH]; cbn [set_assoc dict_get].
  - reflexivity.
  - destruct (str_eqb_spec k0 k) as [->|Hne]; cbn [dict_get].
    + destruct (str_eqb k k'); reflexivity.
    + rewrite IH.
      destruct (str_eqb_spec k0 k') as [->|Hne']; [|reflexivity].
      destruct (str_eqb_spec k k'); [congruence | reflexivity].
Qed.

Lemma getitem_setitem df k c k' :
  getitem (setitem df k c) k' = if str_eqb k k' then Ok c else getitem df k'.
Proof. apply dict_get_set_assoc. Qed.

Lemma getitem_setitem_other df k c k' :
  k' <> k -> getitem (setitem df k c) k' = getitem df k'.
Proof.
  intros H. rewrite getitem_setitem.
  destruct (str_eqb_spec k k'); [congruence | reflexivity].
Qed.

Lemma set_assoc_new cols k c :
  mem k (List.map fst cols) = false -> set_assoc cols k c = cols ++ [(k, c)].
Proof.
  induction cols as [|[k0 c0] cols IH]; cbn [set_assoc List.map mem fst app];
    [reflexivity|].
  intros H. apply orb_false_iff in H. destruct H as [H1 H2].
  destruct (str_eqb_spec k0 k) as [->|Hne].
  - rewrite str_eqb_refl in H1. discriminate.
  - now rewrite IH.
Qed.

Lemma column_names_setitem_new df k c :
  mem k (column_names df) = false ->
  column_names (setitem df k c) = column_names df ++ [k].
Proof.
  intros H. unfold column_names, setitem. cbn [df_columns].
  rewrite set_assoc_new by exact H. now rewrite map_app.
Qed.

(** ** What the aggregations leave of the analyzer *)

Lemma self_eta (a : Analyzer) :
  mkAnalyzer (repo_url a) (local_repo_path a) (repo a) (commits_df a) = a.
Proof. now destruct a. Qed.

Lemma contributor_self env st :
  self (snd (analyze_contributor_distribution env st)) = self st.
Proof.
  unfold analyze_contributor_distribution. msimpl.
  destruct (commits_df (self st)); msimpl; [|reflexivity].
  destruct (getitem _ _); msimpl; [|reflexivity].
  destruct (head _ _); msimpl; reflexivity.
Qed.

Lemma wordcloud_self env st :
  self (snd (generate_commit_message_wordcloud env st)) = self st.
Proof.
  unfold generate_commit_message_wordcloud. msimpl.
  destruct (commits_df (self st)); msimpl; [|reflexivity].
  destruct (getitem _ _); msimpl; [|reflexivity].
  destruct (join_messages _); msimpl; [|reflexivity].
  destruct (wordcloud_generate env _); msimpl; reflexivity.
Qed.

Lemma trend_self env freq st :
  self (snd (analyze_commit_trend env freq st)) =
  match commits_df (self st) with
  | Some df =>
      match derived_date df with
      | Ok d => with_frame (self st) (setitem df (py "commit_date") d)
      | Raise _ => self st
      end
  | None => self st
  end.
Proof.
  unfold analyze_commit_trend, derived_date, with_frame. msimpl.
  destruct (commits_df (self st)) as [df|]; msimpl; [|reflexivity].
  destruct (getitem df (py "commit_time")) as [c|]; cbn [rbind]; msimpl;
    [|reflexivity].
  destruct (dt_date c) as [d|]; msimpl; [|reflexivity].
  destruct (Grouper env freq) as [g|]; msimpl; [|reflexivity].
  destruct (getitem _ _) as [c'|]; msimpl; [|reflexivity].
  destruct (time_values c') as [times|]; msimpl; [|reflexivity].
  destruct (g times) as [series|]; msimpl; [|reflexivity].
  destruct (tail 10 series), series; msimpl; try reflexivity;
    destruct (dict_get freq_labels freq); msimpl; reflexivity.
Qed.

Lemma churn_self env st :
  self (snd (analyze_code_churn env st)) =
  match commits_df (self st) with
  | Some df =>
      match derived_year df with
      | Ok y => with_frame (self st) (setitem df (py "commit_year") y)
      | Raise _ => self st
      end
  | None => self st
  end.
Proof.
  unfold analyze_code_churn, derived_year, with_frame. msimpl.
  destruct (commits_df (self st)) as [df|]; msimpl; [|reflexivity].
  destruct (getitem df (py "commit_time")) as [c|]; cbn [rbind]; msimpl;
    [|reflexivity].
  destruct (dt_year c) as [y|]; msimpl; [|reflexivity].
  destruct (groupby_agg_sum2 _ _ _ _) as [churn|]; msimpl; [|reflexivity].
  destruct (getitem churn (py "insertions")) as [i|]; msimpl; [|reflexivity].
  destruct (getitem churn (py "deletions")) as [d|]; msimpl; [|reflexivity].
  destruct (col_sub i d); msimpl; [|reflexivity].
  cbn [df_index]. destruct (df_index (setitem churn _ _)); msimpl; reflexivity.
Qed.

Lemma dt_date_time times : dt_date (ColTime times) = Ok (ColDate (List.map date_of times)).
Proof. reflexivity. Qed.

Lemma dt_year_time times : dt_year (ColTime times) = Ok (ColInt (List.map year_of times)).
Proof. reflexivity. Qed.

(** C2 (amended).  The contributor distribution and the word cloud leave
    the table as it is.  The commit trend and the code churn leave its index
    and all its columns but one as they are: on a table with timestamps the
    trend stores the derived column [commit_date] in the table and the churn
    stores [commit_year], appended when the table has no column of that
    name. *)
Theorem aggregations_keep_canonical_table env st df :
  commits_df (self st) = Some df ->
  commits_df (self (snd (analyze_contributor_distribution env st))) = Some df /\
  commits_df (self (snd (generate_commit_message_wordcloud env st))) = Some df /\
  (forall freq, exists df',
     commits_df (self (snd (analyze_commit_trend env freq st))) = Some df' /\
     df_index df' = df_index df /\
     (forall k, k <> py "commit_date" -> getitem df' k = getitem df k) /\
     (forall times, getitem df (py "commit_time") = Ok (ColTime times) ->
        df' = setitem df (py "commit_date") (ColDate (List.map date_of times)) /\
        (mem (py "commit_date") (column_names df) = false ->
         column_names df' = column_names df ++ [py "commit_date"]))) /\
  (exists df',
     commits_df (self (snd (analyze_code_churn env st))) = Some df' /\
     df_index df' = df_index df /\
     (forall k, k <> py "commit_year" -> getitem df' k = getitem df k) /\
     (forall times, getitem df (py "commit_time") = Ok (ColTime times) ->
        df' = setitem df (py "commit_year") (ColInt (List.map year_of times)) /\
        (mem (py "commit_year") (column_names df) = false ->
         column_names df' = column_names df ++ [py "commit_year"]))).
Proof.
  intros Hdf. split; [now rewrite contributor_self|].
  split; [now rewrite wordcloud_self|]. split.
  - intros freq. rewrite trend_self, Hdf. unfold derived_date.
    destruct (getitem df (py "commit_time")) as [c|e] eqn:Hc; cbn [rbind].
    + destruct c as [v|v|times|v]; cbn [dt_date].
      3:{ exists (setitem df (py "commit_date") (ColDate (List.map date_of times))).
          split; [reflexivity|]. split; [reflexivity|]. split.
          - intros k Hk. now apply getitem_setitem_other.
          - intros times' Ht. injection Ht as <-. split; [reflexivity|].
            apply column_names_setitem_new. }
      all: exists df; repeat split; auto; discriminate.
    + exists df. repeat split; auto; discriminate.
  - rewrite churn_self, Hdf. unfold derived_year.
    destruct (getitem df (py "commit_time")) as [c|e] eqn:Hc; cbn [rbind].
    + destruct c as [v|v|times|v]; cbn [dt_year].
      3:{ exists (setitem df (py "commit_year") (ColInt (List.map year_of times))).
          split; [reflexivity|]. split; [reflexivity|]. split.
          - intros k Hk. now apply getitem_setitem_other.
          - intros times' Ht. injection Ht as <-. split; [reflexivity|].
            apply column_names_setitem_new. }
      all: exists df; repeat split; auto; discriminate.
    + exists df. repeat split; auto; discriminate.
Qed.

Lemma aggregations_keep_canonical_table_witness :
  exists df,
    commits_df (self ExtractedSamples.extracted) = Some df /\
    commits_df (self (snd (analyze_contributor_distribution
                             CloneSamples.env_public ExtractedSamples.extracted)))
    = Some df /\
    exists df',
      commits_df (self (snd (analyze_code_churn CloneSamples.env_public
                               ExtractedSamples.extracted))) = Some df' /\
      df_index df' = df_index df.
Proof.
  destruct (commits_df (self ExtractedSamples.extracted)) as [df|] eqn:E;
    [|vm_compute in E; discriminate].
  exists df. split; [reflexivity|].
  destruct (aggregations_keep_canonical_table CloneSamples.env_public
              ExtractedSamples.extracted df E) as (H1 & _ & _ & df' & H4 & H5 & _).
  split; [exact H1|]. exists df'. split; assumption.
Defined.

(** C2 (as stated) fails: after the commit trend the extracted table has a
    column more than it had, and after the code churn as well. *)
Lemma aggregations_add_columns :
  let columns st := option_map column_names (commits_df (self st)) in
  columns ExtractedSamples.extracted = Some ExtractedSamples.canonical_columns /\
  columns (snd (analyze_commit_trend CloneSamples.env_public (py "ME") ExtractedSamples.extracted))
  = Some (ExtractedSamples.canonical_columns ++ [py "commit_date"]) /\
  columns (snd (analyze_code_churn CloneSamples.env_public
                  ExtractedSamples.extracted))
  = Some (ExtractedSamples.canonical_columns ++ [py "commit_year"]).
Proof. cbv zeta. repeat split; vm_compute; reflexivity. Qed.

(** ** Grouping and summing *)

Lemma dedup_In x l : In x (dedup l) <-> In x l.
Proof.
  induction l as [|y l IH]; simpl; [tauto|].
  destruct (existsb (Z.eqb y) l) eqn:E.
  - rewrite IH. split; [auto|]. intros [<-|H]; [|exact H].
    apply existsb_exists in E. destruct E as (z & Hz & Hyz).
    apply Z.eqb_eq in Hyz. now subst z.
  - simpl. now rewrite IH.
Qed.

Lemma dedup_NoDup l : NoDup (dedup l).
Proof.
  induction l as [|y l IH]; simpl; [constructor|].
  destruct (existsb (Z.eqb y) l) eqn:E; [exact IH|].
  constructor; [|exact IH]. rewrite dedup_In. intros Hin.
  assert (existsb (Z.eqb y) l = true); [|congruence].
  apply existsb_exists. exists y. split; [exact Hin | apply Z.eqb_refl].
Qed.

Lemma sort_Zleb_perm l : Permutation (sort Z.leb l) l.
Proof. exact (sort_perm (fun x => x) l). Qed.

Lemma sort_Zleb_sorted l : StronglySorted Z.le (sort Z.leb l).
Proof.
  pose proof (sort_keys_sorted (fun x => x) l) as H.
  rewrite map_id in H. exact H.
Qed.

Lemma group_keys_In x keys : In x (group_keys keys) <-> In x keys.
Proof.
  unfold group_keys. rewrite <- (dedup_In x keys). split; intros H.
  - eapply Permutation_in; [apply sort_Zleb_perm | exact H].
  - eapply Permutation_in; [apply Permutation_sym, sort_Zleb_perm | exact H].
Qed.

Lemma group_keys_NoDup keys : NoDup (group_keys keys).
Proof.
  unfold group_keys.
  eapply Permutation_NoDup; [apply Permutation_sym, sort_Zleb_perm|].
  apply dedup_NoDup.
Qed.

Lemma sorted_NoDup_lt l :
  StronglySorted Z.le l -> NoDup l -> StronglySorted Z.lt l.
Proof.
  induction 1 as [|x l Hs IH Hall]; intros Hnd; constructor.
  - apply IH. now inversion Hnd.
  - inversion Hnd as [|? ? Hnotin _]; subst.
    rewrite Forall_forall in *. intros y Hy.
    specialize (Hall y Hy). assert (x <> y) by congruence. lia.
Qed.

Lemma group_keys_ascending keys : StronglySorted Z.lt (group_keys keys).
Proof.
  apply sorted_NoDup_lt; [apply sort_Zleb_sorted | apply group_keys_NoDup].
Qed.

Lemma index_of_In x l :
  In x l -> (index_of x l < List.length l)%nat /\ nth_error l (index_of x l) = Some x.
Proof.
  induction l as [|y l IH]; simpl; [tauto|].
  intros H. destruct (Z.eqb_spec y x) as [->|Hne].
  - split; [lia | reflexivity].
  - destruct H as [H|H]; [congruence|].
    destruct (IH H). split; [lia | assumption].
Qed.

Lemma index_of_eq x y l :
  In x l -> In y l -> index_of x l = index_of y l -> x = y.
Proof.
  intros Hx Hy E. destruct (index_of_In x l Hx) as [_ H1].
  destruct (index_of_In y l Hy) as [_ H2]. rewrite E in H1. congruence.
Qed.

Lemma add_at_length i v out : List.length (add_at i v out) = List.length out.
Proof.
  revert i; induction out as [|x out IH]; intros [|i]; simpl; auto.
Qed.

(** ** Sums in [int64] *)

Lemma wrap64_int64 z : is_int64 (wrap64 z).
Proof.
  unfold is_int64, INT64_MIN, INT64_MAX, wrap64.
  pose proof (Z.mod_pos_bound (z + 9223372036854775808) 18446744073709551616).
  lia.
Qed.

Lemma wrap64_exact z : is_int64 z -> wrap64 z = z.
Proof.
  unfold is_int64, INT64_MIN, INT64_MAX, wrap64. intros H.
  rewrite Z.mod_small; lia.
Qed.

Lemma wrap64_add_l a b : wrap64 (wrap64 a + b) = wrap64 (a + b).
Proof.
  unfold wrap64.
  replace ((a + 9223372036854775808) mod 18446744073709551616
           - 9223372036854775808 + b + 9223372036854775808)
    with ((a + 9223372036854775808) mod 18446744073709551616 + b) by lia.
  rewrite Zplus_mod_idemp_l. do 2 f_equal. lia.
Qed.

Lemma wrap64_sub a b : wrap64 (wrap64 a - wrap64 b) = wrap64 (a - b).
Proof.
  unfold Z.sub at 1. rewrite wrap64_add_l.
  unfold wrap64.
  replace (a + - ((b + 9223372036854775808) mod 18446744073709551616
                  - 9223372036854775808) + 9223372036854775808)
    with (a + 18446744073709551616
          - (b + 9223372036854775808) mod 18446744073709551616) by lia.
  rewrite Zminus_mod_idemp_r. f_equal.
  replace (a + 18446744073709551616 - (b + 9223372036854775808))
    with (a - b + 9223372036854775808) by lia.
  reflexivity.
Qed.

Lemma add_at_nth i v out j :
  (i < List.length out)%nat ->
  nth j (add_at i v out) 0
  = if Nat.eqb i j then wrap64 (nth j out 0 + v) else nth j out 0.
Proof.
  revert i j; induction out as [|x out IH]; intros i j Hi; simpl in Hi; [lia|].
  destruct i as [|i], j as [|j]; simpl; try reflexivity.
  apply IH. lia.
Qed.

Lemma add_at_int64 i v out :
  Forall is_int64 out -> Forall is_int64 (add_at i v out).
Proof.
  intros H. revert i; induction H as [|x out Hx Hout IH]; intros [|i]; simpl;
    constructor; auto. apply wrap64_int64.
Qed.

Lemma group_sum_length cs : forall values out,
  List.length (group_sum cs values out) = List.length out.
Proof.
  induction cs as [|c cs IH]; intros [|v values] out; simpl; auto.
  now rewrite IH, add_at_length.
Qed.

Lemma nth_int64 j out : Forall is_int64 out -> is_int64 (nth j out 0).
Proof.
  intros H. destruct (Nat.lt_ge_cases j (List.length out)) as [Hj|Hj].
  - rewrite Forall_forall in H. apply H. now apply nth_In.
  - rewrite nth_overflow by exact Hj. unfold is_int64, INT64_MIN, INT64_MAX. lia.
Qed.

Lemma group_sum_nth cs : forall values out j,
  Forall (fun c => (c < List.length out)%nat) cs ->
  Forall is_int64 out ->
  nth j (group_sum cs values out) 0
  = wrap64 (nth j out 0 + sum_code j cs values).
Proof.
  unfold sum_code.
  induction cs as [|c cs IH]; intros [|v values] out j Hall Hout; simpl;
    rewrite ?Z.add_0_r; try (symmetry; apply wrap64_exact, nth_int64, Hout).
  inversion Hall as [|? ? Hc Hcs]; subst.
  rewrite IH by (rewrite ?add_at_length; auto using add_at_int64).
  rewrite add_at_nth by exact Hc.
  destruct (Nat.eqb c j); simpl; [|reflexivity].
  rewrite wrap64_add_l. f_equal. lia.
Qed.

Lemma sum_code_codes gk j : forall ks values,
  Forall (fun k => In k gk) ks -> (j < List.length gk)%nat -> NoDup gk ->
  sum_code j (List.map (fun k => index_of k gk) ks) values
  = sum_for (nth j gk 0) ks values.
Proof.
  unfold sum_code, sum_for.
  induction ks as [|k ks IH]; intros [|v values] Hall Hj Hnd;
    cbn [List.map combine filter fst snd fold_right]; auto.
  inversion Hall as [|? ? Hk Hks]; subst.
  assert (E : Nat.eqb (index_of k gk) j = (k =? nth j gk 0)).
  { destruct (Nat.eqb_spec (index_of k gk) j) as [<-|Hne].
    - destruct (index_of_In k gk Hk) as [_ Hn].
      rewrite (nth_error_nth _ _ 0 Hn). now rewrite Z.eqb_refl.
    - destruct (Z.eqb_spec k (nth j gk 0)) as [->|]; [|reflexivity].
      exfalso. apply Hne.
      pose proof (index_of_In _ gk (nth_In gk 0 Hj)) as [Hlt Hn].
      apply (proj1 (NoDup_nth_error gk) Hnd _ _ Hlt).
      rewrite Hn. symmetry. now apply nth_error_nth'. }
  rewrite E. destruct (k =? nth j gk 0);
    cbn [List.map fold_right snd]; now rewrite (IH values Hks Hj Hnd).
Qed.

Lemma agg_sum_length keys values :
  List.length (agg_sum keys values) = List.length (group_keys keys).
Proof. unfold agg_sum. now rewrite group_sum_length, repeat_length. Qed.

Lemma agg_sum_nth keys values j :
  (j < List.length (group_keys keys))%nat ->
  nth j (agg_sum keys values) 0
  = wrap64 (sum_for (nth j (group_keys keys) 0) keys values).
Proof.
  intros Hj. unfold agg_sum, codes.
  rewrite group_sum_nth.
  - rewrite nth_repeat. rewrite sum_code_codes; auto.
    + apply Forall_forall. intros k Hk. now apply group_keys_In.
    + apply group_keys_NoDup.
  - rewrite repeat_length. apply Forall_forall. intros c Hc.
    apply in_map_iff in Hc. destruct Hc as (k & <- & Hk).
    apply index_of_In. now apply group_keys_In.
  - apply Forall_forall. intros x Hx. apply repeat_spec in Hx. subst x.
    unfold is_int64, INT64_MIN, INT64_MAX. lia.
Qed.

Lemma agg_sum_for keys values y :
  In y keys ->
  nth_error (agg_sum keys values) (index_of y (group_keys keys))
  = Some (wrap64 (sum_for y keys values)).
Proof.
  intros Hy. apply group_keys_In in Hy.
  destruct (index_of_In y _ Hy) as [Hlt Hn].
  rewrite (nth_error_nth' _ 0) by (now rewrite agg_sum_length).
  rewrite agg_sum_nth by exact Hlt.
  now rewrite (nth_error_nth _ _ 0 Hn).
Qed.

Lemma zip_sub_nth x y i a b :
  nth_error x i = Some a -> nth_error y i = Some b ->
  nth_error (zip_sub x y) i = Some (wrap64 (a - b)).
Proof.
  revert y i; induction x as [|u x IH]; intros [|v y] [|i]; simpl;
    try discriminate.
  - now intros [= ->] [= ->].
  - apply IH.
Qed.

(** ** Code churn *)

Ltac neq_str := let H := fresh in intros H; vm_compute in H; discriminate.

Lemma group_keys_nil keys : group_keys keys = [] <-> keys = [].
Proof.
  split; [|now intros ->].
  destruct keys as [|k keys]; [reflexivity|]. intros E.
  assert (H : In k (group_keys (k :: keys))) by (apply group_keys_In; now left).
  rewrite E in H. destruct H.
Qed.

Lemma analyze_code_churn_run env st df times ins dels :
  commits_df (self st) = Some df ->
  getitem df (py "commit_time") = Ok (ColTime times) ->
  getitem df (py "insertions") = Ok (ColInt ins) ->
  getitem df (py "deletions") = Ok (ColInt dels) ->
  let a := with_frame (self st)
             (setitem df (py "commit_year") (ColInt (List.map year_of times))) in
  analyze_code_churn env st =
  match times with
  | [] =>
      (Raise (IndexError (library_message env EmptyBarPlot)),
       mkState a
         (mkWorld (w_paths (world st)) (w_repos (world st))
            (w_trace (world st)
             ++ [ Echo (MsgHeading Churn);
                  Echo (MsgChurn (code_churn_frame times ins dels));
                  Figure ])))
  | _ :: _ =>
      (Ok tt,
       mkState a
         (mkWorld (CHURN_PATH :: w_paths (world st)) (w_repos (world st))
            (w_trace (world st) ++ churn_events times ins dels)))
  end.
Proof.
  intros Hdf Ht Hi Hd a. subst a.
  unfold analyze_code_churn. msimpl. rewrite Hdf. msimpl.
  rewrite Ht. cbn [dt_year]. msimpl.
  unfold groupby_agg_sum2.
  rewrite getitem_setitem, str_eqb_refl. cbn [rbind int_values].
  rewrite !getitem_setitem_other by neq_str.
  rewrite Hi, Hd. cbn [rbind int_values]. msimpl.
  change (getitem (mkDataFrame ?i ?c) (py "insertions"))
    with (getitem (mkDataFrame i c) (py "insertions")).
  unfold getitem at 1. cbn [df_columns dict_get].
  change (str_eqb (py "insertions") (py "insertions")) with true. cbv iota.
  msimpl. unfold getitem at 1. cbn [df_columns dict_get].
  change (str_eqb (py "insertions") (py "deletions")) with false.
  change (str_eqb (py "deletions") (py "deletions")) with true. cbv iota.
  msimpl. cbn [col_sub rbind int_values]. msimpl.
  cbn [df_index setitem].
  unfold with_frame, churn_events, code_churn_frame, CHURN_PATH.
  destruct (group_keys (List.map year_of times)) as [|y ys] eqn:E.
  - apply (proj1 (group_keys_nil _)) in E. apply map_eq_nil in E. subst times.
    msimpl. rewrite <- !app_assoc. reflexivity.
  - destruct times as [|t times']; [discriminate|].
    msimpl. rewrite <- !app_assoc. rewrite <- E. reflexivity.
Qed.

(** C8 (amended).  On a table whose counts are [int64] values, the code
    churn groups the rows by the calendar year of [commit_time]; the frame
    it prints is indexed by the years present, in ascending order.  The
    columns are summed in [int64]: for each year the
    frame holds the sum of the insertions of that year, the sum of its
    deletions, and their difference as [net_change], each wrapped around
    into the range of [int64]; they are the sums and the difference
    themselves whenever these lie in that range.  On a table with at least
    one row the operation returns; on a table without rows the frame is
    printed and the chart then fails with [IndexError], no file written. *)
Theorem code_churn_by_year env st df times ins dels :
  commits_df (self st) = Some df ->
  getitem df (py "commit_time") = Ok (ColTime times) ->
  getitem df (py "insertions") = Ok (ColInt ins) ->
  getitem df (py "deletions") = Ok (ColInt dels) ->
  Forall is_int64 ins -> Forall is_int64 dels ->
  let churn := code_churn_frame times ins dels in
  let years := List.map year_of times in
  let res := analyze_code_churn env st in
  In (Echo (MsgChurn churn)) (w_trace (world (snd res))) /\
  (times <> [] ->
   fst res = Ok tt /\
   w_trace (world (snd res)) = w_trace (world st) ++ churn_events times ins dels) /\
  (times = [] ->
   (exists e, fst res = Raise e /\ exn_type e = py "IndexError") /\
   files_written (w_trace (world (snd res))) = files_written (w_trace (world st))) /\
  StronglySorted Z.lt (df_index churn) /\
  (forall y, In y (df_index churn) <-> In y years) /\
  exists ins_sum del_sum net,
    getitem churn (py "insertions") = Ok (ColInt ins_sum) /\
    getitem churn (py "deletions") = Ok (ColInt del_sum) /\
    getitem churn (py "net_change") = Ok (ColInt net) /\
    forall y, In y years ->
      exists i,
        nth_error (df_index churn) i = Some y /\
        nth_error ins_sum i = Some (wrap64 (sum_for y years ins)) /\
        nth_error del_sum i = Some (wrap64 (sum_for y years dels)) /\
        nth_error net i
        = Some (wrap64 (sum_for y years ins - sum_for y years dels)) /\
        (is_int64 (sum_for y years ins) ->
         is_int64 (sum_for y years dels) ->
         is_int64 (sum_for y years ins - sum_for y years dels) ->
         nth_error ins_sum i = Some (sum_for y years ins) /\
         nth_error del_sum i = Some (sum_for y years dels) /\
         nth_error net i = Some (sum_for y years ins - sum_for y years dels)).
Proof.
  intros Hdf Ht Hi Hd _ _ churn years res. subst res.
  rewrite (analyze_code_churn_run env st df times ins dels Hdf Ht Hi Hd).
  cbv zeta.
  split.
  { destruct times; cbn [fst snd world w_trace]; apply in_or_app; right;
      right; now left. }
  split.
  { intros Hne. destruct times; [congruence|]. now split. }
  split.
  { intros ->. cbn [fst snd world w_trace]. split.
    - eexists. split; reflexivity.
    - rewrite files_written_app. apply app_nil_r. }
  split; [apply group_keys_ascending|].
  split; [intros y; apply group_keys_In|].
  exists (agg_sum years ins), (agg_sum years dels),
         (zip_sub (agg_sum years ins) (agg_sum years dels)).
  split; [reflexivity|]. split; [reflexivity|]. split; [reflexivity|].
  intros y Hy. exists (index_of y (group_keys years)).
  pose proof (agg_sum_for years ins y Hy) as Hins.
  pose proof (agg_sum_for years dels y Hy) as Hdel.
  pose proof (zip_sub_nth _ _ _ _ _ Hins Hdel) as Hnet.
  rewrite wrap64_sub in Hnet.
  split; [apply index_of_In; now apply group_keys_In|].
  split; [exact Hins|]. split; [exact Hdel|]. split; [exact Hnet|].
  intros H1 H2 H3.
  rewrite <- (wrap64_exact _ H1) at 1. rewrite <- (wrap64_exact _ H2) at 1.
  rewrite <- (wrap64_exact _ H3) at 1. auto.
Qed.

Lemma code_churn_by_year_witness :
  let env := CloneSamples.env_public in
  let st := TableSamples.with_table TableSamples.churn_table in
  let churn := code_churn_frame TableSamples.churn_times [10; 20; 3] [5; 5; 40] in
  fst (analyze_code_churn env st) = Ok tt /\
  df_index churn = [2023; 2024] /\
  getitem churn (py "insertions") = Ok (ColInt [30; 3]) /\
  getitem churn (py "deletions") = Ok (ColInt [10; 40]) /\
  getitem churn (py "net_change") = Ok (ColInt [20; -37]) /\
  exists i ins_sum del_sum net,
    getitem churn (py "insertions") = Ok (ColInt ins_sum) /\
    getitem churn (py "deletions") = Ok (ColInt del_sum) /\
    getitem churn (py "net_change") = Ok (ColInt net) /\
    nth_error (df_index churn) i = Some 2023 /\
    nth_error ins_sum i = Some 30 /\
    nth_error del_sum i = Some 10 /\
    nth_error net i = Some 20.
Proof.
  cbv zeta.
  assert (Hi64 : Forall is_int64 [10; 20; 3])
    by (repeat constructor; discriminate).
  assert (Hd64 : Forall is_int64 [5; 5; 40])
    by (repeat constructor; discriminate).
  destruct (code_churn_by_year CloneSamples.env_public
              (TableSamples.with_table TableSamples.churn_table)
              TableSamples.churn_table TableSamples.churn_times [10; 20; 3] [5; 5; 40]
              eq_refl eq_refl eq_refl eq_refl Hi64 Hd64)
    as (_ & Hok & _ & _ & _ & ins_sum & del_sum & net & Hi & Hd & Hn & Hy).
  split; [apply Hok; discriminate|].
  split; [vm_compute; reflexivity|].
  split; [vm_compute; reflexivity|].
  split; [vm_compute; reflexivity|].
  split; [vm_compute; reflexivity|].
  destruct (Hy 2023) as (i & H1 & _ & _ & _ & H5).
  { vm_compute. auto. }
  destruct H5 as (H2 & H3 & H4);
    try (vm_compute; split; discriminate).
  exists i, ins_sum, del_sum, net.
  repeat (split; [assumption|]). exact H4.
Defined.

(** C8 (as stated) fails: two commits of one year that insert 2^62 lines
    each have the sum 2^63, and the frame holds [-2^63] for that year, as
    insertions and as net change. *)
Lemma code_churn_wraps_around :
  let env := CloneSamples.env_public in
  let st := TableSamples.with_table TableSamples.huge_table in
  let ins := [TableSamples.HUGE; TableSamples.HUGE] in
  let years := List.map year_of TableSamples.huge_times in
  let res := analyze_code_churn env st in
  getitem TableSamples.huge_table (py "insertions") = Ok (ColInt ins) /\
  Forall is_int64 ins /\
  years = [2023; 2023] /\
  sum_for 2023 years ins = 9223372036854775808 /\
  fst res = Ok tt /\
  In (Echo (MsgChurn
              (mkDataFrame [2023]
                 [ (py "insertions", ColInt [-9223372036854775808]);
                   (py "deletions", ColInt [0]);
                   (py "net_change", ColInt [-9223372036854775808]) ])))
     (w_trace (world (snd res))).
Proof.
  cbv zeta. split; [reflexivity|].
  split; [repeat constructor; discriminate|].
  split; [vm_compute; reflexivity|].
  split; [vm_compute; reflexivity|].
  split; [vm_compute; reflexivity|].
  vm_compute. right. now left.
Qed.

(** ** Counting values *)

Lemma label_eqb_spec a b : reflect (a = b) (label_eqb a b).
Proof.
  destruct a, b; cbn [label_eqb]; try (constructor; discriminate).
  - destruct (str_eqb_spec s s0); constructor; congruence.
  - destruct (Z.eqb_spec z z0); constructor; congruence.
  - destruct (Z.eqb_spec t t0); constructor; congruence.
  - destruct (Z.eqb_spec d d0); constructor; congruence.
Qed.

Lemma label_eqb_refl a : label_eqb a a = true.
Proof. destruct (label_eqb_spec a a); congruence. Qed.

Lemma count_label_cons a x l :
  count_label a (x :: l) = (if label_eqb a x then 1 else 0) + count_label a l.
Proof.
  unfold count_label. cbn [filter].
  destruct (label_eqb a x); cbn [List.length]; lia.
Qed.

Lemma count_label_nonneg a l : 0 <= count_label a l.
Proof. unfold count_label. lia. Qed.

Lemma bump_head x n tbl l :
  fold_left (fun t k => bump k t) l ((x, n) :: tbl)
  = (x, n + count_label x l)
      :: fold_left (fun t k => bump k t)
                   (filter (fun y => negb (label_eqb x y)) l) tbl.
Proof.
  revert n tbl; induction l as [|y l IH]; intros n tbl.
  - cbn. unfold count_label. cbn. now rewrite Z.add_0_r.
  - cbn [fold_left bump filter]. rewrite count_label_cons.
    destruct (label_eqb x y); cbn [negb].
    + rewrite IH. do 2 f_equal; lia.
    + cbn [fold_left]. rewrite IH. do 2 f_equal; lia.
Qed.

Lemma filter_bump x y tbl :
  filter (other_key x) (bump y tbl)
  = if label_eqb x y then filter (other_key x) tbl
    else bump y (filter (other_key x) tbl).
Proof.
  unfold other_key.
  induction tbl as [|[k n] tbl IH]; cbn [bump filter fst].
  - destruct (label_eqb x y); reflexivity.
  - destruct (label_eqb_spec k y) as [->|Hky]; cbn [filter fst].
    + destruct (label_eqb x y); cbn [negb bump]; [reflexivity|].
      now rewrite label_eqb_refl.
    + rewrite IH. destruct (label_eqb x k) eqn:Exk; cbn [negb]; [reflexivity|].
      destruct (label_eqb x y); [reflexivity|].
      cbn [bump]. destruct (label_eqb_spec k y); [congruence | reflexivity].
Qed.

Lemma value_count_filter x l : forall tbl,
  fold_left (fun t k => bump k t) (filter (fun y => negb (label_eqb x y)) l)
            (filter (other_key x) tbl)
  = filter (other_key x) (fold_left (fun t k => bump k t) l tbl).
Proof.
  induction l as [|y l IH]; intros tbl; [reflexivity|].
  cbn [filter fold_left]. rewrite <- IH, filter_bump.
  destruct (label_eqb x y); reflexivity.
Qed.

Lemma value_count_groups values : value_count values = groups values.
Proof.
  unfold value_count. induction values as [|x l IH]; [reflexivity|].
  cbn [fold_left bump groups]. rewrite bump_head. f_equal.
  rewrite <- IH.
  exact (value_count_filter x l []).
Qed.

Lemma groups_In a n values :
  In (a, n) (groups values) -> n = count_label a values /\ In a values.
Proof.
  induction values as [|x l IH]; cbn [groups In]; [tauto|].
  intros [H|H].
  - injection H as -> <-. rewrite count_label_cons, label_eqb_refl. auto.
  - apply filter_In in H. destruct H as [H Hx]. apply IH in H.
    destruct H as [-> Hin]. unfold other_key in Hx. cbn [fst] in Hx.
    rewrite count_label_cons.
    destruct (label_eqb_spec a x) as [->|Hne].
    + rewrite label_eqb_refl in Hx. discriminate.
    + auto.
Qed.




(** ** Descending stable sort *)

Section SortStable.
Context {A : Type} (key : A -> Z).
Let leb (x y : A) : bool := key x <=? key y.


End SortStable.


Lemma StronglySorted_app_inv {A} (R : A -> A -> Prop) l1 l2 :
  StronglySorted R (l1 ++ l2) ->
  StronglySorted R l1 /\ StronglySorted R l2 /\
  forall x y, In x l1 -> In y l2 -> R x y.
Proof.
  induction l1 as [|a l1 IH]; cbn [app]; intros H.
  - split; [constructor|]. split; [exact H|]. intros x y [].
  - inversion H as [|? ? Hs Hall]; subst.
    destruct (IH Hs) as (H1 & H2 & H12).
    rewrite Forall_forall in Hall.
    split.
    + constructor; [exact H1|]. apply Forall_forall. intros z Hz.
      apply Hall. apply in_or_app. now left.
    + split; [exact H2|]. intros x y [<-|Hx] Hy.
      * apply Hall. apply in_or_app. now right.
      * now apply H12.
Qed.




Lemma sort_values_descending_perm {K} ties (s : Series K) :
  Permutation (sort_values_descending ties s) s.
Proof.
  unfold sort_values_descending. cbv zeta.
  rewrite <- Permutation_rev. rewrite (numpy_sort_perm snd).
  apply Permutation_sym, Permutation_rev.
Qed.



(** ** Contributor distribution *)

Lemma contributor_stats_nil env c :
  contributor_stats env c = [] <-> col_labels c = [].
Proof.
  unfold contributor_stats, head, value_counts. rewrite value_count_groups.
  pose proof (sort_values_descending_perm (quicksort_ties env)
                (groups (col_labels c))) as Hperm.
  split.
  - intros E. destruct (col_labels c) as [|x l]; [reflexivity|].
    cbn [groups] in Hperm.
    destruct (sort_values_descending _ _) as [|p ranking];
      [apply Permutation_nil in Hperm; discriminate | discriminate].
  - intros E. rewrite E in *. cbn [groups] in *.
    apply Permutation_sym, Permutation_nil in Hperm. now rewrite Hperm.
Qed.

Lemma analyze_contributor_distribution_run env st df c :
  commits_df (self st) = Some df ->
  getitem df (py "author_name") = Ok c ->
  analyze_contributor_distribution env st =
  match contributor_stats env c with
  | [] =>
      (Raise (IndexError (library_message env EmptyBarhPlot)),
       mkState (self st)
         (mkWorld (w_paths (world st)) (w_repos (world st))
            (w_trace (world st)
             ++ [ Echo (MsgHeading Contributors);
                  Echo (MsgContributors (contributor_stats env c));
                  Figure ])))
  | _ :: _ =>
      (Ok tt,
       mkState (self st)
         (mkWorld (CONTRIBUTORS_PATH :: w_paths (world st)) (w_repos (world st))
            (w_trace (world st) ++ contributor_events env c)))
  end.
Proof.
  intros Hdf Hc. unfold analyze_contributor_distribution. msimpl.
  rewrite Hdf. msimpl. rewrite Hc. msimpl.
  unfold contributor_events, CONTRIBUTORS_PATH.
  fold (contributor_stats env c).
  destruct (contributor_stats env c) as [|p top]; msimpl;
    rewrite <- !app_assoc; reflexivity.
Qed.

Lemma firstn_prefix {A} n (l : list A) : exists rest, l = firstn n l ++ rest.
Proof. exists (skipn n l). symmetry. apply firstn_skipn. Qed.





(** ** The calendar *)

Lemma month_cases m : 1 <= m <= 12 ->
  m = 1 \/ m = 2 \/ m = 3 \/ m = 4 \/ m = 5 \/ m = 6 \/
  m = 7 \/ m = 8 \/ m = 9 \/ m = 10 \/ m = 11 \/ m = 12.
Proof. lia. Qed.

Ltac months H :=
  destruct (month_cases _ H) as [?|[?|[?|[?|[?|[?|[?|[?|[?|[?|[?|?]]]]]]]]]]];
  subst.

Lemma days_before_year_parts q n100 n4 n1 :
  0 <= n100 <= 3 -> 0 <= n4 <= 24 -> 0 <= n1 <= 3 ->
  _days_before_year (q * 400 + 1 + n100 * 100 + n4 * 4 + n1)
  = 146097 * q + 36524 * n100 + 1461 * n4 + 365 * n1.
Proof.
  intros. unfold _days_before_year. cbv zeta.
  Z.to_euclidean_division_equations. lia.
Qed.

Lemma is_leap_parts q n100 n4 n1 :
  0 <= n100 <= 3 -> 0 <= n4 <= 24 -> 0 <= n1 <= 3 ->
  _is_leap (q * 400 + 1 + n100 * 100 + n4 * 4 + n1)
  = (n1 =? 3) && (negb (n4 =? 24) || (n100 =? 3)).
Proof.
  intros. unfold _is_leap.
  destruct (n1 =? 3) eqn:E1; destruct (n4 =? 24) eqn:E4;
    destruct (n100 =? 3) eqn:E100; cbn [andb orb negb];
    repeat match goal with
    | |- context [?a mod ?b =? 0] => destruct (Z.eqb_spec (a mod b) 0)
    end; cbn [andb orb negb]; try reflexivity; exfalso;
    repeat match goal with
    | H : (_ =? _) = true |- _ => apply Z.eqb_eq in H
    | H : (_ =? _) = false |- _ => apply Z.eqb_neq in H
    end;
    Z.to_euclidean_division_equations; lia.
Qed.

Lemma month_day_spec (leap : bool) (n : Z) :
  0 <= n < 365 + (if leap then 1 else 0) ->
  let '(m, d) := month_day leap n in
  1 <= m <= 12 /\
  1 <= d <= (if (m =? 2) && leap then 29 else _DAYS_IN_MONTH m) /\
  _DAYS_BEFORE_MONTH m + (if (2 <? m) && leap then 1 else 0) + d = n + 1.
Proof.
  intros Hn. unfold month_day.
  rewrite Z.shiftr_div_pow2 by lia. change (2 ^ 5) with 32.
  assert (Hm : 1 <= (n + 50) / 32 <= 12)
    by (destruct leap; Z.to_euclidean_division_equations; lia).
  cbv zeta.
  destruct (month_cases _ Hm) as [E|[E|[E|[E|[E|[E|[E|[E|[E|[E|[E|E]]]]]]]]]]];
    rewrite E;
    repeat match goal with
    | |- context [Z.sub (Zpos ?p) 1] =>
        let v := eval vm_compute in (Z.sub (Zpos p) 1) in
        change (Z.sub (Zpos p) 1) with v
    end;
    cbv [_DAYS_BEFORE_MONTH _DAYS_IN_MONTH];
    destruct leap;
    repeat match goal with
    | |- context [?a <? ?b] => destruct (Z.ltb_spec a b)
    | |- context [?a =? ?b] => destruct (Z.eqb_spec a b)
    end; cbn [andb] in *; try lia; Z.to_euclidean_division_equations; lia.
Qed.

Lemma _ord2ymd_month_day n :
  _ord2ymd n =
  let n0 := n - 1 in
  let q := n0 / 146097 in
  let r400 := n0 mod 146097 in
  let n100 := r400 / 36524 in
  let r100 := r400 mod 36524 in
  let n4 := r100 / 1461 in
  let r4 := r100 mod 1461 in
  let n1 := r4 / 365 in
  let r1 := r4 mod 365 in
  let year := q * 400 + 1 + n100 * 100 + n4 * 4 + n1 in
  if (n1 =? 4) || (n100 =? 4) then (year - 1, 12, 31)
  else
    let '(m, d) :=
      month_day ((n1 =? 3) && (negb (n4 =? 24) || (n100 =? 3))) r1 in
    (year, m, d).
Proof.
  unfold _ord2ymd, month_day. cbv zeta.
  destruct (_ || _); [reflexivity|].
  destruct (_ <? _); reflexivity.
Qed.

(** [_ord2ymd] yields a date of the calendar whose ordinal is its
    argument. *)
Lemma _ord2ymd_spec n :
  let '(y, m, d) := _ord2ymd n in
  valid_ymd y m d /\ _ymd2ord y m d = n.
Proof.
  rewrite _ord2ymd_month_day. cbv zeta.
  set (n0 := n - 1).
  set (q := n0 / 146097). set (r400 := n0 mod 146097).
  set (n100 := r400 / 36524). set (r100 := r400 mod 36524).
  set (n4 := r100 / 1461). set (r4 := r100 mod 1461).
  set (n1 := r4 / 365). set (r1 := r4 mod 365).
  assert (Hn0 : n0 = 146097 * q + r400 /\ 0 <= r400 < 146097)
    by (subst q r400; Z.to_euclidean_division_equations; lia).
  assert (H100 : r400 = 36524 * n100 + r100 /\ 0 <= r100 < 36524 /\ 0 <= n100 <= 4)
    by (subst n100 r100; Z.to_euclidean_division_equations; lia).
  assert (H4 : r100 = 1461 * n4 + r4 /\ 0 <= r4 < 1461 /\ 0 <= n4 <= 24)
    by (subst n4 r4; Z.to_euclidean_division_equations; lia).
  assert (H1 : r4 = 365 * n1 + r1 /\ 0 <= r1 < 365 /\ 0 <= n1 <= 4)
    by (subst n1 r1; Z.to_euclidean_division_equations; lia).
  clearbody q r400 n100 r100 n4 r4 n1 r1.
  destruct ((n1 =? 4) || (n100 =? 4)) eqn:Elast.
  - (* the last day of a leap cycle *)
    assert (Hy : q * 400 + 1 + n100 * 100 + n4 * 4 + n1 - 1
                 = q * 400 + 1 + (if n100 =? 4 then 3 else n100) * 100
                   + (if n100 =? 4 then 24 else n4) * 4 + 3).
    { apply orb_true_iff in Elast.
      destruct (Z.eqb_spec n100 4), (Z.eqb_spec n1 4); lia. }
    rewrite Hy. unfold valid_ymd, _ymd2ord, _days_in_month, _days_before_month.
    rewrite is_leap_parts, days_before_year_parts
      by (destruct (Z.eqb_spec n100 4); lia).
    clear Hy.
    repeat match goal with
    | |- context [?a =? ?b] => destruct (Z.eqb_spec a b)
    | |- context [?a <? ?b] => destruct (Z.ltb_spec a b)
    end;
    cbv beta iota delta [_DAYS_IN_MONTH _DAYS_BEFORE_MONTH andb orb negb];
    subst n0; lia.
  - apply orb_false_iff in Elast. destruct Elast as [E1 E100].
    apply Z.eqb_neq in E1, E100.
    set (leap := (n1 =? 3) && (negb (n4 =? 24) || (n100 =? 3))).
    assert (Hr1 : 0 <= r1 < 365 + (if leap then 1 else 0))
      by (destruct leap; lia).
    pose proof (month_day_spec leap r1 Hr1) as Hmd.
    destruct (month_day leap r1) as [m d].
    destruct Hmd as (Hm & Hd & Hsum).
    unfold valid_ymd, _ymd2ord, _days_in_month, _days_before_month.
    rewrite is_leap_parts, days_before_year_parts by lia. fold leap.
    split; [split; [exact Hm | exact Hd]|]. subst n0. lia.
Qed.

Lemma days_before_year_succ y :
  _days_before_year (y + 1)
  = _days_before_year y + 365 + (if _is_leap y then 1 else 0).
Proof.
  unfold _days_before_year, _is_leap. cbv zeta.
  replace (y + 1 - 1) with y by lia.
  destruct (Z.eqb_spec (y mod 4) 0), (Z.eqb_spec (y mod 100) 0),
    (Z.eqb_spec (y mod 400) 0); cbn [andb orb negb];
    Z.to_euclidean_division_equations; lia.
Qed.

Lemma month_of_month_range i : 1 <= month_of_month i <= 12.
Proof. unfold month_of_month. Z.to_euclidean_division_equations; lia. Qed.

Lemma month_number_inv y m :
  1 <= m <= 12 ->
  year_of_month (month_number y m) = y /\ month_of_month (month_number y m) = m.
Proof.
  unfold year_of_month, month_of_month, month_number. intros.
  Z.to_euclidean_division_equations; lia.
Qed.

Lemma days_in_month_range y m : 1 <= m <= 12 -> 28 <= _days_in_month y m <= 31.
Proof.
  intros H. unfold _days_in_month. months H; destruct (_is_leap y); cbn; lia.
Qed.

Lemma month_first_succ i :
  month_first (i + 1)
  = month_first i + _days_in_month (year_of_month i) (month_of_month i).
Proof.
  unfold month_first, date_of_ymd, _ymd2ord, _days_before_month, _days_in_month.
  pose proof (month_of_month_range i) as Hm.
  destruct (Z.eq_dec (month_of_month i) 12) as [E|E].
  - assert (year_of_month (i + 1) = year_of_month i + 1 /\ month_of_month (i + 1) = 1)
      as [-> ->]
      by (unfold year_of_month, month_of_month in *;
          Z.to_euclidean_division_equations; lia).
    rewrite E, days_before_year_succ.
    destruct (_is_leap (year_of_month i)), (_is_leap (year_of_month i + 1));
      cbn; lia.
  - assert (year_of_month (i + 1) = year_of_month i
            /\ month_of_month (i + 1) = month_of_month i + 1) as [-> ->]
      by (unfold year_of_month, month_of_month in *;
          Z.to_euclidean_division_equations; lia).
    generalize dependent (month_of_month i). intros m Hm E.
    months Hm; try lia; destruct (_is_leap (year_of_month i)); cbn; lia.
Qed.

Lemma month_last_first i : month_last i = month_first (i + 1) - 1.
Proof.
  rewrite month_first_succ. unfold month_last, month_first, date_of_ymd, _ymd2ord.
  lia.
Qed.

Lemma month_first_lt i : month_first i + 28 <= month_first (i + 1).
Proof.
  rewrite month_first_succ.
  pose proof (days_in_month_range (year_of_month i) _ (month_of_month_range i)).
  lia.
Qed.

Lemma month_first_mono i j : i <= j -> month_first i + 28 * (j - i) <= month_first j.
Proof.
  intros H. replace j with (i + (j - i)) at 2 by lia.
  assert (Hk : 0 <= j - i) by lia. revert Hk. generalize (j - i) as k.
  apply (natlike_ind (fun k => month_first i + 28 * k <= month_first (i + k))).
  - replace (i + 0) with i by lia. lia.
  - intros k Hk IH. pose proof (month_first_lt (i + k)).
    replace (i + Z.succ k) with (i + k + 1) by lia. lia.
Qed.

Lemma month_index_bounds date :
  month_first (month_index date) <= date <= month_last (month_index date).
Proof.
  unfold month_index, ymd_of_date.
  pose proof (_ord2ymd_spec (date + EPOCH_ORDINAL)) as H.
  destruct (_ord2ymd (date + EPOCH_ORDINAL)) as [[y m] d].
  destruct H as [[Hm Hd] Hord].
  unfold month_last, month_first.
  destruct (month_number_inv y m Hm) as [-> ->].
  unfold date_of_ymd, _ymd2ord in *. lia.
Qed.

Lemma month_index_unique date i :
  month_first i <= date <= month_last i -> month_index date = i.
Proof.
  intros H. pose proof (month_index_bounds date) as Hb.
  rewrite month_last_first in *.
  destruct (Z.lt_trichotomy (month_index date) i) as [Hlt|[Heq|Hgt]];
    [|exact Heq|].
  - pose proof (month_first_mono (month_index date + 1) i ltac:(lia)). lia.
  - pose proof (month_first_mono (i + 1) (month_index date) ltac:(lia)). lia.
Qed.

Lemma month_index_iff date i :
  month_index date = i <-> month_last (i - 1) < date <= month_last i.
Proof.
  rewrite (month_last_first (i - 1)). replace (i - 1 + 1) with i by lia.
  split.
  - intros <-. pose proof (month_index_bounds date). lia.
  - intros H. apply month_index_unique. lia.
Qed.

Lemma ymd_of_date_of_ymd y m d :
  valid_ymd y m d -> ymd_of_date (date_of_ymd y m d) = (y, m, d).
Proof.
  intros [Hm Hd].
  assert (Hi : month_index (date_of_ymd y m d) = month_number y m).
  { apply month_index_unique. unfold month_first, month_last.
    destruct (month_number_inv y m Hm) as [-> ->].
    unfold date_of_ymd, _ymd2ord. lia. }
  unfold month_index, ymd_of_date in *.
  pose proof (_ord2ymd_spec (date_of_ymd y m d + EPOCH_ORDINAL)) as H.
  destruct (_ord2ymd (date_of_ymd y m d + EPOCH_ORDINAL)) as [[y' m'] d'].
  destruct H as [[Hm' Hd'] Hord].
  assert (y' = y /\ m' = m) as [-> ->]
    by (unfold month_number in Hi; lia).
  unfold date_of_ymd, _ymd2ord in Hord.
  replace d' with d by lia. reflexivity.
Qed.

Lemma ymd_of_month_last i :
  ymd_of_date (month_last i)
  = (year_of_month i, month_of_month i,
     _days_in_month (year_of_month i) (month_of_month i)).
Proof.
  apply ymd_of_date_of_ymd. split; [apply month_of_month_range|].
  pose proof (days_in_month_range (year_of_month i) _ (month_of_month_range i)).
  lia.
Qed.

Lemma ymd_of_date_valid date :
  let '(y, m, d) := ymd_of_date date in
  valid_ymd y m d /\ month_index date = month_number y m /\
  date = month_first (month_number y m) + d - 1.
Proof.
  unfold month_index, ymd_of_date.
  pose proof (_ord2ymd_spec (date + EPOCH_ORDINAL)) as H.
  destruct (_ord2ymd (date + EPOCH_ORDINAL)) as [[y m] d].
  destruct H as [[Hm Hd] Hord]. split; [split; assumption|].
  split; [reflexivity|]. unfold month_first.
  destruct (month_number_inv y m Hm) as [-> ->].
  unfold date_of_ymd, _ymd2ord in *. lia.
Qed.

(** ** Timestamps and days *)

Lemma NS_PER_DAY_pos : 0 < NS_PER_DAY.
Proof. reflexivity. Qed.

Lemma date_of_midnight d : date_of (midnight d) = d.
Proof.
  unfold date_of, midnight. apply Z.div_mul.
  pose proof NS_PER_DAY_pos. lia.
Qed.

Lemma time_of_day_midnight d : time_of_day (midnight d) = 0.
Proof.
  unfold time_of_day, midnight. apply Z.mod_mul.
  pose proof NS_PER_DAY_pos. lia.
Qed.

Lemma midnight_date_of t :
  midnight (date_of t) <= t < midnight (date_of t) + NS_PER_DAY.
Proof.
  unfold date_of, midnight. pose proof NS_PER_DAY_pos as HD.
  pose proof (Z.div_mod t NS_PER_DAY ltac:(lia)) as H.
  pose proof (Z.mod_pos_bound t NS_PER_DAY HD). lia.
Qed.

Lemma midnight_succ d : midnight (d + 1) = midnight d + NS_PER_DAY.
Proof. unfold midnight. lia. Qed.

Lemma midnight_add d k : midnight (d + k) = midnight d + k * NS_PER_DAY.
Proof. unfold midnight. lia. Qed.

Lemma midnight_le a b : a <= b <-> midnight a <= midnight b.
Proof. unfold midnight. pose proof NS_PER_DAY_pos. nia. Qed.

Lemma midnight_lt a b : a < b <-> midnight a < midnight b.
Proof. unfold midnight. pose proof NS_PER_DAY_pos. nia. Qed.

Lemma date_of_range t a b :
  midnight a <= t < midnight b <-> a <= date_of t < b.
Proof.
  pose proof (midnight_date_of t) as H. rewrite <- midnight_succ in H.
  split; intros [H1 H2]; split.
  - apply Z.lt_succ_r. apply midnight_lt. unfold Z.succ. lia.
  - apply midnight_lt. lia.
  - apply midnight_le in H1. lia.
  - assert (date_of t + 1 <= b) as Hb by lia. apply midnight_le in Hb. lia.
Qed.

Lemma date_of_mono s t : s <= t -> date_of s <= date_of t.
Proof.
  intros H. unfold date_of. apply Z.div_le_mono; [apply NS_PER_DAY_pos | exact H].
Qed.

(** ** Buckets of the three periods *)

Lemma weekday_eq d : weekday d = (d + 3) mod 7.
Proof.
  unfold weekday, EPOCH_ORDINAL. Z.to_euclidean_division_equations; lia.
Qed.

Lemma label_of_index off t : label_of off t = bucket_label off (bucket_index off t).
Proof.
  destruct off; cbn [label_of bucket_label bucket_index].
  - unfold month_index.
    pose proof (ymd_of_date_valid (date_of t)) as H.
    destruct (ymd_of_date (date_of t)) as [[y m] d].
    destruct H as [[Hm _] _]. unfold month_last.
    now destruct (month_number_inv y m Hm) as [-> ->].
  - f_equal. rewrite weekday_eq. unfold WEEKDAY_SUN.
    generalize (date_of t) as d. intros d.
    Z.to_euclidean_division_equations; lia.
  - reflexivity.
Qed.

Lemma bucket_label_step off i :
  bucket_label off i + NS_PER_DAY <= bucket_label off (i + 1).
Proof.
  destruct off; cbn [bucket_label]; rewrite <- midnight_succ;
    apply (proj1 (midnight_le _ _)).
  - rewrite (month_last_first i), (month_last_first (i + 1)).
    pose proof (month_first_lt (i + 1)). lia.
  - lia.
  - lia.
Qed.

Lemma bucket_index_iff off t i :
  bucket_index off t = i <->
  bucket_label off (i - 1) + NS_PER_DAY <= t < bucket_label off i + NS_PER_DAY.
Proof.
  destruct off; cbn [bucket_label bucket_index];
    rewrite <- !midnight_succ, date_of_range.
  - rewrite month_index_iff. lia.
  - generalize (date_of t) as d. intros d.
    split; intros H; Z.to_euclidean_division_equations; lia.
  - lia.
Qed.

Lemma bucket_index_mono off s t : s <= t -> bucket_index off s <= bucket_index off t.
Proof.
  intros H. apply date_of_mono in H.
  destruct off; cbn [bucket_index].
  - pose proof (month_index_bounds (date_of s)) as Hs.
    pose proof (month_index_bounds (date_of t)) as Ht.
    destruct (Z.le_gt_cases (month_index (date_of s)) (month_index (date_of t)))
      as [|Hgt]; [assumption|].
    pose proof (month_first_mono (month_index (date_of t) + 1)
                  (month_index (date_of s)) ltac:(lia)).
    rewrite month_last_first in Ht. lia.
  - revert H. generalize (date_of s) as a, (date_of t) as b. intros a b H.
    Z.to_euclidean_division_equations; lia.
  - exact H.
Qed.

Lemma bucket_label_mono off i j :
  i <= j -> bucket_label off i + (j - i) * NS_PER_DAY <= bucket_label off j.
Proof.
  intros H. replace j with (i + (j - i)) at 2 by lia.
  assert (Hk : 0 <= j - i) by lia. revert Hk. generalize (j - i) as k.
  apply (natlike_ind
           (fun k => bucket_label off i + k * NS_PER_DAY
                     <= bucket_label off (i + k))).
  - replace (i + 0) with i by lia. lia.
  - intros k Hk IH. pose proof (bucket_label_step off (i + k)).
    replace (i + Z.succ k) with (i + k + 1) by lia. lia.
Qed.

Lemma bucket_label_lt off i j : i < j -> bucket_label off i < bucket_label off j.
Proof.
  intros H. pose proof (bucket_label_mono off i j ltac:(lia)).
  pose proof NS_PER_DAY_pos. nia.
Qed.

Lemma bucket_label_inj off i j : bucket_label off i = bucket_label off j -> i = j.
Proof.
  intros H. destruct (Z.lt_trichotomy i j) as [Hlt|[Heq|Hgt]]; [|exact Heq|].
  - apply (bucket_label_lt off) in Hlt. lia.
  - apply (bucket_label_lt off) in Hgt. lia.
Qed.

(** ** The offsets on bucket labels *)

Lemma shift_month_end_spec t k :
  shift_month_end t k
  = midnight (month_last (month_index (date_of t) + k)) + time_of_day t.
Proof.
  unfold shift_month_end.
  pose proof (ymd_of_date_valid (date_of t)) as H.
  destruct (ymd_of_date (date_of t)) as [[y m] d].
  destruct H as ([Hm _] & -> & _).
  assert (E : (if (m + k) mod 12 =? 0 then (12, (m + k) / 12 - 1)
               else ((m + k) mod 12, (m + k) / 12))
              = (month_of_month (month_number y m + k),
                 year_of_month (month_number y m + k) - y)).
  { unfold month_of_month, year_of_month, month_number.
    destruct (Z.eqb_spec ((m + k) mod 12) 0); f_equal;
      Z.to_euclidean_division_equations; lia. }
  rewrite E. unfold month_last.
  replace (y + (year_of_month (month_number y m + k) - y))
    with (year_of_month (month_number y m + k)) by lia.
  reflexivity.
Qed.

Lemma apply_MonthEnd t n :
  apply MonthEnd n t
  = midnight (month_last
                (month_index (date_of t)
                 + roll_convention (day_of_date (date_of t)) n
                     (_days_in_month (year_of_date (date_of t))
                                     (month_of_date (date_of t)))))
    + time_of_day t.
Proof.
  cbn [apply]. unfold day_of_date, year_of_date, month_of_date.
  destruct (ymd_of_date (date_of t)) as [[y m] d] eqn:E. cbn [fst snd].
  apply shift_month_end_spec.
Qed.

Lemma day_of_date_range date :
  1 <= day_of_date date
  <= _days_in_month (year_of_date date) (month_of_date date).
Proof.
  unfold day_of_date, year_of_date, month_of_date.
  pose proof (ymd_of_date_valid date) as H.
  destruct (ymd_of_date date) as [[y m] d]. cbn [fst snd].
  now destruct H as ([_ Hd] & _).
Qed.

Lemma apply_label off i :
  apply off 1 (bucket_label off i) = bucket_label off (i + 1).
Proof.
  destruct off; cbn [bucket_label].
  - rewrite apply_MonthEnd, date_of_midnight, time_of_day_midnight.
    unfold day_of_date, year_of_date, month_of_date.
    rewrite ymd_of_month_last. cbn [fst snd].
    rewrite (month_index_unique (month_last i) i)
      by (rewrite (month_last_first i);
          pose proof (month_first_lt i); lia).
    unfold roll_convention. rewrite Z.ltb_irrefl. cbn. now rewrite Z.add_0_r.
  - cbn [apply]. rewrite date_of_midnight, weekday_eq. unfold WEEKDAY_SUN.
    replace ((7 * i + 3 + 3) mod 7) with 6
      by (Z.to_euclidean_division_equations; lia).
    change (6 =? 6) with true. cbv iota. unfold midnight. lia.
  - cbn [apply]. unfold midnight. lia.
Qed.

Lemma is_on_offset_label off i : is_on_offset off (bucket_label off i) = true.
Proof.
  destruct off; cbn [bucket_label is_on_offset]; rewrite ?date_of_midnight.
  - rewrite ymd_of_month_last. apply Z.eqb_refl.
  - rewrite weekday_eq. unfold WEEKDAY_SUN. apply Z.eqb_eq.
    Z.to_euclidean_division_equations; lia.
  - reflexivity.
Qed.

Lemma normalize_index off t :
  bucket_index off (normalize t) = bucket_index off t.
Proof.
  unfold normalize. destruct off; cbn [bucket_index]; now rewrite date_of_midnight.
Qed.

(** The left edge: one offset before the midnight of the earliest
    timestamp lies the label of the bucket before its own. *)
Lemma first_edge off t :
  closed_right off = true ->
  apply off (-1) (normalize t) = bucket_label off (bucket_index off t - 1).
Proof.
  destruct off; cbn [closed_right]; intros H; try discriminate;
    cbn [bucket_label bucket_index]; unfold normalize.
  - rewrite apply_MonthEnd, date_of_midnight, time_of_day_midnight.
    pose proof (day_of_date_range (date_of t)) as Hd.
    unfold roll_convention.
    replace (_days_in_month _ _ <? day_of_date (date_of t)) with false
      by (symmetry; apply Z.ltb_ge; lia).
    cbn. rewrite Z.add_0_r. f_equal.
  - cbn [apply]. rewrite date_of_midnight, weekday_eq. unfold WEEKDAY_SUN.
    generalize (date_of t) as d. intros d.
    destruct (Z.eqb_spec ((d + 3) mod 7) 6); cbn [Z.ltb Z.compare];
      unfold midnight.
    + replace (7 * ((d + 3) / 7 - 1) + 3) with (d - 7)
        by (Z.to_euclidean_division_equations; lia).
      lia.
    + replace (7 * ((d + 3) / 7 - 1) + 3)
        with (d + (6 - (d + 3) mod 7) mod 7 - 7)
        by (Z.to_euclidean_division_equations; lia).
      lia.
Qed.

(** The right edge: one offset after the midnight of the latest timestamp
    lies the label of its bucket or of the next one. *)
Lemma last_edge off t :
  closed_right off = true ->
  exists j, apply off 1 (normalize t) = bucket_label off j /\
            bucket_index off t <= j <= bucket_index off t + 1.
Proof.
  destruct off; cbn [closed_right]; intros H; try discriminate;
    cbn [bucket_label bucket_index]; unfold normalize.
  - rewrite apply_MonthEnd, date_of_midnight, time_of_day_midnight.
    pose proof (day_of_date_range (date_of t)) as Hd.
    eexists. split; [rewrite Z.add_0_r; reflexivity|].
    unfold roll_convention.
    destruct (Z.ltb_spec (day_of_date (date_of t))
                (_days_in_month (year_of_date (date_of t))
                                (month_of_date (date_of t)))); cbn; lia.
  - cbn [apply]. rewrite date_of_midnight, weekday_eq. unfold WEEKDAY_SUN.
    generalize (date_of t) as d. intros d.
    destruct (Z.eqb_spec ((d + 3) mod 7) 6).
    + exists ((d + 3) / 7 + 1). split; [|lia].
      unfold midnight.
      replace (7 * ((d + 3) / 7 + 1) + 3) with (d + 7)
        by (Z.to_euclidean_division_equations; lia).
      lia.
    + exists ((d + 3) / 7). split; [|lia].
      cbn [Z.ltb Z.compare]. unfold midnight.
      replace (7 * ((d + 3) / 7) + 3)
        with (d + (6 - (d + 3) mod 7) mod 7)
        by (Z.to_euclidean_division_equations; lia).
      lia.
Qed.

Lemma day_edges mn mx :
  _get_timestamp_range_edges Day mn mx
  = (bucket_label Day (bucket_index Day mn),
     bucket_label Day (bucket_index Day mx + 1)).
Proof.
  cbn [_get_timestamp_range_edges bucket_label bucket_index].
  unfold _adjust_dates_anchored, normalize. cbv zeta.
  pose proof NS_PER_DAY_pos as HD.
  pose proof (midnight_date_of mn) as Hmn.
  pose proof (midnight_date_of mx) as Hmx.
  assert (E1 : (mn - midnight (date_of mn)) mod NS_PER_DAY
               = mn - midnight (date_of mn))
    by (apply Z.mod_small; lia).
  assert (E2 : (mx - midnight (date_of mn)) mod NS_PER_DAY
               = mx - midnight (date_of mx)).
  { unfold midnight in *.
    replace (mx - date_of mn * NS_PER_DAY)
      with (mx - date_of mx * NS_PER_DAY
            + (date_of mx - date_of mn) * NS_PER_DAY) by lia.
    rewrite Z.mod_add by lia. apply Z.mod_small. lia. }
  rewrite E1, E2, midnight_succ.
  destruct (Z.ltb_spec 0 (mn - midnight (date_of mn))),
           (Z.ltb_spec 0 (mx - midnight (date_of mx))); f_equal; lia.
Qed.

(** ** Ranges of bucket numbers *)

Lemma zrange_length a n : List.length (zrange a n) = n.
Proof. revert a; induction n; intros a; simpl; auto. Qed.

Lemma zrange_In a n x : In x (zrange a n) <-> a <= x < a + Z.of_nat n.
Proof.
  revert a; induction n as [|n IH]; intros a; cbn [zrange In].
  - lia.
  - rewrite IH. lia.
Qed.

Lemma zrange_snoc a n : zrange a (S n) = zrange a n ++ [a + Z.of_nat n].
Proof.
  revert a; induction n as [|n IH]; intros a.
  - cbn. now rewrite Z.add_0_r.
  - change (zrange a (S (S n))) with (a :: zrange (a + 1) (S n)).
    rewrite IH. cbn [zrange app].
    replace (a + 1 + Z.of_nat n) with (a + Z.of_nat (S n)) by lia. reflexivity.
Qed.

Lemma index_le_edge off v i : v <= edge off i -> bucket_index off v <= i.
Proof.
  unfold edge. intros H.
  pose proof (proj1 (bucket_index_iff off v (bucket_index off v)) eq_refl) as Hv.
  destruct (Z.le_gt_cases (bucket_index off v) i) as [|Hgt]; [assumption|].
  pose proof (bucket_label_mono off i (bucket_index off v - 1) ltac:(lia)).
  pose proof NS_PER_DAY_pos. nia.
Qed.

Lemma index_gt_edge off v i : edge off i < v -> i < bucket_index off v.
Proof.
  unfold edge. intros H.
  pose proof (proj1 (bucket_index_iff off v (bucket_index off v)) eq_refl) as Hv.
  destruct (Z.lt_ge_cases i (bucket_index off v)) as [|Hge]; [assumption|].
  pose proof (bucket_label_mono off (bucket_index off v) i ltac:(lia)).
  pose proof NS_PER_DAY_pos. nia.
Qed.

Lemma edge_index off v : edge off (bucket_index off v - 1) < v <= edge off (bucket_index off v).
Proof.
  unfold edge.
  pose proof (proj1 (bucket_index_iff off v (bucket_index off v)) eq_refl). lia.
Qed.

(** ** The linear scan *)

Lemma take_while_split f l :
  l = take_while f l ++ skipn (List.length (take_while f l)) l.
Proof.
  induction l as [|x l IH]; cbn [take_while]; [reflexivity|].
  destruct (f x); cbn [List.length skipn app]; [now f_equal | reflexivity].
Qed.

Lemma take_while_all f l : Forall (fun x => f x = true) (take_while f l).
Proof.
  induction l as [|x l IH]; cbn [take_while]; [constructor|].
  destruct (f x) eqn:E; constructor; assumption.
Qed.

Lemma skip_while_sorted r l :
  StronglySorted Z.le l ->
  Forall (fun x => r < x)
         (skipn (List.length (take_while (fun v => v <=? r) l)) l).
Proof.
  induction 1 as [|x l Hs IH Hall]; cbn [take_while]; [constructor|].
  destruct (Z.leb_spec x r) as [Hle|Hgt]; cbn [List.length skipn].
  - exact IH.
  - constructor; [exact Hgt|].
    rewrite Forall_forall in *. intros y Hy. specialize (Hall y Hy). lia.
Qed.

Lemma StronglySorted_skipn {A} (R : A -> A -> Prop) k l :
  StronglySorted R l -> StronglySorted R (skipn k l).
Proof.
  intros H. rewrite <- (firstn_skipn k l) in H.
  now apply StronglySorted_app_inv in H.
Qed.

Lemma count_bucket_app off i l1 l2 :
  count_bucket off i (l1 ++ l2) = count_bucket off i l1 + count_bucket off i l2.
Proof. unfold count_bucket. rewrite filter_app, length_app. lia. Qed.

Lemma count_bucket_all off i l :
  Forall (fun v => bucket_index off v = i) l ->
  count_bucket off i l = Z.of_nat (List.length l).
Proof.
  unfold count_bucket. induction 1 as [|v l Hv Hl IH]; cbn [filter]; [reflexivity|].
  rewrite Hv, Z.eqb_refl. cbn [List.length]. lia.
Qed.

Lemma count_bucket_none off i l :
  Forall (fun v => bucket_index off v <> i) l -> count_bucket off i l = 0.
Proof.
  unfold count_bucket. induction 1 as [|v l Hv Hl IH]; cbn [filter]; [reflexivity|].
  destruct (Z.eqb_spec (bucket_index off v) i); [contradiction | exact IH].
Qed.

Lemma scan_counts off : forall n i0 values j,
  StronglySorted Z.le values ->
  Forall (fun v => i0 <= bucket_index off v) values ->
  bin_sizes j (scan_bins true values j (List.map (edge off) (zrange i0 n)))
  = List.map (fun i => count_bucket off i values) (zrange i0 n).
Proof.
  induction n as [|n IH]; intros i0 values j Hs Hlow; [reflexivity|].
  cbn [zrange List.map scan_bins bin_sizes].
  set (taken := take_while (fun v => v <=? edge off i0) values).
  set (rest := skipn (List.length taken) values).
  assert (Hsplit : values = taken ++ rest) by apply take_while_split.
  assert (Htaken : Forall (fun v => bucket_index off v = i0) taken).
  { pose proof (take_while_all (fun v => v <=? edge off i0) values) as Hall.
    fold taken in Hall. rewrite Forall_forall in *. intros v Hv.
    pose proof (Hall v Hv) as Hle. apply Z.leb_le in Hle.
    apply index_le_edge in Hle.
    assert (In v values) by (rewrite Hsplit; apply in_or_app; now left).
    specialize (Hlow v H). lia. }
  assert (Hrest : Forall (fun v => i0 + 1 <= bucket_index off v) rest).
  { pose proof (skip_while_sorted (edge off i0) values Hs) as Hall.
    fold taken in Hall. fold rest in Hall.
    rewrite Forall_forall in *. intros v Hv. specialize (Hall v Hv).
    apply index_gt_edge in Hall. lia. }
  f_equal.
  - rewrite Hsplit at 1. rewrite count_bucket_app, (count_bucket_all off i0 taken Htaken).
    rewrite count_bucket_none; [lia|].
    rewrite Forall_forall in *. intros v Hv. specialize (Hrest v Hv). lia.
  - rewrite IH; [|now apply StronglySorted_skipn | exact Hrest].
    apply map_ext_in. intros i Hi. apply zrange_In in Hi.
    rewrite Hsplit at 1. rewrite count_bucket_app.
    rewrite (count_bucket_none off i taken); [lia|].
    rewrite Forall_forall in *. intros v Hv. specialize (Htaken v Hv). lia.
Qed.

Lemma scan_bins_left values : forall r_bins j,
  scan_bins false values j r_bins
  = scan_bins true values j (List.map (fun r => r - 1) r_bins).
Proof.
  intros r_bins; revert values; induction r_bins as [|r rs IH];
    intros values j; [reflexivity|].
  cbn [scan_bins List.map].
  assert (E : take_while (fun v => v <? r) values
              = take_while (fun v => v <=? r - 1) values).
  { induction values as [|v vs IHv]; cbn [take_while]; [reflexivity|].
    replace (v <=? r - 1) with (v <? r)
      by (destruct (Z.ltb_spec v r), (Z.leb_spec v (r - 1)); lia).
    destruct (v <? r); [now f_equal | reflexivity]. }
  rewrite E. f_equal. apply IH.
Qed.

(** ** [date_range] on bucket labels *)

Lemma generate_range_labels off : forall n fuel a,
  (n < fuel)%nat ->
  generate_range fuel off (bucket_label off a)
                 (bucket_label off (a + Z.of_nat n))
  = List.map (bucket_label off) (zrange a (S n)).
Proof.
  induction n as [|n IH]; intros fuel a Hfuel;
    (destruct fuel as [|fuel]; [lia|]); cbn [generate_range zrange List.map].
  - replace (a + Z.of_nat 0) with a by lia.
    now rewrite Z.leb_refl, Z.eqb_refl.
  - pose proof (bucket_label_lt off a (a + Z.of_nat (S n)) ltac:(lia)) as Hlt.
    replace (bucket_label off a <=? bucket_label off (a + Z.of_nat (S n)))
      with true by (symmetry; apply Z.leb_le; lia).
    replace (bucket_label off a =? bucket_label off (a + Z.of_nat (S n)))
      with false by (symmetry; apply Z.eqb_neq; lia).
    f_equal. rewrite apply_label.
    replace (a + Z.of_nat (S n)) with (a + 1 + Z.of_nat n) by lia.
    apply IH. lia.
Qed.

Lemma date_range_labels off a b :
  a <= b ->
  date_range off (bucket_label off a) (bucket_label off b)
  = List.map (bucket_label off) (zrange a (S (Z.to_nat (b - a)))).
Proof.
  intros Hab. unfold date_range, rollforward.
  rewrite is_on_offset_label.
  assert (Hb : b = a + Z.of_nat (Z.to_nat (b - a))) by lia.
  rewrite Hb at 1 2. apply generate_range_labels. rewrite <- Hb.
  pose proof (bucket_label_mono off a b Hab) as Hm.
  pose proof NS_PER_DAY_pos as HD.
  assert (b - a <= (bucket_label off b - bucket_label off a) / NS_PER_DAY).
  { apply Z.div_le_lower_bound; [exact HD|]. lia. }
  lia.
Qed.

(** ** Smallest and largest timestamp *)

Lemma list_min_le d l x : In x l -> list_min d l <= x.
Proof.
  unfold list_min. induction l as [|y l IH]; cbn [fold_right In]; [tauto|].
  intros [->|H]; [lia|]. specialize (IH H). lia.
Qed.

Lemma list_max_ge d l x : In x l -> x <= list_max d l.
Proof.
  unfold list_max. induction l as [|y l IH]; cbn [fold_right In]; [tauto|].
  intros [->|H]; [lia|]. specialize (IH H). lia.
Qed.

Lemma list_min_max d l : In d l -> list_min d l <= list_max d l.
Proof.
  intros H. pose proof (list_min_le d l d H). pose proof (list_max_ge d l d H). lia.
Qed.

Lemma last_In {A} (l : list A) d : l <> [] -> In (last l d) l.
Proof.
  induction l as [|x l IH]; [congruence|]. intros _.
  destruct l as [|y l]; [now left|]. right. apply IH. discriminate.
Qed.

Lemma last_map {A B} (f : A -> B) l d : last (List.map f l) (f d) = f (last l d).
Proof.
  induction l as [|x l IH]; [reflexivity|].
  destruct l as [|y l]; [reflexivity|]. exact IH.
Qed.

Lemma last_zrange a n d : last (zrange a (S n)) d = a + Z.of_nat n.
Proof. rewrite zrange_snoc. apply last_last. Qed.

Lemma removelast_zrange a n : removelast (zrange a (S n)) = zrange a n.
Proof. rewrite zrange_snoc. apply removelast_last. Qed.

(** ** The bins of a sorted axis *)

Lemma scan_bins_length c values : forall r_bins j,
  List.length (scan_bins c values j r_bins) = List.length r_bins.
Proof.
  intros r_bins; revert values; induction r_bins as [|r rs IH]; intros values j;
    cbn [scan_bins List.length]; [reflexivity|]. now rewrite IH.
Qed.

Lemma removelast_map {A B} (f : A -> B) l :
  removelast (List.map f l) = List.map f (removelast l).
Proof.
  induction l as [|x l IH]; [reflexivity|].
  destruct l as [|y l]; [reflexivity|].
  cbn [List.map removelast] in *. now rewrite IH.
Qed.

Lemma edges_right off mn mx :
  closed_right off = true ->
  _get_timestamp_range_edges off mn mx
  = (apply off (-1) (normalize mn), apply off 1 (normalize mx)).
Proof. destruct off; [reflexivity | reflexivity | discriminate]. Qed.

Lemma adjust_right off binner ax_max :
  closed_right off = true ->
  _adjust_bin_edges off binner ax_max =
  let bin_edges := List.map (fun e => e + NS_PER_DAY - 1) binner in
  match rev bin_edges with
  | _ :: e2 :: _ =>
      if ax_max <? e2 then Ok (removelast binner, removelast bin_edges)
      else Ok (binner, bin_edges)
  | _ => Raise (IndexError (py "index -2 is out of bounds"))
  end.
Proof. destruct off; [reflexivity | reflexivity | discriminate]. Qed.

Lemma map_edge off l :
  List.map (fun e => e + NS_PER_DAY - 1) (List.map (bucket_label off) l)
  = List.map (edge off) l.
Proof. rewrite map_map. reflexivity. Qed.

Lemma rev_map_zrange {B} (f : Z -> B) a k :
  rev (List.map f (zrange a (S (S k))))
  = f (a + Z.of_nat (S k)) :: f (a + Z.of_nat k)
      :: rev (List.map f (zrange a k)).
Proof.
  rewrite (zrange_snoc a (S k)), (zrange_snoc a k), !map_app, !rev_app_distr.
  reflexivity.
Qed.

(** The bins and labels that [_adjust_bin_edges] hands over, for the
    periods closed on the right: the labels from bucket [a] to a bucket not
    before the latest timestamp. *)
Lemma adjust_labels off a k mx :
  closed_right off = true ->
  a + 1 <= bucket_index off mx <= a + Z.of_nat (S k) ->
  exists m,
    _adjust_bin_edges off (List.map (bucket_label off) (zrange a (S (S k)))) mx
    = Ok (List.map (bucket_label off) (zrange a (S (S m))),
          List.map (edge off) (zrange a (S (S m)))) /\
    bucket_index off mx <= a + Z.of_nat (S m).
Proof.
  intros Hoff Hmx.
  rewrite (adjust_right off _ mx Hoff). cbv zeta. rewrite map_edge.
  rewrite rev_map_zrange.
  destruct (Z.ltb_spec mx (edge off (a + Z.of_nat k))) as [Hlt|Hge].
  - (* the last edge is dropped *)
    rewrite !removelast_map, removelast_zrange.
    assert (Hidx : bucket_index off mx <= a + Z.of_nat k)
      by (apply index_le_edge; lia).
    destruct k as [|k]; [cbn in Hidx; lia|].
    exists k. split; [reflexivity | exact Hidx].
  - exists k. split; [reflexivity | lia].
Qed.

Lemma adjust_day binner mx : _adjust_bin_edges Day binner mx = Ok (binner, binner).
Proof. reflexivity. Qed.

Lemma generate_bins_ok c a0 rest b0 r_bins :
  b0 <= a0 ->
  last (a0 :: rest) a0 <= last (b0 :: r_bins) b0 ->
  generate_bins_dt64 (a0 :: rest) (b0 :: r_bins) c
  = Ok (scan_bins c (a0 :: rest) 0 r_bins).
Proof.
  intros H1 H2. unfold generate_bins_dt64.
  replace (a0 <? b0) with false by (symmetry; apply Z.ltb_ge; lia).
  replace (last (b0 :: r_bins) b0 <? last (a0 :: rest) a0) with false
    by (symmetry; apply Z.ltb_ge; lia).
  reflexivity.
Qed.

Lemma combine_map {A B C} (f : A -> B) (g : A -> C) l :
  combine (List.map f l) (List.map g l) = List.map (fun x => (f x, g x)) l.
Proof. induction l as [|x l IH]; cbn; [reflexivity | now rewrite IH]. Qed.

Lemma firstn_zrange a n : firstn n (zrange a (S n)) = zrange a n.
Proof.
  rewrite zrange_snoc.
  rewrite firstn_app, zrange_length, Nat.sub_diag, firstn_O, app_nil_r.
  rewrite <- (zrange_length a n) at 1. apply firstn_all.
Qed.

Lemma map_pred_labels_day a n :
  List.map (fun r => r - 1) (List.map (bucket_label Day) (zrange (a + 1) n))
  = List.map (edge Day) (zrange a n).
Proof.
  revert a; induction n as [|n IH]; intros a; [reflexivity|].
  cbn [zrange List.map]. rewrite IH. f_equal.
  unfold edge. cbn [bucket_label]. rewrite midnight_succ. lia.
Qed.

Section Bins.
Variable off : DateOffset.
Variables (a0 : Z) (rest : list Z).
Let ax := a0 :: rest.
Let mn := list_min a0 ax.
Let mx := list_max a0 ax.
Let i0 := bucket_index off mn.
Hypothesis ax_sorted : StronglySorted Z.le ax.

Lemma ax_bounds v : In v ax -> mn <= v <= mx.
Proof.
  intros H. split; [now apply list_min_le | now apply list_max_ge].
Qed.

Lemma mn_le_mx : mn <= mx.
Proof. apply list_min_max. now left. Qed.

Lemma ax_low : Forall (fun v => i0 <= bucket_index off v) ax.
Proof.
  apply Forall_forall. intros v Hv. apply bucket_index_mono.
  now apply ax_bounds.
Qed.

Lemma last_ax_le : last ax a0 <= mx.
Proof. apply ax_bounds. apply last_In. discriminate. Qed.

Lemma series_of_scan m :
  combine (List.map (bucket_label off) (zrange i0 m))
          (bin_sizes 0 (scan_bins true ax 0 (List.map (edge off) (zrange i0 m))))
  = bucket_series off ax i0 m.
Proof.
  rewrite scan_counts; [|exact ax_sorted | exact ax_low].
  apply combine_map.
Qed.

Lemma get_time_bins_right :
  closed_right off = true ->
  exists m,
    _get_time_bins off ax
    = Ok (scan_bins true ax 0 (List.map (edge off) (zrange i0 (S m))),
          List.map (bucket_label off) (zrange i0 (S m))) /\
    bucket_index off mx <= i0 + Z.of_nat m.
Proof.
  intros Hoff. unfold _get_time_bins.
  change (match ax with [] => ?x | a1 :: _ => @?f a1 end) with (f a0).
  cbv beta. fold mn. fold mx.
  rewrite (edges_right off mn mx Hoff). cbv iota beta.
  rewrite (first_edge off mn Hoff). fold i0.
  destruct (last_edge off mx Hoff) as (j1 & -> & Hj1).
  pose proof (bucket_index_mono off mn mx mn_le_mx) as Hi. fold i0 in Hi.
  rewrite date_range_labels by lia.
  replace (Z.to_nat (j1 - (i0 - 1))) with (S (Z.to_nat (j1 - i0))) by lia.
  destruct (adjust_labels off (i0 - 1) (Z.to_nat (j1 - i0)) mx Hoff)
    as (m & -> & Hm); [lia|].
  cbn [rbind]. cbv iota beta.
  change (zrange (i0 - 1) (S (S m)))
    with ((i0 - 1) :: zrange (i0 - 1 + 1) (S m)).
  replace (i0 - 1 + 1) with i0 by lia.
  cbn [List.map].
  change ax with (a0 :: rest) at 1.
  rewrite generate_bins_ok; fold ax.
  - cbn [rbind]. rewrite Hoff. cbn [tl].
    rewrite scan_bins_length, !length_map, Nat.ltb_irrefl.
    exists m. split; [reflexivity | lia].
  - pose proof (edge_index off mn) as He. fold i0 in He.
    assert (mn <= a0) by (apply ax_bounds; now left). lia.
  - change (edge off (i0 - 1) :: List.map (edge off) (zrange i0 (S m)))
      with (List.map (edge off) ((i0 - 1) :: zrange i0 (S m))).
    rewrite (last_map (edge off)).
    replace ((i0 - 1) :: zrange i0 (S m)) with (zrange (i0 - 1) (S (S m)))
      by (cbn [zrange]; now replace (i0 - 1 + 1) with i0 by lia).
    rewrite last_zrange.
    pose proof last_ax_le. pose proof (edge_index off mx) as He.
    assert (edge off (bucket_index off mx)
            <= edge off (i0 - 1 + Z.of_nat (S m))).
    { unfold edge.
      pose proof (bucket_label_mono off (bucket_index off mx)
                    (i0 - 1 + Z.of_nat (S m)) ltac:(lia)).
      pose proof NS_PER_DAY_pos. nia. }
    lia.
Qed.
End Bins.

Lemma get_time_bins_day a0 rest :
  let ax := a0 :: rest in
  let i0 := bucket_index Day (list_min a0 ax) in
  exists m,
    _get_time_bins Day ax
    = Ok (scan_bins true ax 0 (List.map (edge Day) (zrange i0 (S m))),
          List.map (bucket_label Day) (zrange i0 (S m))) /\
    bucket_index Day (list_max a0 ax) <= i0 + Z.of_nat m.
Proof.
  intros ax i0. set (mn := list_min a0 ax) in *. set (mx := list_max a0 ax).
  assert (Hmn : mn <= mx) by (apply list_min_max; now left).
  pose proof (bucket_index_mono Day mn mx Hmn) as Hi. fold i0 in Hi.
  set (m := Z.to_nat (bucket_index Day mx - i0)).
  exists m. unfold _get_time_bins.
  change (match ax with [] => ?x | a1 :: _ => @?f a1 end) with (f a0).
  cbv beta. fold mn. fold mx.
  rewrite day_edges. cbv iota beta. fold i0.
  rewrite date_range_labels by lia.
  replace (Z.to_nat (bucket_index Day mx + 1 - i0)) with (S m) by lia.
  rewrite adjust_day. cbn [rbind]. cbv iota beta.
  change (zrange i0 (S (S m))) with (i0 :: zrange (i0 + 1) (S m)) at 1.
  cbn [List.map].
  change ax with (a0 :: rest) at 1.
  rewrite generate_bins_ok; fold ax.
  - cbn [rbind closed_right]. rewrite scan_bins_left, map_pred_labels_day.
    rewrite scan_bins_length, !length_map, !zrange_length.
    replace (S m <? S (S m))%nat with true by (symmetry; apply Nat.ltb_lt; lia).
    rewrite firstn_map, firstn_zrange.
    split; [reflexivity | lia].
  - cbn [bucket_label]. pose proof (midnight_date_of mn) as H.
    assert (mn <= a0) by (apply list_min_le; now left).
    unfold i0. cbn [bucket_index]. lia.
  - change (bucket_label Day i0 :: List.map (bucket_label Day) (zrange (i0 + 1) (S m)))
      with (List.map (bucket_label Day) (zrange i0 (S (S m)))).
    rewrite (last_map (bucket_label Day)), last_zrange.
    assert (last ax a0 <= mx) by (apply list_max_ge, last_In; discriminate).
    pose proof (midnight_date_of mx) as H1.
    cbn [bucket_label]. unfold i0 in *. cbn [bucket_index] in *.
    rewrite <- midnight_succ in H1.
    assert (midnight (date_of mx + 1) <= midnight (date_of mn + Z.of_nat (S m)))
      by (apply (proj1 (midnight_le _ _)); lia).
    lia.
Qed.

Lemma sort_nonempty (times : list Z) :
  times <> [] -> exists a0 rest, sort Z.leb times = a0 :: rest.
Proof.
  intros H. destruct (sort Z.leb times) as [|a0 rest] eqn:E; [|eauto].
  apply (f_equal (@List.length Z)) in E.
  change (sort Z.leb times) with (sort (fun x y => (fun z => z) x <=? (fun z => z) y) times) in E.
  rewrite (sort_length (fun z => z)) in E.
  destruct times; [congruence | discriminate].
Qed.

Lemma count_bucket_perm off i l l' :
  Permutation l l' -> count_bucket off i l = count_bucket off i l'.
Proof.
  intros H. unfold count_bucket. f_equal. apply Permutation_length.
  induction H; cbn [filter].
  - constructor.
  - destruct (_ =? _); [now constructor | assumption].
  - destruct (_ =? _), (_ =? _); try reflexivity; apply perm_swap.
  - etransitivity; eassumption.
Qed.

(** The series of a binned grouping: one row per bucket, from the bucket
    of the earliest timestamp to a bucket not before that of the latest
    one, each with the number of timestamps it holds. *)
Lemma grouper_size_series off times :
  times <> [] ->
  exists i0 m,
    grouper_size off times = Ok (bucket_series off times i0 (S m)) /\
    (forall t, In t times ->
       i0 <= bucket_index off t <= i0 + Z.of_nat m).
Proof.
  intros Hne. destruct (sort_nonempty times Hne) as (a0 & rest & Hax).
  assert (Hperm : Permutation (a0 :: rest) times)
    by (rewrite <- Hax; apply sort_Zleb_perm).
  assert (Hsorted : StronglySorted Z.le (a0 :: rest))
    by (rewrite <- Hax; apply sort_Zleb_sorted).
  unfold grouper_size. rewrite Hax.
  set (i0 := bucket_index off (list_min a0 (a0 :: rest))).
  assert (Hbins : exists m,
    _get_time_bins off (a0 :: rest)
    = Ok (scan_bins true (a0 :: rest) 0 (List.map (edge off) (zrange i0 (S m))),
          List.map (bucket_label off) (zrange i0 (S m))) /\
    bucket_index off (list_max a0 (a0 :: rest)) <= i0 + Z.of_nat m).
  { destruct (closed_right off) eqn:Hoff.
    - now apply get_time_bins_right.
    - destruct off; try discriminate. apply get_time_bins_day. }
  destruct Hbins as (m & -> & Hm). cbn [rbind]. cbv iota beta.
  exists i0, m. split.
  - rewrite (series_of_scan off a0 rest Hsorted). unfold bucket_series.
    apply f_equal. apply map_ext. intros i. apply f_equal.
    now apply count_bucket_perm.
  - intros t Ht. apply (Permutation_in _ (Permutation_sym Hperm)) in Ht.
    pose proof (ax_bounds a0 rest t Ht) as [H1 H2].
    apply (bucket_index_mono off) in H1, H2. fold i0 in H1. lia.
Qed.

(** ** Commit trend *)

Lemma grouper_size_empty off : grouper_size off [] = Ok [].
Proof. reflexivity. Qed.

Lemma grouper_size_ok off times : exists series, grouper_size off times = Ok series.
Proof.
  destruct times as [|t times]; [exists []; apply grouper_size_empty|].
  destruct (grouper_size_series off (t :: times)) as (i0 & m & H & _);
    [discriminate | eauto].
Qed.

Lemma grouper_size_nonempty off times :
  times <> [] ->
  exists series, grouper_size off times = Ok series /\ series <> [].
Proof.
  intros Hne. destruct (grouper_size_series off times Hne) as (i0 & m & H & _).
  eexists. split; [exact H|]. discriminate.
Qed.

Lemma supported_cases freq :
  mem freq SUPPORTED_PERIODS = true ->
  freq = py "ME" \/ freq = py "W" \/ freq = py "D".
Proof.
  unfold SUPPORTED_PERIODS. cbn [mem]. rewrite !orb_true_iff, !str_eqb_eq.
  intros [H|[H|[H|H]]]; auto. discriminate.
Qed.

Lemma str_eqb_sym a b : str_eqb a b = str_eqb b a.
Proof.
  destruct (str_eqb_spec a b), (str_eqb_spec b a); congruence.
Qed.

Lemma unsupported_lookup freq :
  mem freq SUPPORTED_PERIODS = false ->
  to_offset freq = None /\ dict_get freq_labels freq = Raise (KeyError freq).
Proof.
  unfold SUPPORTED_PERIODS. cbn [mem]. rewrite !orb_false_iff.
  intros (H1 & H2 & H3 & _).
  unfold to_offset, freq_labels. cbn [dict_get].
  rewrite (str_eqb_sym (py "ME")), (str_eqb_sym (py "W")), (str_eqb_sym (py "D")).
  rewrite H1, H2, H3. auto.
Qed.

Lemma analyze_commit_trend_run env freq st df times g series label :
  commits_df (self st) = Some df ->
  getitem df (py "commit_time") = Ok (ColTime times) ->
  Grouper env freq = Ok g ->
  g times = Ok series ->
  dict_get freq_labels freq = Ok label ->
  series <> [] ->
  analyze_commit_trend env freq st =
  (Ok tt,
   mkState (with_frame (self st)
              (setitem df (py "commit_date") (ColDate (List.map date_of times))))
           (mkWorld (trend_path freq :: w_paths (world st)) (w_repos (world st))
                    (w_trace (world st) ++ trend_events freq series label))).
Proof.
  intros Hdf Ht Hg Hs Hl Hne.
  unfold analyze_commit_trend. msimpl. rewrite Hdf. msimpl.
  rewrite Ht. cbn [dt_date]. msimpl. rewrite Hg. msimpl.
  rewrite getitem_setitem_other by neq_str. rewrite Ht. cbn [time_values]. msimpl.
  rewrite Hs. msimpl. destruct series as [|p series']; [congruence|]. msimpl.
  rewrite Hl. msimpl.
  unfold with_frame, trend_events. rewrite <- !app_assoc. reflexivity.
Qed.

(** The plot of an empty series fails, before the label is looked up. *)
Lemma analyze_commit_trend_empty env freq st df times g :
  commits_df (self st) = Some df ->
  getitem df (py "commit_time") = Ok (ColTime times) ->
  Grouper env freq = Ok g ->
  g times = Ok [] ->
  analyze_commit_trend env freq st =
  (Raise (ValueError (library_message env EmptyLinePlot)),
   mkState (with_frame (self st)
              (setitem df (py "commit_date") (ColDate (List.map date_of times))))
           (mkWorld (w_paths (world st)) (w_repos (world st))
              (w_trace (world st)
               ++ [ Echo (MsgHeading Trend); Echo (MsgTrend freq []); Figure ]))).
Proof.
  intros Hdf Ht Hg Hs.
  unfold analyze_commit_trend. msimpl. rewrite Hdf. msimpl.
  rewrite Ht. cbn [dt_date]. msimpl. rewrite Hg. msimpl.
  rewrite getitem_setitem_other by neq_str. rewrite Ht. cbn [time_values]. msimpl.
  rewrite Hs. msimpl.
  unfold with_frame. rewrite <- !app_assoc. reflexivity.
Qed.

Lemma analyze_commit_trend_unsupported env freq st df times :
  commits_df (self st) = Some df ->
  getitem df (py "commit_time") = Ok (ColTime times) ->
  mem freq SUPPORTED_PERIODS = false ->
  let a' := with_frame (self st)
              (setitem df (py "commit_date") (ColDate (List.map date_of times))) in
  analyze_commit_trend env freq st =
  match other_freq env freq with
  | Some f =>
      match f times with
      | [] =>
          (Raise (ValueError (library_message env EmptyLinePlot)),
           mkState a'
             (mkWorld (w_paths (world st)) (w_repos (world st))
                (w_trace (world st)
                 ++ [ Echo (MsgHeading Trend); Echo (MsgTrend freq []);
                      Figure ])))
      | _ :: _ =>
          (Raise (KeyError freq),
           mkState a'
             (mkWorld (w_paths (world st)) (w_repos (world st))
                (w_trace (world st)
                 ++ [ Echo (MsgHeading Trend);
                      Echo (MsgTrend freq (tail 10 (f times)));
                      Figure; PlotLine (f times) ])))
      end
  | None =>
      (Raise (ValueError (library_message env (InvalidFrequency freq))),
       mkState a'
         (mkWorld (w_paths (world st)) (w_repos (world st))
            (w_trace (world st) ++ [Echo (MsgHeading Trend)])))
  end.
Proof.
  intros Hdf Ht Hfreq a'. subst a'.
  destruct (unsupported_lookup freq Hfreq) as [Hoff Hlabel].
  unfold analyze_commit_trend. msimpl. rewrite Hdf. msimpl.
  rewrite Ht. cbn [dt_date]. msimpl. unfold Grouper. rewrite Hoff.
  destruct (other_freq env freq) as [f|]; msimpl.
  - rewrite getitem_setitem_other by neq_str. rewrite Ht. cbn [time_values].
    msimpl. destruct (f times) as [|p series']; msimpl.
    + unfold with_frame. rewrite <- !app_assoc. reflexivity.
    + rewrite Hlabel. msimpl.
      unfold with_frame. rewrite <- !app_assoc. reflexivity.
  - reflexivity.
Qed.

Lemma supported_offset freq :
  mem freq SUPPORTED_PERIODS = true ->
  exists off label,
    to_offset freq = Some off /\ dict_get freq_labels freq = Ok label.
Proof.
  intros H. destruct (supported_cases freq H) as [-> | [-> | ->]];
    eexists _, _; split; reflexivity.
Qed.

(** C3 (amended).  On a table with timestamps, a period outside [ME], [W],
    [D] makes the commit trend raise (the label lookup fails, or pandas
    raises [ValueError]) without writing any file.  Each of the three
    periods makes it succeed on a table with at least one row, the chart
    title carrying the label of the lookup table and the chart being saved
    under the name of the period; on a table without rows the plot of the
    empty series raises [ValueError] and no file is written. *)
Theorem commit_trend_period env st df times freq :
  commits_df (self st) = Some df ->
  getitem df (py "commit_time") = Ok (ColTime times) ->
  let res := analyze_commit_trend env freq st in
  (mem freq SUPPORTED_PERIODS = false ->
     (exists e, fst res = Raise e /\ ConfigurationError freq e) /\
     w_paths (world (snd res)) = w_paths (world st) /\
     exists delta,
       w_trace (world (snd res)) = w_trace (world st) ++ delta /\
       filter is_savefig delta = []) /\
  (mem freq SUPPORTED_PERIODS = true ->
     (times <> [] ->
      fst res = Ok tt /\
      exists label series,
        dict_get freq_labels freq = Ok label /\
        w_trace (world (snd res))
        = w_trace (world st) ++ trend_events freq series label /\
        In (SetTitle (TitleTrend label)) (trend_events freq series label) /\
        In (Savefig (trend_path freq)) (trend_events freq series label) /\
        mem (trend_path freq) (w_paths (world (snd res))) = true) /\
     (times = [] ->
      (exists e, fst res = Raise e /\ exn_type e = py "ValueError") /\
      w_paths (world (snd res)) = w_paths (world st) /\
      exists delta,
        w_trace (world (snd res)) = w_trace (world st) ++ delta /\
        filter is_savefig delta = [])).
Proof.
  intros Hdf Ht res. subst res. split; intros Hfreq.
  - rewrite (analyze_commit_trend_unsupported env freq st df times Hdf Ht Hfreq).
    unfold ConfigurationError. cbv zeta.
    destruct (other_freq env freq) as [f|]; [destruct (f times)|];
      cbn [fst snd world w_paths w_trace];
      (split; [eexists; split; [reflexivity | auto]|]);
      (split; [reflexivity|]); eexists; split; reflexivity.
  - destruct (supported_offset freq Hfreq) as (off & label & Hoff & Hlabel).
    split.
    + intros Hne.
      destruct (grouper_size_nonempty off times Hne) as (series & Hseries & Hs).
      rewrite (analyze_commit_trend_run env freq st df times
                 (grouper_size off) series label Hdf Ht);
        [| unfold Grouper; now rewrite Hoff | exact Hseries | exact Hlabel
         | exact Hs].
      cbn [fst snd world w_paths w_trace]. split; [reflexivity|].
      exists label, series. split; [exact Hlabel|]. split; [reflexivity|].
      split; [cbn; tauto|]. split; [cbn; tauto|].
      cbn [mem]. now rewrite str_eqb_refl.
    + intros ->.
      rewrite (analyze_commit_trend_empty env freq st df []
                 (grouper_size off) Hdf Ht);
        [| unfold Grouper; now rewrite Hoff | apply grouper_size_empty].
      cbn [fst snd world w_paths w_trace].
      split; [eexists; split; reflexivity|].
      split; [reflexivity|]. eexists; split; reflexivity.
Qed.

Lemma label_of_eqb off r t :
  (label_of off r =? label_of off t)
  = (bucket_index off r =? bucket_index off t).
Proof.
  rewrite !label_of_index.
  destruct (Z.eqb_spec (bucket_index off r) (bucket_index off t)) as [->|Hne].
  - apply Z.eqb_refl.
  - apply Z.eqb_neq. intros E. apply bucket_label_inj in E. contradiction.
Qed.

Lemma count_in_bucket off t times :
  count_in off (label_of off t) times
  = count_bucket off (bucket_index off t) times.
Proof.
  unfold count_in, count_bucket. do 2 f_equal.
  apply filter_ext. intros r. apply label_of_eqb.
Qed.

Lemma bucket_series_labels off times i0 m :
  StronglySorted Z.lt (List.map fst (bucket_series off times i0 m)).
Proof.
  unfold bucket_series. rewrite map_map. cbn [fst].
  revert i0; induction m as [|m IH]; intros i0; cbn [zrange List.map];
    constructor; [apply IH|].
  apply Forall_forall. intros l Hl. apply in_map_iff in Hl.
  destruct Hl as (j & <- & Hj). apply zrange_In in Hj.
  apply bucket_label_lt. lia.
Qed.

(** C7.  On a table with timestamps, for each of the three periods, the
    series that the commit trend plots has one row for every bucket between
    the earliest and the latest commit: the bucket of any instant that lies
    between two commit timestamps is in the series with the number of
    commits it holds, which is zero for a bucket without commits; the rows
    are in ascending order of their labels. *)
Theorem commit_trend_dense env st df times freq off :
  commits_df (self st) = Some df ->
  getitem df (py "commit_time") = Ok (ColTime times) ->
  times <> [] ->
  to_offset freq = Some off ->
  let res := analyze_commit_trend env freq st in
  exists series,
    fst res = Ok tt /\
    In (PlotLine series) (w_trace (world (snd res))) /\
    grouper_size off times = Ok series /\
    StronglySorted Z.lt (List.map fst series) /\
    forall t u v, In u times -> In v times -> u <= t <= v ->
      In (label_of off t, count_in off (label_of off t) times) series.
Proof.
  intros Hdf Ht Hne Hoff res. subst res.
  destruct (grouper_size_series off times Hne) as (i0 & m & Hseries & Hrange).
  exists (bucket_series off times i0 (S m)).
  assert (Hlabel : exists label, dict_get freq_labels freq = Ok label).
  { unfold to_offset in Hoff. unfold freq_labels. cbn [dict_get].
    rewrite (str_eqb_sym (py "ME")), (str_eqb_sym (py "W")), (str_eqb_sym (py "D")).
    destruct (str_eqb freq (py "ME")); [eauto|].
    destruct (str_eqb freq (py "W")); [eauto|].
    destruct (str_eqb freq (py "D")); [eauto | discriminate]. }
  destruct Hlabel as [label Hlabel].
  rewrite (analyze_commit_trend_run env freq st df times
             (grouper_size off) (bucket_series off times i0 (S m)) label Hdf Ht);
    [| unfold Grouper; now rewrite Hoff | exact Hseries | exact Hlabel
     | discriminate].
  cbn [fst snd world w_trace]. split; [reflexivity|].
  split; [apply in_or_app; right; cbn; tauto|].
  split; [exact Hseries|]. split; [apply bucket_series_labels|].
  intros t u v Hu Hv Htuv. rewrite count_in_bucket, label_of_index.
  unfold bucket_series. apply in_map_iff.
  exists (bucket_index off t). split; [reflexivity|].
  apply zrange_In.
  pose proof (Hrange u Hu). pose proof (Hrange v Hv).
  pose proof (bucket_index_mono off u t ltac:(lia)).
  pose proof (bucket_index_mono off t v ltac:(lia)). lia.
Qed.

Lemma commit_trend_period_witness :
  let st := TableSamples.with_table TrendSamples.jan_mar_table in
  (commits_df (self st) = Some TrendSamples.jan_mar_table /\
   getitem TrendSamples.jan_mar_table (py "commit_time")
   = Ok (ColTime TrendSamples.jan_mar_times) /\
   mem (py "Q") SUPPORTED_PERIODS = false /\
   mem (py "W") SUPPORTED_PERIODS = true /\
   TrendSamples.jan_mar_times <> []) /\
  fst (analyze_commit_trend TrendSamples.env_q (py "Q") st) = Raise (KeyError (py "Q")) /\
  w_paths (world (snd (analyze_commit_trend TrendSamples.env_q (py "Q") st))) = [] /\
  fst (analyze_commit_trend TrendSamples.env_q (py "W") st) = Ok tt /\
  exists label series,
    dict_get freq_labels (py "W") = Ok label /\
    w_trace (world (snd (analyze_commit_trend TrendSamples.env_q (py "W") st)))
    = [] ++ trend_events (py "W") series label.
Proof.
  cbv zeta.
  split; [repeat split; try reflexivity; discriminate|].
  destruct (commit_trend_period TrendSamples.env_q
              (TableSamples.with_table TrendSamples.jan_mar_table)
              TrendSamples.jan_mar_table TrendSamples.jan_mar_times (py "Q")
              eq_refl eq_refl) as [HQ _].
  destruct (commit_trend_period TrendSamples.env_q
              (TableSamples.with_table TrendSamples.jan_mar_table)
              TrendSamples.jan_mar_table TrendSamples.jan_mar_times (py "W")
              eq_refl eq_refl) as [_ HW].
  destruct (HQ eq_refl) as (_ & Hpaths & _).
  destruct (HW eq_refl) as [HW' _].
  destruct HW' as (Hok & label & series & Hlabel & Htrace & _); [discriminate|].
  split; [vm_compute; reflexivity|].
  split; [exact Hpaths|]. split; [exact Hok|].
  exists label, series. split; assumption.
Defined.

(** C3 (as stated) fails: on a table without rows the commit trend of the
    supported period [ME] does not succeed; the plot of the empty series
    raises [ValueError] and no chart is written. *)
Lemma commit_trend_empty_table :
  let st := TableSamples.with_table TableSamples.empty_table in
  let res := analyze_commit_trend CloneSamples.env_public (py "ME") st in
  mem (py "ME") SUPPORTED_PERIODS = true /\
  getitem TableSamples.empty_table (py "commit_time") = Ok (ColTime []) /\
  fst res <> Ok tt /\
  (exists e, fst res = Raise e /\ exn_type e = py "ValueError") /\
  w_trace (world (snd res))
  = [Echo (MsgHeading Trend); Echo (MsgTrend (py "ME") []); Figure] /\
  w_paths (world (snd res)) = [].
Proof.
  cbv zeta. split; [reflexivity|]. split; [reflexivity|].
  split; [vm_compute; discriminate|].
  split; [eexists; split; vm_compute; reflexivity|].
  split; vm_compute; reflexivity.
Qed.

Lemma commit_trend_dense_witness :
  let st := TableSamples.with_table TrendSamples.jan_mar_table in
  (commits_df (self st) = Some TrendSamples.jan_mar_table /\
   getitem TrendSamples.jan_mar_table (py "commit_time")
   = Ok (ColTime TrendSamples.jan_mar_times) /\
   TrendSamples.jan_mar_times <> [] /\
   to_offset (py "ME") = Some MonthEnd) /\
  exists series,
    grouper_size MonthEnd TrendSamples.jan_mar_times = Ok series /\
    series = [ (TrendSamples.month_end 2024 1 31, 2);
               (TrendSamples.month_end 2024 2 29, 0);
               (TrendSamples.month_end 2024 3 31, 1) ] /\
    In (TrendSamples.month_end 2024 2 29, 0) series.
Proof.
  cbv zeta.
  split; [split; [reflexivity | split; [reflexivity | split; [discriminate | reflexivity]]]|].
  destruct (commit_trend_dense CloneSamples.env_public
              (TableSamples.with_table TrendSamples.jan_mar_table)
              TrendSamples.jan_mar_table TrendSamples.jan_mar_times (py "ME") MonthEnd
              eq_refl eq_refl ltac:(discriminate) eq_refl)
    as (series & _ & _ & Hseries & _ & Hdense).
  exists series. split; [exact Hseries|]. split.
  - assert (E : grouper_size MonthEnd TrendSamples.jan_mar_times
                = Ok [ (TrendSamples.month_end 2024 1 31, 2);
                       (TrendSamples.month_end 2024 2 29, 0);
                       (TrendSamples.month_end 2024 3 31, 1) ])
      by (vm_compute; reflexivity).
    rewrite E in Hseries. now injection Hseries.
  - pose proof (Hdense (to_datetime64 (datetime 2024 2 10 0 0 0))
                  (to_datetime64 (datetime 2024 1 10 9 0 0))
                  (to_datetime64 (datetime 2024 3 5 12 0 0))) as H.
    assert (E1 : label_of MonthEnd (to_datetime64 (datetime 2024 2 10 0 0 0))
                 = TrendSamples.month_end 2024 2 29) by (vm_compute; reflexivity).
    rewrite E1 in H.
    assert (E2 : count_in MonthEnd (TrendSamples.month_end 2024 2 29)
                   TrendSamples.jan_mar_times = 0) by (vm_compute; reflexivity).
    rewrite E2 in H. apply H.
    + cbn. tauto.
    + cbn. tauto.
    + vm_compute. split; discriminate.
Defined.

(* ================================================================== *)
(** * Failures, totals and the full run

    What the methods do beyond the statements above: how they fail, what
    they write, what their numbers add up to, and how they compose. *)

(** ** [fix_git_ownership] *)

Lemma replace_fuel_char fuel (a b : N) s :
  (List.length s < fuel)%nat ->
  replace_fuel fuel [a] [b] s = List.map (fun c => if (c =? a)%N then b else c) s.
Proof.
  revert s; induction fuel as [|fuel IH]; intros s Hlen; [lia|].
  destruct s as [|c s]; [reflexivity|].
  cbn [replace_fuel startswith List.map List.length skipn app] in *.
  rewrite (N.eqb_sym a c).
  destruct (c =? a)%N; cbn [andb]; rewrite IH by lia; reflexivity.
Qed.

Lemma replace_char (a b : N) s :
  replace [a] [b] s = List.map (fun c => if (c =? a)%N then b else c) s.
Proof. unfold replace. apply replace_fuel_char. lia. Qed.

Lemma unix_path_no_backslash path : ~ In BACKSLASH (unix_path path).
Proof.
  unfold unix_path. intros H. apply in_map_iff in H. destruct H as (c & Hc & _).
  destruct (c =? BACKSLASH)%N eqn:E; [discriminate|].
  apply N.eqb_neq in E. congruence.
Qed.

(** X1.  [fix_git_ownership] never raises, whatever the outcome of the
    [git] command: it issues one command, on the path with every backslash
    replaced by a slash and nothing else changed, prints one line that
    reports the outcome, and leaves the analyzer, the paths and the
    repositories as they are. *)
Theorem fix_git_ownership_never_fails env path st :
  let res := fix_git_ownership env path st in
  let command := py "git config --global --add safe.directory " ++ unix_path path in
  fst res = Ok tt /\
  self (snd res) = self st /\
  w_paths (world (snd res)) = w_paths (world st) /\
  w_repos (world (snd res)) = w_repos (world st) /\
  w_trace (world (snd res))
  = w_trace (world st)
    ++ [ GitExecute command;
         Echo (match git_execute env command with
               | Ok _ => MsgSafeDirectory (unix_path path)
               | Raise e => MsgSafeDirectoryFailed (exn_str e)
               end) ] /\
  ~ In BACKSLASH (unix_path path) /\
  List.length (unix_path path) = List.length path.
Proof.
  cbv zeta. rewrite fix_git_ownership_run. cbn [fst snd self world w_paths w_repos w_trace].
  unfold fix_trace, safe_directory_command.
  change (py "/") with [SLASH]. change [92%N] with [BACKSLASH].
  rewrite replace_char. fold (unix_path path).
  repeat split.
  - destruct (git_execute env _); reflexivity.
  - apply unix_path_no_backslash.
  - apply length_map.
Qed.

(** ** The outcomes of [clone_repo] *)

(** X2.  [clone_repo] returns exactly when the local path exists and holds
    a repository, or does not exist and the fetch succeeds.  When it raises,
    the error is [InvalidGitRepositoryError] for an existing path and the
    error of the fetch otherwise, and the analyzer is unchanged ([self.repo]
    is not assigned).  In every case the safe-directory command on the
    absolute local path comes first. *)
Theorem clone_repo_outcome env st :
  let a := self st in
  let w := world st in
  let p := local_repo_path a in
  let u := fetch_address env (repo_url a) in
  let res := clone_repo env st in
  (fst res = Ok tt <->
   if mem p (w_paths w) then is_ok (dict_get (w_repos w) p) = true
   else is_ok (remote env u) = true) /\
  (forall e, fst res = Raise e ->
     (if mem p (w_paths w) then exn_type e = py "InvalidGitRepositoryError"
      else remote env u = Raise e) /\
     self (snd res) = a) /\
  exists rest,
    w_trace (world (snd res))
    = w_trace w ++ fix_trace env (abspath env p) ++ rest.
Proof.
  cbv zeta.
  destruct (mem (local_repo_path (self st)) (w_paths (world st))) eqn:Hp.
  - rewrite (clone_repo_present env st Hp).
    destruct (dict_get _ _) as [r|e0]; cbn [fst snd is_ok self world w_trace].
    + split; [tauto|]. split; [discriminate | eauto].
    + split; [split; discriminate|].
      split; [intros e [= <-]; auto | eauto].
  - rewrite (clone_repo_absent env st Hp).
    destruct (remote env _) as [r|e0]; cbn [fst snd is_ok self world w_trace].
    + split; [tauto|]. split; [discriminate | eauto].
    + split; [split; discriminate|].
      split; [intros e [= <-]; auto | eauto].
Qed.

Lemma clone_repo_outcome_witness :
  fst (clone_repo TrendSamples.env_q (CloneSamples.fresh Samples.URL))
  = Raise Samples.GitCommandError /\
  self (snd (clone_repo TrendSamples.env_q (CloneSamples.fresh Samples.URL)))
  = __init__ Samples.URL DEFAULT_LOCAL_REPO_PATH.
Proof.
  assert (E : fst (clone_repo TrendSamples.env_q (CloneSamples.fresh Samples.URL))
              = Raise Samples.GitCommandError) by (vm_compute; reflexivity).
  split; [exact E|].
  destruct (clone_repo_outcome TrendSamples.env_q (CloneSamples.fresh Samples.URL))
    as (_ & H & _).
  destruct (H _ E) as (_ & Hs). exact Hs.
Defined.

(** X3.  After a [clone_repo] that returned, a second [clone_repo] returns
    too, without fetching: it opens the local copy, reports that it was
    loaded, and leaves the analyzer, the paths and the repositories as the
    first call left them. *)
Theorem clone_repo_then_load env st st1 :
  clone_repo env st = (Ok tt, st1) ->
  exists st2 delta,
    clone_repo env st1 = (Ok tt, st2) /\
    self st2 = self st1 /\
    w_paths (world st2) = w_paths (world st1) /\
    w_repos (world st2) = w_repos (world st1) /\
    w_trace (world st2) = w_trace (world st1) ++ delta /\
    filter is_fetch delta = [] /\
    In (OpenRepo (local_repo_path (self st))) delta /\
    last delta Sleep = Echo MsgLoaded.
Proof.
  intros Hrun.
  assert (Hself : exists r,
    self st1 = mkAnalyzer (repo_url (self st)) (local_repo_path (self st))
                          (Some r) (commits_df (self st)) /\
    mem (local_repo_path (self st)) (w_paths (world st1)) = true /\
    dict_get (w_repos (world st1)) (local_repo_path (self st)) = Ok r).
  { destruct (mem (local_repo_path (self st)) (w_paths (world st))) eqn:Hp.
    - rewrite (clone_repo_present env st Hp) in Hrun.
      destruct (dict_get _ _) as [r|e0] eqn:Hr; [|discriminate].
      injection Hrun as <-. exists r. cbn [self world w_paths w_repos]. auto.
    - rewrite (clone_repo_absent env st Hp) in Hrun.
      destruct (remote env _) as [r|e0]; [|discriminate].
      injection Hrun as <-. exists r. cbn [self world w_paths w_repos mem dict_get].
      rewrite str_eqb_refl. auto. }
  destruct Hself as (r & Hs & Hp & Hr).
  assert (Hp1 : mem (local_repo_path (self st1)) (w_paths (world st1)) = true)
    by (rewrite Hs; exact Hp).
  pose proof (clone_repo_present env st1 Hp1) as H1. cbv zeta in H1.
  assert (Hl : local_repo_path (self st1) = local_repo_path (self st))
    by now rewrite Hs.
  rewrite Hl, Hr in H1.
  eexists _, _. split; [exact H1|]. cbn [self world w_paths w_repos w_trace].
  split; [now rewrite Hs|].
  split; [reflexivity|]. split; [reflexivity|]. split; [reflexivity|].
  rewrite filter_is_fetch_app, fix_trace_no_fetch. split; [reflexivity|].
  split.
  - apply in_or_app. right. now left.
  - unfold fix_trace. cbv zeta. cbn [app].
    destruct (git_execute env _); reflexivity.
Qed.

Lemma clone_repo_then_load_witness :
  exists st1 st2,
    clone_repo CloneSamples.env_token (CloneSamples.fresh Samples.URL) = (Ok tt, st1) /\
    clone_repo CloneSamples.env_token st1 = (Ok tt, st2) /\
    self st2 = self st1 /\
    filter is_fetch (w_trace (world st2)) = filter is_fetch (w_trace (world st1)).
Proof.
  assert (E : clone_repo CloneSamples.env_token (CloneSamples.fresh Samples.URL)
              = (Ok tt, snd (clone_repo CloneSamples.env_token
                               (CloneSamples.fresh Samples.URL))))
    by (vm_compute; reflexivity).
  destruct (clone_repo_then_load _ _ _ E)
    as (st2 & delta & H2 & Hs & _ & _ & Ht & Hf & _).
  eexists _, st2. split; [exact E|]. split; [exact H2|]. split; [exact Hs|].
  rewrite Ht, filter_is_fetch_app, Hf, app_nil_r. reflexivity.
Defined.

Lemma print_of_app l1 l2 :
  flat_map print_of (l1 ++ l2) = flat_map print_of l1 ++ flat_map print_of l2.
Proof. apply flat_map_app. Qed.

(** X4.  What [clone_repo] prints: the line of the safe-directory
    command, then, when the local path does not exist, the line that
    announces the clone, which shows the reference as it was given, and at
    last the line that reports the clone or the load when the method
    returns.  The address with the access token is handed to the fetch and
    to nothing else: the only fetch is the one of the missing local path,
    from the fetch address. *)
Theorem clone_repo_console env st :
  let a := self st in
  let p := local_repo_path a in
  let res := clone_repo env st in
  exists delta,
    w_trace (world (snd res)) = w_trace (world st) ++ delta /\
    flat_map print_of delta
    = flat_map print_of (fix_trace env (abspath env p))
      ++ (if mem p (w_paths (world st)) then []
          else [MsgCloning (repo_url a)])
      ++ (if is_ok (fst res)
          then [if mem p (w_paths (world st)) then MsgLoaded else MsgCloned]
          else []) /\
    forall u q, In (CloneFrom u q) delta ->
      u = fetch_address env (repo_url a) /\ q = p /\
      mem p (w_paths (world st)) = false.
Proof.
  cbv zeta.
  assert (Hfix : forall u q, ~ In (CloneFrom u q)
                               (fix_trace env (abspath env (local_repo_path (self st))))).
  { intros u q. unfold fix_trace. cbv zeta.
    destruct (git_execute env _); cbn [In]; intros [H|[H|[]]]; discriminate. }
  destruct (mem (local_repo_path (self st)) (w_paths (world st))) eqn:Hp.
  - rewrite (clone_repo_present env st Hp).
    destruct (dict_get _ _) as [r|e0]; cbn [fst snd is_ok world w_trace];
      eexists; (split; [reflexivity|]); rewrite print_of_app;
      (split; [reflexivity|]); intros u q Hin; exfalso;
      apply in_app_or in Hin; destruct Hin as [Hin|Hin];
      try (now apply (Hfix u q)); cbn [In] in Hin; intuition discriminate.
  - rewrite (clone_repo_absent env st Hp).
    destruct (remote env _) as [r|e0]; cbn [fst snd is_ok world w_trace];
      eexists; (split; [reflexivity|]); rewrite print_of_app;
      (split; [reflexivity|]); intros u q Hin;
      apply in_app_or in Hin; destruct Hin as [Hin|Hin];
      try (exfalso; now apply (Hfix u q)); cbn [In] in Hin;
      destruct Hin as [Hin|[Hin|Hin]]; try discriminate;
      try (injection Hin as <- <-; auto); try (destruct Hin as [Hin|[]]; discriminate);
      try contradiction.
Qed.

(** ** The records and the pauses of the walk *)

(** ** [strip] *)

Lemma lstrip_head s : match lstrip s with [] => True | c :: _ => isspace c = false end.
Proof.
  induction s as [|c s IH]; cbn [lstrip]; [exact I|].
  destruct (isspace c) eqn:E; [exact IH | exact E].
Qed.

Lemma lstrip_suffix s :
  exists pre, s = pre ++ lstrip s /\ Forall (fun c => isspace c = true) pre.
Proof.
  induction s as [|c s (pre & IH & Hpre)]; cbn [lstrip]; [now exists []|].
  destruct (isspace c) eqn:E.
  - exists (c :: pre). cbn [app]. split; [now f_equal | now constructor].
  - now exists [].
Qed.

Lemma lstrip_fixed c s : isspace c = false -> lstrip (c :: s) = c :: s.
Proof. intros H. cbn [lstrip]. now rewrite H. Qed.

Lemma last_rev_cons {A} (x d : A) l : last (rev (x :: l)) d = x.
Proof. cbn [rev]. apply last_last. Qed.

Lemma hd_app_nonempty {A} (d : A) l1 l2 : l1 <> [] -> hd d (l1 ++ l2) = hd d l1.
Proof. destruct l1; [congruence | reflexivity]. Qed.

Lemma strip_stripped s : stripped (strip s).
Proof.
  unfold strip.
  pose proof (lstrip_head s) as Hu.
  destruct (lstrip_suffix (rev (lstrip s))) as (pre & Hpre & _).
  pose proof (lstrip_head (rev (lstrip s))) as Hv.
  destruct (lstrip (rev (lstrip s))) as [|x v] eqn:Ev; [exact I|].
  (* [rev (x :: v)] is a non-empty prefix of [lstrip s] *)
  assert (Hu' : lstrip s = rev (x :: v) ++ rev pre).
  { rewrite <- (rev_involutive (lstrip s)), Hpre, rev_app_distr. reflexivity. }
  destruct (rev (x :: v)) as [|c t] eqn:Er.
  { apply (f_equal (@List.length _)) in Er. rewrite length_rev in Er. discriminate. }
  unfold stripped. split.
  - rewrite Hu' in Hu. exact Hu.
  - rewrite <- Er, last_rev_cons. exact Hv.
Qed.

Lemma strip_fixed s : stripped s -> strip s = s.
Proof.
  destruct s as [|c s]; [reflexivity|]. intros [Hc Hl]. unfold strip.
  rewrite (lstrip_fixed c s Hc).
  destruct (rev (c :: s)) as [|x v] eqn:Er.
  { apply (f_equal (@List.length _)) in Er. rewrite length_rev in Er. discriminate. }
  assert (Hx : last (c :: s) c = x).
  { rewrite <- (rev_involutive (c :: s)), Er. apply last_rev_cons. }
  rewrite Hx in Hl. rewrite (lstrip_fixed x v Hl), <- Er. apply rev_involutive.
Qed.

Lemma strip_infix s :
  exists pre post,
    s = pre ++ strip s ++ post /\
    Forall (fun c => isspace c = true) pre /\
    Forall (fun c => isspace c = true) post.
Proof.
  unfold strip.
  destruct (lstrip_suffix s) as (pre & Hpre & Hsp).
  destruct (lstrip_suffix (rev (lstrip s))) as (post & Hpost & Hsq).
  exists pre, (rev post).
  rewrite <- rev_app_distr, <- Hpost, rev_involutive.
  split; [exact Hpre|]. split; [exact Hsp|].
  apply Forall_forall. intros c Hc. apply in_rev in Hc.
  revert c Hc. now apply Forall_forall.
Qed.

Lemma strip_spaces s : Forall (fun c => isspace c = true) s -> strip s = [].
Proof.
  intros H. unfold strip.
  assert (E : lstrip s = []).
  { induction H as [|c s Hc _ IH]; [reflexivity|]. cbn [lstrip]. now rewrite Hc. }
  rewrite E. reflexivity.
Qed.

(** X5.  Every record that the walk keeps comes from a commit of the log:
    its hash is the first 8 characters of the identifier, its time lies in
    the years 1 to 9999, and its message is the message of the commit with
    the white space at both ends removed, and nothing else: it neither
    starts nor ends with white space and stripping it again changes
    nothing. *)
Theorem commit_record_invariants env commits info :
  In info (good_records env commits) ->
  exists c m,
    In c commits /\ message c = Ok m /\
    commit_hash info = firstn 8 (hexsha c) /\
    (List.length (commit_hash info) <= 8)%nat /\
    MINYEAR <= datetime_year (commit_time info) <= MAXYEAR /\
    stripped (commit_message info) /\
    strip (commit_message info) = commit_message info /\
    exists pre post,
      m = pre ++ commit_message info ++ post /\
      Forall (fun c => isspace c = true) pre /\
      Forall (fun c => isspace c = true) post.
Proof.
  intros Hin. apply good_records_In in Hin. destruct Hin as (c & Hc & Hinfo).
  unfold commit_info in Hinfo.
  destruct (author c) as [a|] eqn:Ha; [|discriminate].
  destruct (committed_date c) as [ts|] eqn:Hts; [|discriminate].
  cbn [rbind] in Hinfo. unfold fromtimestamp in Hinfo.
  destruct ((MINYEAR <=? datetime_year (ts + utcoffset env ts))
            && (datetime_year (ts + utcoffset env ts) <=? MAXYEAR)) eqn:Hy;
    [|discriminate].
  destruct (message c) as [m|] eqn:Hm; [|discriminate].
  destruct (stats c) as [s|] eqn:Hs; [|discriminate].
  cbn [rbind] in Hinfo.
  destruct (dict_get (total s) (py "insertions")) as [i|] eqn:Hi; [|discriminate].
  destruct (dict_get (total s) (py "deletions")) as [d|] eqn:Hd; [|discriminate].
  cbn [rbind] in Hinfo. injection Hinfo as <-.
  cbn [commit_hash commit_time commit_message].
  exists c, m.
  apply andb_true_iff in Hy. destruct Hy as [Hy1 Hy2].
  apply Z.leb_le in Hy1, Hy2.
  split; [exact Hc|]. split; [exact Hm|]. split; [reflexivity|].
  split; [change (List.length (firstn 8 (hexsha c)) <= 8)%nat;
          rewrite length_firstn; lia|].
  split; [lia|].
  split; [apply strip_stripped|].
  split; [apply strip_fixed, strip_stripped|].
  apply strip_infix.
Qed.

Lemma commit_record_invariants_witness :
  let info := mkCommitInfo (py "cccccccc") (py "Carol") (py "carol@example.org")
                           1700000100 (py "first draft") 4 9 in
  In info (good_records CloneSamples.env_public
             [LogSamples.c_new; LogSamples.c_bad; LogSamples.c_old]) /\
  stripped (commit_message info) /\
  (List.length (commit_hash info) <= 8)%nat.
Proof.
  cbv zeta.
  assert (H : In (mkCommitInfo (py "cccccccc") (py "Carol") (py "carol@example.org")
                               1700000100 (py "first draft") 4 9)
                 (good_records CloneSamples.env_public
                    [LogSamples.c_new; LogSamples.c_bad; LogSamples.c_old])).
  { vm_compute. right. left. reflexivity. }
  split; [exact H|].
  destruct (commit_record_invariants _ _ _ H) as (c & m & _ & _ & _ & Hl & _ & Hs & _).
  split; assumption.
Defined.

(** ** Pauses of the walk *)

Lemma sleeps_walk_events env commits : forall idx,
  0 <= idx ->
  Z.of_nat (List.length (filter is_sleep (walk_events env idx commits)))
  = (idx + Z.of_nat (List.length commits) + 19) / 20 - (idx + 19) / 20.
Proof.
  induction commits as [|c commits IH]; intros idx Hidx.
  - cbn [walk_events filter List.length]. rewrite Z.add_0_r. lia.
  - cbn [walk_events]. rewrite !filter_app, !length_app.
    assert (Hskip : filter is_sleep (List.map Echo (skip_line env c)) = []).
    { unfold skip_line. destruct (commit_info env c); reflexivity. }
    rewrite Hskip. cbn [List.length]. rewrite Nat.add_0_l.
    rewrite Nat2Z.inj_add, IH by lia.
    replace (idx + 1 + Z.of_nat (List.length commits) + 19)
      with (idx + Z.of_nat (S (List.length commits)) + 19) by lia.
    destruct (Z.eqb_spec (idx mod 20) 0) as [E|E]; cbn [filter is_sleep List.length].
    + assert ((idx + 1 + 19) / 20 = (idx + 19) / 20 + 1)
        by (Z.to_euclidean_division_equations; lia).
      lia.
    + assert ((idx + 1 + 19) / 20 = (idx + 19) / 20)
        by (Z.to_euclidean_division_equations; lia).
      lia.
Qed.

(** X6.  A walk from position 0 pauses once for every 20 commits begun:
    before the commits at positions 0, 20, 40, ..., whether they are kept or
    skipped; a walk of at most [MAX_COUNT] commits pauses 40 times at
    most. *)
Theorem walk_pauses env commits data st :
  let res := walk env 0 commits data st in
  exists delta,
    w_trace (world (snd res)) = w_trace (world st) ++ delta /\
    Z.of_nat (List.length (filter is_sleep delta))
    = (Z.of_nat (List.length commits) + 19) / 20 /\
    ((List.length commits <= MAX_COUNT)%nat ->
     (List.length (filter is_sleep delta) <= 40)%nat).
Proof.
  cbv zeta. rewrite walk_run. exists (walk_events env 0 commits).
  split; [reflexivity|].
  pose proof (sleeps_walk_events env commits 0 ltac:(lia)) as H.
  cbn [Z.add] in H. change ((0 + 19) / 20) with 0 in H. rewrite Z.sub_0_r in H.
  split; [exact H|].
  unfold MAX_COUNT. intros Hn.
  assert ((Z.of_nat (List.length commits) + 19) / 20 <= 40)
    by (Z.to_euclidean_division_equations; lia).
  lia.
Qed.

Lemma walk_pauses_witness :
  exists delta,
    w_trace (world (snd (walk CloneSamples.env_public 0
                           [LogSamples.c_new; LogSamples.c_bad; LogSamples.c_old]
                           [] (Samples.start LogSamples.mixed_repo))))
    = [] ++ delta /\
    (List.length (filter is_sleep delta) <= 40)%nat.
Proof.
  destruct (walk_pauses CloneSamples.env_public
              [LogSamples.c_new; LogSamples.c_bad; LogSamples.c_old]
              [] (Samples.start LogSamples.mixed_repo)) as (delta & Ht & _ & Hn).
  exists delta. split; [exact Ht|]. apply Hn. vm_compute. lia.
Defined.

(** ** What extraction writes *)

Lemma walk_events_no_csv env commits : forall idx,
  filter is_to_csv (walk_events env idx commits) = [] /\
  filter is_makedirs (walk_events env idx commits) = [].
Proof.
  induction commits as [|c commits IH]; intros idx; [now split|].
  cbn [walk_events]. rewrite !filter_app.
  destruct (IH (idx + 1)) as [-> ->].
  assert (H1 : filter is_to_csv (List.map Echo (skip_line env c)) = [])
    by (unfold skip_line; destruct (commit_info env c); reflexivity).
  assert (H2 : filter is_makedirs (List.map Echo (skip_line env c)) = [])
    by (unfold skip_line; destruct (commit_info env c); reflexivity).
  rewrite H1, H2. destruct (idx mod 20 =? 0); now split.
Qed.

Lemma column_names_extracted_table env d data :
  column_names (extracted_table env (d :: data)) = COMMIT_KEYS.
Proof. reflexivity. Qed.

(** X7.  An extraction that returns stores a table with the seven columns
    of the commit [dict], writes that same table once to the CSV file,
    creates the [data] directory only when it is missing, and ends with the
    line that reports the number of rows; afterwards [data] and the CSV file
    exist, no earlier path is lost and the repositories are unchanged. *)
Theorem extract_commit_data_effects env st st' :
  extract_commit_data env st = (Ok tt, st') ->
  exists df delta,
    self st' = with_frame (self st) df /\
    column_names df = COMMIT_KEYS /\
    w_trace (world st') = w_trace (world st) ++ delta /\
    filter is_to_csv delta = [ToCsv CSV_PATH df] /\
    last delta Sleep = Echo (MsgExtracted (nrows df)) /\
    filter is_makedirs delta
    = (if mem (py "data") (w_paths (world st)) then [] else [Makedirs (py "data")]) /\
    mem (py "data") (w_paths (world st')) = true /\
    mem CSV_PATH (w_paths (world st')) = true /\
    (forall p, mem p (w_paths (world st)) = true ->
               mem p (w_paths (world st')) = true) /\
    w_repos (world st') = w_repos (world st).
Proof.
  intros Hrun.
  destruct (repo (self st)) as [r|] eqn:Hr.
  2:{ pose proof (extract_commit_data_no_repo env st Hr) as H.
      rewrite Hrun in H. discriminate. }
  destruct (log r) as [l|e] eqn:Hl.
  2:{ pose proof (extract_commit_data_result env st r Hr) as H.
      rewrite Hl, Hrun in H. discriminate. }
  rewrite (extract_commit_data_run env st r l Hr Hl) in Hrun.
  destruct (good_records env (firstn MAX_COUNT l)) as [|d data'] eqn:E;
    [discriminate|].
  injection Hrun as <-. cbn [self world w_trace w_paths w_repos].
  set (df := extracted_table env (d :: data')).
  exists df,
    (Echo MsgExtracting :: walk_events env 0 (firstn MAX_COUNT l)
     ++ makedirs_events (w_paths (world st))
     ++ [ToCsv CSV_PATH df; Echo (MsgExtracted (nrows df))]).
  split; [reflexivity|].
  split; [apply column_names_extracted_table|].
  split; [rewrite <- !app_assoc; reflexivity|].
  cbn [filter is_to_csv is_makedirs]. rewrite !filter_app.
  destruct (walk_events_no_csv env (firstn MAX_COUNT l) 0) as [-> ->].
  cbn [app filter is_to_csv is_makedirs].
  unfold makedirs_events, makedirs_paths.
  destruct (mem (py "data") (w_paths (world st))) eqn:Hd;
    cbn [app filter is_to_csv is_makedirs].
  - split; [reflexivity|]. split.
    { rewrite app_comm_cons.
      change ([ToCsv CSV_PATH df; Echo (MsgExtracted (nrows df))])
        with ([ToCsv CSV_PATH df] ++ [Echo (MsgExtracted (nrows df))]).
      rewrite app_assoc. apply last_last. }
    split; [reflexivity|]. cbn [mem]. rewrite Hd, str_eqb_refl.
    split; [apply orb_true_r|]. split; [reflexivity|].
    split; [|reflexivity]. intros p ->. apply orb_true_r.
  - split; [reflexivity|]. split.
    { rewrite app_comm_cons.
      change ([Makedirs (py "data"); ToCsv CSV_PATH df;
               Echo (MsgExtracted (nrows df))])
        with ([Makedirs (py "data"); ToCsv CSV_PATH df]
              ++ [Echo (MsgExtracted (nrows df))]).
      rewrite app_assoc. apply last_last. }
    split; [reflexivity|]. cbn [mem]. rewrite !str_eqb_refl.
    split; [apply orb_true_r|]. split; [reflexivity|].
    split; [|reflexivity]. intros p ->. rewrite !orb_true_r. reflexivity.
Qed.

Lemma extract_commit_data_effects_witness :
  let run := extract_commit_data CloneSamples.env_public
               (Samples.start LogSamples.mixed_repo) in
  run = (Ok tt, snd run) /\
  exists df delta,
    commits_df (self (snd run)) = Some df /\
    column_names df = COMMIT_KEYS /\
    w_trace (world (snd run)) = [] ++ delta /\
    filter is_to_csv delta = [ToCsv CSV_PATH df] /\
    filter is_makedirs delta = [Makedirs (py "data")].
Proof.
  cbv zeta.
  assert (E : extract_commit_data CloneSamples.env_public
                (Samples.start LogSamples.mixed_repo)
              = (Ok tt, snd (extract_commit_data CloneSamples.env_public
                               (Samples.start LogSamples.mixed_repo))))
    by (vm_compute; reflexivity).
  split; [exact E|].
  destruct (extract_commit_data_effects _ _ _ E)
    as (df & delta & Hs & Hc & Ht & Hcsv & _ & Hm & _).
  exists df, delta. rewrite Hs. cbn [with_frame commits_df].
  split; [reflexivity|]. split; [exact Hc|]. split; [exact Ht|].
  split; [exact Hcsv | exact Hm].
Defined.

Lemma extract_commit_data_log_error env st :
  match repo (self st) with
  | None =>
      extract_commit_data env st
      = (Raise (AttributeError
                  (py "'NoneType' object has no attribute 'iter_commits'")),
         with_trace st [Echo MsgExtracting])
  | Some r =>
      forall e, log r = Raise e ->
        extract_commit_data env st = (Raise e, with_trace st [Echo MsgExtracting])
  end.
Proof.
  destruct (repo (self st)) as [r|] eqn:Hr.
  - intros e Hl. unfold extract_commit_data. msimpl. rewrite Hr. msimpl.
    unfold iter_commits. rewrite Hl. cbn [rbind]. msimpl. reflexivity.
  - unfold extract_commit_data. msimpl. rewrite Hr. msimpl. reflexivity.
Qed.

(** X8.  Extraction on an analyzer without a repository ([clone_repo] was
    not run, or failed) raises [AttributeError], and extraction from a
    repository whose log cannot be listed raises the error of the listing;
    in both cases only the opening line is printed, and the table, the
    paths and the files are untouched. *)
Theorem extract_commit_data_without_log env st :
  let res := extract_commit_data env st in
  (repo (self st) = None ->
     (exists e, fst res = Raise e /\ exn_type e = py "AttributeError") /\
     snd res = with_trace st [Echo MsgExtracting]) /\
  (forall r e, repo (self st) = Some r -> log r = Raise e ->
     fst res = Raise e /\ snd res = with_trace st [Echo MsgExtracting]).
Proof.
  cbv zeta. pose proof (extract_commit_data_log_error env st) as H. split.
  - intros Hr. rewrite Hr in H. rewrite H. split; [|reflexivity].
    eexists. split; reflexivity.
  - intros r e Hr Hl. rewrite Hr in H. rewrite (H e Hl). split; reflexivity.
Qed.

Lemma extract_commit_data_without_log_witness :
  let st := CloneSamples.fresh Samples.URL in
  repo (self st) = None /\
  commits_df (self (snd (extract_commit_data CloneSamples.env_public st))) = None /\
  w_paths (world (snd (extract_commit_data CloneSamples.env_public st))) = [].
Proof.
  cbv zeta. split; [reflexivity|].
  destruct (extract_commit_data_without_log CloneSamples.env_public
              (CloneSamples.fresh Samples.URL)) as [H _].
  destruct (H eq_refl) as [_ ->]. split; reflexivity.
Defined.

Lemma mem_data_makedirs_paths paths : mem (py "data") (makedirs_paths paths) = true.
Proof.
  unfold makedirs_paths.
  destruct (mem (py "data") paths) eqn:Hd; [exact Hd|].
  cbn [mem]. now rewrite str_eqb_refl.
Qed.

(** X9.  What extraction returns and the table it stores depend on the
    repository and the environment only, not on the table, the paths or the
    output that were there before: two analyzers of one repository get the
    same outcome and, when the log can be listed, the same table.  The
    repository of the analyzer is kept, so that an extraction that returned
    can be run again; the second run returns too and does not create the
    [data] directory again. *)
Theorem extract_commit_data_rebuilds env st st' r :
  repo (self st) = Some r -> repo (self st') = Some r ->
  let res := extract_commit_data env st in
  let res' := extract_commit_data env st' in
  fst res = fst res' /\
  repo (self (snd res)) = Some r /\
  (is_ok (log r) = true ->
   commits_df (self (snd res)) = commits_df (self (snd res'))) /\
  (fst res = Ok tt ->
   exists delta,
     fst (extract_commit_data env (snd res)) = Ok tt /\
     w_trace (world (snd (extract_commit_data env (snd res))))
     = w_trace (world (snd res)) ++ delta /\
     filter is_makedirs delta = []).
Proof.
  intros Hr Hr'. cbv zeta.
  destruct (log r) as [l|e] eqn:Hl.
  - rewrite (extract_commit_data_run env st r l Hr Hl).
    rewrite (extract_commit_data_run env st' r l Hr' Hl).
    destruct (good_records env (firstn MAX_COUNT l)) as [|d data'] eqn:E;
      cbn [fst snd self commits_df repo world w_paths].
    + split; [reflexivity|]. split; [exact Hr|].
      split; [reflexivity | discriminate].
    + split; [reflexivity|]. split; [exact Hr|]. split; [reflexivity|].
      intros _.
      match goal with |- context [extract_commit_data env ?s] => set (st1 := s) end.
      assert (Hr1 : repo (self st1) = Some r) by exact Hr.
      rewrite (extract_commit_data_run env st1 r l Hr1 Hl), E.
      cbn [fst snd world w_trace].
      eexists. split; [reflexivity|].
      split; [rewrite <- app_assoc; reflexivity|].
      cbn [app filter is_makedirs]. rewrite !filter_app.
      destruct (walk_events_no_csv env (firstn MAX_COUNT l) 0) as [_ ->].
      unfold makedirs_events. subst st1. cbn [world w_paths mem].
      rewrite mem_data_makedirs_paths, orb_true_r. reflexivity.
  - pose proof (extract_commit_data_log_error env st) as H.
    pose proof (extract_commit_data_log_error env st') as H'.
    rewrite Hr in H. rewrite Hr' in H'. rewrite (H e Hl), (H' e Hl).
    cbn [fst snd with_trace self is_ok].
    split; [reflexivity|]. split; [exact Hr|].
    split; discriminate.
Qed.

Lemma extract_commit_data_rebuilds_witness :
  let env := CloneSamples.env_public in
  let st := Samples.start LogSamples.mixed_repo in
  let st1 := snd (extract_commit_data env st) in
  let st2 := snd (analyze_code_churn env st1) in
  (repo (self st) = Some LogSamples.mixed_repo /\
   repo (self st2) = Some LogSamples.mixed_repo) /\
  commits_df (self (snd (extract_commit_data env st2))) = commits_df (self st1).
Proof.
  cbv zeta.
  assert (H2 : repo (self (snd (analyze_code_churn CloneSamples.env_public
                                  (snd (extract_commit_data CloneSamples.env_public
                                          (Samples.start LogSamples.mixed_repo))))))
               = Some LogSamples.mixed_repo) by (vm_compute; reflexivity).
  split; [split; [reflexivity | exact H2]|].
  destruct (extract_commit_data_rebuilds CloneSamples.env_public _ _ _ H2
              (eq_refl : repo (self (Samples.start LogSamples.mixed_repo))
                         = Some LogSamples.mixed_repo))
    as (_ & _ & H & _).
  apply H. reflexivity.
Defined.

(** X21.  Extraction looks at the first [MAX_COUNT] = 800 entries of the
    log and at nothing after them: two repositories whose logs agree on
    these entries give the same outcome, the same table and the same
    printed lines. *)
Theorem extract_commit_data_window env st st' r r' l l' :
  repo (self st) = Some r -> repo (self st') = Some r' ->
  log r = Ok l -> log r' = Ok l' ->
  firstn MAX_COUNT l = firstn MAX_COUNT l' ->
  let res := extract_commit_data env st in
  let res' := extract_commit_data env st' in
  fst res = fst res' /\
  commits_df (self (snd res)) = commits_df (self (snd res')) /\
  exists delta delta',
    w_trace (world (snd res)) = w_trace (world st) ++ delta /\
    w_trace (world (snd res')) = w_trace (world st') ++ delta' /\
    flat_map print_of delta = flat_map print_of delta'.
Proof.
  intros Hr Hr' Hl Hl' Hw. cbv zeta.
  rewrite (extract_commit_data_run env st r l Hr Hl).
  rewrite (extract_commit_data_run env st' r' l' Hr' Hl').
  rewrite <- Hw.
  destruct (good_records env (firstn MAX_COUNT l)) as [|d data'];
    cbn [fst snd self commits_df world w_trace].
  - split; [reflexivity|]. split; [reflexivity|].
    eexists _, _. split; [reflexivity|]. split; [reflexivity|]. reflexivity.
  - split; [reflexivity|]. split; [reflexivity|].
    eexists _, _.
    split; [rewrite <- app_assoc; reflexivity|].
    split; [rewrite <- app_assoc; reflexivity|].
    cbn [app flat_map print_of]. rewrite !flat_map_app. f_equal. f_equal.
    unfold makedirs_events.
    destruct (mem _ (w_paths (world st))), (mem _ (w_paths (world st')));
      reflexivity.
Qed.

Lemma extract_commit_data_window_witness :
  let env := CloneSamples.env_public in
  let l := repeat LogSamples.c_new 799 ++ [LogSamples.c_bad] in
  let r := mkRepo (Ok l) in
  let r' := mkRepo (Ok (l ++ [LogSamples.c_old])) in
  firstn MAX_COUNT l = firstn MAX_COUNT (l ++ [LogSamples.c_old]) /\
  commits_df (self (snd (extract_commit_data env (Samples.start r))))
  = commits_df (self (snd (extract_commit_data env (Samples.start r')))).
Proof.
  cbv zeta.
  assert (H : firstn MAX_COUNT (repeat LogSamples.c_new 799 ++ [LogSamples.c_bad])
              = firstn MAX_COUNT
                  ((repeat LogSamples.c_new 799 ++ [LogSamples.c_bad])
                   ++ [LogSamples.c_old]))
    by (vm_compute; reflexivity).
  split; [exact H|].
  destruct (extract_commit_data_window CloneSamples.env_public
              (Samples.start (mkRepo (Ok (repeat LogSamples.c_new 799
                                          ++ [LogSamples.c_bad]))))
              (Samples.start (mkRepo (Ok ((repeat LogSamples.c_new 799
                                           ++ [LogSamples.c_bad])
                                          ++ [LogSamples.c_old]))))
              _ _ _ _ eq_refl eq_refl eq_refl eq_refl H) as (_ & Hdf & _).
  exact Hdf.
Defined.

(** ** The files that the stages write *)

Lemma files_written_fix_trace env path : files_written (fix_trace env path) = [].
Proof. unfold fix_trace. cbv zeta. destruct (git_execute env _); reflexivity. Qed.

Lemma writes_clone_repo env : writes (clone_repo env) [].
Proof.
  intros st.
  destruct (mem (local_repo_path (self st)) (w_paths (world st))) eqn:Hp.
  - rewrite (clone_repo_present env st Hp).
    destruct (dict_get _ _); cbn [fst snd world w_trace is_ok];
      eexists; (split; [reflexivity|]);
      rewrite files_written_app, files_written_fix_trace; reflexivity.
  - rewrite (clone_repo_absent env st Hp).
    destruct (remote env _); cbn [fst snd world w_trace is_ok];
      eexists; (split; [reflexivity|]);
      rewrite files_written_app, files_written_fix_trace; reflexivity.
Qed.

Lemma writes_extract_commit_data env : writes (extract_commit_data env) [CSV_PATH].
Proof.
  intros st.
  destruct (repo (self st)) as [r|] eqn:Hr.
  2:{ pose proof (extract_commit_data_log_error env st) as H. rewrite Hr in H.
      rewrite H. eexists. split; reflexivity. }
  destruct (log r) as [l|e] eqn:Hl.
  2:{ pose proof (extract_commit_data_log_error env st) as H. rewrite Hr in H.
      rewrite (H e Hl). eexists. split; reflexivity. }
  rewrite (extract_commit_data_run env st r l Hr Hl).
  destruct (good_records env (firstn MAX_COUNT l)) as [|d data'];
    cbn [fst snd world w_trace is_ok].
  - eexists. split; [reflexivity|].
    change (files_written (Echo MsgExtracting :: ?x)) with (files_written x).
    apply files_written_walk_events.
  - eexists. split; [rewrite <- app_assoc; reflexivity|].
    cbn [app].
    change (files_written (Echo MsgExtracting :: ?x)) with (files_written x).
    rewrite !files_written_app, files_written_walk_events.
    unfold makedirs_events. destruct (mem _ _); reflexivity.
Qed.

Ltac stage_done :=
  msimpl; cbn [is_ok];
  eexists; (split; [rewrite <- ?app_assoc; reflexivity | reflexivity]).

Lemma writes_contributors env : writes (analyze_contributor_distribution env) [CONTRIBUTORS_PATH].
Proof.
  intros st. unfold analyze_contributor_distribution. msimpl.
  destruct (commits_df (self st)) as [df|]; [|stage_done]. msimpl.
  destruct (getitem df _); [|stage_done]. msimpl.
  destruct (head _ _); stage_done.
Qed.

Lemma writes_trend env freq : writes (analyze_commit_trend env freq) [trend_path freq].
Proof.
  intros st. unfold analyze_commit_trend. msimpl.
  destruct (commits_df (self st)) as [df|]; [|stage_done]. msimpl.
  destruct (getitem df (py "commit_time")) as [c|]; [|stage_done]. msimpl.
  destruct (dt_date c) as [d|]; [|stage_done]. msimpl.
  destruct (Grouper env freq) as [g|]; [|stage_done]. msimpl.
  destruct (getitem _ _) as [c'|]; [|stage_done]. msimpl.
  destruct (time_values c') as [times|]; [|stage_done]. msimpl.
  destruct (g times) as [series|]; [|stage_done]. msimpl.
  destruct series as [|p series']; [stage_done|]. msimpl.
  destruct (dict_get freq_labels freq); stage_done.
Qed.

Lemma writes_churn env : writes (analyze_code_churn env) [CHURN_PATH].
Proof.
  intros st. unfold analyze_code_churn. msimpl.
  destruct (commits_df (self st)) as [df|]; [|stage_done]. msimpl.
  destruct (getitem df (py "commit_time")) as [c|]; [|stage_done]. msimpl.
  destruct (dt_year c) as [y|]; [|stage_done]. msimpl.
  destruct (groupby_agg_sum2 _ _ _ _) as [churn|]; [|stage_done]. msimpl.
  destruct (getitem churn (py "insertions")) as [i|]; [|stage_done]. msimpl.
  destruct (getitem churn (py "deletions")) as [d|]; [|stage_done]. msimpl.
  destruct (col_sub i d); [|stage_done]. msimpl. cbn [df_index].
  destruct (df_index (setitem churn _ _)); stage_done.
Qed.

Lemma writes_wordcloud env : writes (generate_commit_message_wordcloud env) [WORDCLOUD_PATH].
Proof.
  intros st. unfold generate_commit_message_wordcloud. msimpl.
  destruct (commits_df (self st)) as [df|]; [|stage_done]. msimpl.
  destruct (getitem df _) as [c|]; [|stage_done]. msimpl.
  destruct (join_messages c) as [m|]; [|stage_done]. msimpl.
  destruct (wordcloud_generate env _); stage_done.
Qed.


(** ** Aggregations without a table, or without the column they read *)

Lemma dict_get_missing {V} (d : list (str * V)) k :
  ~ In k (List.map fst d) -> dict_get d k = Raise (KeyError k).
Proof.
  induction d as [|[k' v] d IH]; cbn [dict_get List.map fst In]; intros H;
    [reflexivity|].
  destruct (str_eqb k' k) eqn:E.
  - apply str_eqb_eq in E. tauto.
  - apply IH. tauto.
Qed.

Lemma getitem_missing df key :
  ~ In key (column_names df) -> getitem df key = Raise (KeyError key).
Proof. apply dict_get_missing. Qed.

(** X10.  Before a table is extracted each of the four aggregations raises
    [TypeError] (the table is [None]) right after its heading: nothing else
    is printed, no chart is drawn or saved, and the analyzer is
    unchanged. *)
Theorem aggregations_before_extraction env st freq :
  commits_df (self st) = None ->
  analyze_contributor_distribution env st
  = (Raise NoneType_not_subscriptable,
     with_trace st [Echo (MsgHeading Contributors)]) /\
  analyze_commit_trend env freq st
  = (Raise NoneType_not_subscriptable, with_trace st [Echo (MsgHeading Trend)]) /\
  analyze_code_churn env st
  = (Raise NoneType_not_subscriptable, with_trace st [Echo (MsgHeading Churn)]) /\
  generate_commit_message_wordcloud env st
  = (Raise NoneType_not_subscriptable,
     with_trace st [Echo (MsgHeading WordCloud)]).
Proof.
  intros Hdf.
  unfold analyze_contributor_distribution, analyze_commit_trend,
    analyze_code_churn, generate_commit_message_wordcloud.
  msimpl. rewrite Hdf. msimpl. repeat split.
Qed.

Lemma aggregations_before_extraction_witness :
  let env := CloneSamples.env_public in
  let st := CloneSamples.cloned Samples.URL in
  commits_df (self st) = None /\
  fst (analyze_code_churn env st) = Raise NoneType_not_subscriptable /\
  filter is_savefig (w_trace (world (snd (analyze_code_churn env st)))) = [].
Proof.
  cbv zeta. split; [reflexivity|].
  destruct (aggregations_before_extraction CloneSamples.env_public
              (CloneSamples.cloned Samples.URL) (py "ME") eq_refl)
    as (_ & _ & -> & _).
  split; reflexivity.
Defined.

(** X11.  On a table that lacks the column an aggregation reads first
    ([author_name], [commit_time], [commit_message]) the aggregation raises
    [KeyError] on that column right after its heading and saves nothing;
    this is what happens on the frame without columns that a failed
    extraction leaves. *)
Theorem aggregations_missing_column env st df freq :
  commits_df (self st) = Some df ->
  (~ In (py "author_name") (column_names df) ->
     analyze_contributor_distribution env st
     = (Raise (KeyError (py "author_name")),
        with_trace st [Echo (MsgHeading Contributors)])) /\
  (~ In (py "commit_time") (column_names df) ->
     analyze_commit_trend env freq st
     = (Raise (KeyError (py "commit_time")),
        with_trace st [Echo (MsgHeading Trend)]) /\
     analyze_code_churn env st
     = (Raise (KeyError (py "commit_time")),
        with_trace st [Echo (MsgHeading Churn)])) /\
  (~ In (py "commit_message") (column_names df) ->
     generate_commit_message_wordcloud env st
     = (Raise (KeyError (py "commit_message")),
        with_trace st [Echo (MsgHeading WordCloud)])).
Proof.
  intros Hdf.
  unfold analyze_contributor_distribution, analyze_commit_trend,
    analyze_code_churn, generate_commit_message_wordcloud.
  msimpl. rewrite Hdf. msimpl.
  split; [|split].
  - intros H. rewrite (getitem_missing df _ H). reflexivity.
  - intros H. rewrite (getitem_missing df _ H). split; reflexivity.
  - intros H. rewrite (getitem_missing df _ H). reflexivity.
Qed.

Lemma aggregations_missing_column_witness :
  let st := snd (extract_commit_data CloneSamples.env_public
                   (Samples.start LogSamples.bad_repo)) in
  commits_df (self st) = Some (mkDataFrame [] []) /\
  fst (analyze_contributor_distribution CloneSamples.env_public st)
  = Raise (KeyError (py "author_name")) /\
  fst (analyze_commit_trend CloneSamples.env_public (py "ME") st)
  = Raise (KeyError (py "commit_time")) /\
  fst (generate_commit_message_wordcloud CloneSamples.env_public st)
  = Raise (KeyError (py "commit_message")).
Proof.
  cbv zeta.
  assert (E : commits_df (self (snd (extract_commit_data CloneSamples.env_public
                                       (Samples.start LogSamples.bad_repo))))
              = Some (mkDataFrame [] [])) by (vm_compute; reflexivity).
  split; [exact E|].
  destruct (aggregations_missing_column CloneSamples.env_public _ _ (py "ME") E)
    as (H1 & H2 & H3).
  rewrite (H1 (fun H => H)), (proj1 (H2 (fun H => H))), (H3 (fun H => H)).
  repeat split.
Defined.

(** ** The word cloud *)

Lemma generate_commit_message_wordcloud_run env st df messages :
  commits_df (self st) = Some df ->
  getitem df (py "commit_message") = Ok (ColStr messages) ->
  generate_commit_message_wordcloud env st =
  match wordcloud_generate env (word_text env messages) with
  | Ok _ =>
      (Ok tt,
       mkState (self st)
         (mkWorld (WORDCLOUD_PATH :: w_paths (world st)) (w_repos (world st))
            (w_trace (world st)
             ++ [ Echo (MsgHeading WordCloud);
                  WordCloudGenerate (word_text env messages); Figure;
                  SetTitle TitleWordCloud; Savefig WORDCLOUD_PATH;
                  Echo (MsgSaved WordCloud) ])))
  | Raise e =>
      (Raise e,
       with_trace st [ Echo (MsgHeading WordCloud);
                       WordCloudGenerate (word_text env messages) ])
  end.
Proof.
  intros Hdf Hc. unfold word_text.
  unfold generate_commit_message_wordcloud. msimpl. rewrite Hdf. msimpl.
  rewrite Hc. cbn [join_messages]. msimpl.
  destruct (wordcloud_generate env _) as [[]|e]; msimpl;
    unfold with_trace; rewrite <- !app_assoc; reflexivity.
Qed.

(** X12.  The word cloud is laid out from one text: the messages joined by
    spaces, cut into tokens, filtered, and the kept tokens joined by spaces
    again (the empty text when no token is kept).  The outcome of the
    method is the outcome of the layout: the chart is saved exactly when
    the layout succeeds, and an error of the layout is raised with no file
    written.  The analyzer is unchanged either way. *)
Theorem wordcloud_outcome env st df messages :
  commits_df (self st) = Some df ->
  getitem df (py "commit_message") = Ok (ColStr messages) ->
  let text := word_text env messages in
  let res := generate_commit_message_wordcloud env st in
  fst res = wordcloud_generate env text /\
  self (snd res) = self st /\
  w_paths (world (snd res))
  = (if is_ok (wordcloud_generate env text) then [WORDCLOUD_PATH] else [])
    ++ w_paths (world st) /\
  (exists delta,
     w_trace (world (snd res)) = w_trace (world st) ++ delta /\
     In (WordCloudGenerate text) delta /\
     files_written delta
     = if is_ok (wordcloud_generate env text) then [WORDCLOUD_PATH] else []) /\
  (filtered_words env (lcut env (join (py " ") messages)) = [] -> text = []).
Proof.
  intros Hdf Hc text res. subst res.
  rewrite (generate_commit_message_wordcloud_run env st df messages Hdf Hc).
  fold text.
  destruct (wordcloud_generate env text) as [[]|e];
    cbn [fst snd self world w_paths w_trace with_trace is_ok app].
  - split; [reflexivity|]. split; [reflexivity|]. split; [reflexivity|].
    split.
    + eexists. split; [reflexivity|]. split; [right; now left | reflexivity].
    + unfold text, word_text. now intros ->.
  - split; [reflexivity|]. split; [reflexivity|]. split; [reflexivity|].
    split.
    + eexists. split; [reflexivity|]. split; [right; now left | reflexivity].
    + unfold text, word_text. now intros ->.
Qed.

Lemma wordcloud_outcome_witness :
  let st := TableSamples.with_table TableSamples.churn_table in
  (commits_df (self st) = Some TableSamples.churn_table /\
   getitem TableSamples.churn_table (py "commit_message")
   = Ok (ColStr [py "work"; py "work"; py "work"])) /\
  fst (generate_commit_message_wordcloud CloneSamples.env_public st) = Ok tt /\
  w_paths (world (snd (generate_commit_message_wordcloud CloneSamples.env_public st)))
  = [WORDCLOUD_PATH].
Proof.
  cbv zeta. split; [split; reflexivity|].
  destruct (wordcloud_outcome CloneSamples.env_public
              (TableSamples.with_table TableSamples.churn_table)
              TableSamples.churn_table [py "work"; py "work"; py "work"]
              eq_refl eq_refl) as (Hfst & _ & Hpaths & _).
  split; [rewrite Hfst; reflexivity | rewrite Hpaths; reflexivity].
Defined.

(** ** Sums *)

Lemma zsum_cons x l : zsum (x :: l) = x + zsum l.
Proof. reflexivity. Qed.

Lemma zsum_app l1 l2 : zsum (l1 ++ l2) = zsum l1 + zsum l2.
Proof. unfold zsum. induction l1 as [|x l1 IH]; simpl; lia. Qed.

Lemma zsum_perm l l' : Permutation l l' -> zsum l = zsum l'.
Proof. unfold zsum. induction 1; simpl; lia. Qed.

Lemma zsum_map_add {A} (f g : A -> Z) l :
  zsum (List.map (fun x => f x + g x) l) = zsum (List.map f l) + zsum (List.map g l).
Proof. unfold zsum. induction l as [|x l IH]; simpl; lia. Qed.

Lemma zsum_map_zero {A} (f : A -> Z) l :
  (forall x, In x l -> f x = 0) -> zsum (List.map f l) = 0.
Proof.
  induction l as [|x l IH]; intros H; cbn [List.map]; [reflexivity|].
  rewrite zsum_cons, (H x (or_introl eq_refl)), IH; [reflexivity|].
  intros y Hy. apply H. now right.
Qed.

Lemma series_total_partition {K} (P : K * Z -> bool) (s : Series K) :
  series_total s
  = series_total (filter P s) + series_total (filter (fun p => negb (P p)) s).
Proof.
  unfold series_total.
  induction s as [|p s IH]; cbn [filter List.map]; [reflexivity|].
  destruct (P p); cbn [negb List.map]; rewrite !zsum_cons; lia.
Qed.

Lemma series_total_firstn {K} n (s : Series K) :
  (forall p, In p s -> 0 <= snd p) ->
  series_total (firstn n s) <= series_total s.
Proof.
  intros H.
  assert (Hnn : forall t : Series K, (forall p, In p t -> 0 <= snd p) ->
                                     0 <= series_total t).
  { unfold series_total. induction t as [|q t IH]; intros Ht; cbn [List.map];
      [cbn; lia|].
    rewrite zsum_cons. pose proof (Ht q (or_introl eq_refl)).
    assert (0 <= zsum (List.map snd t)); [|lia].
    apply IH. intros r Hr. apply Ht. now right. }
  rewrite <- (firstn_skipn n s) at 2. unfold series_total in *.
  rewrite map_app, zsum_app.
  assert (0 <= zsum (List.map snd (skipn n s))); [|lia].
  apply Hnn. intros p Hp. apply H.
  rewrite <- (firstn_skipn n s). apply in_or_app. now right.
Qed.

(** ** Every row is counted once *)

Lemma filter_key_other x (s : Series label) :
  filter (fun p => label_eqb x (fst p)) (filter (other_key x) s) = [].
Proof.
  induction s as [|p s IH]; [reflexivity|].
  cbn [filter]. unfold other_key at 1.
  destruct (label_eqb x (fst p)) eqn:E; cbn [negb filter]; [exact IH|].
  rewrite E. exact IH.
Qed.

Lemma filter_key_other_ne x y (s : Series label) :
  x <> y ->
  filter (fun p => label_eqb x (fst p)) (filter (other_key y) s)
  = filter (fun p => label_eqb x (fst p)) s.
Proof.
  intros Hne. induction s as [|p s IH]; [reflexivity|].
  cbn [filter]. unfold other_key at 1.
  destruct (label_eqb_spec x (fst p)) as [Hx|Hx].
  - destruct (label_eqb_spec y (fst p)) as [Hy|Hy]; [congruence|].
    cbn [negb filter]. rewrite <- Hx, label_eqb_refl. now f_equal.
  - destruct (label_eqb y (fst p)); cbn [negb filter]; [exact IH|].
    destruct (label_eqb_spec x (fst p)); [contradiction | exact IH].
Qed.

Lemma groups_key_total x values :
  series_total (filter (fun p => label_eqb x (fst p)) (groups values))
  = count_label x values.
Proof.
  unfold series_total.
  induction values as [|y l IH]; [reflexivity|].
  cbn [groups filter fst]. rewrite count_label_cons.
  destruct (label_eqb_spec x y) as [<-|Hne].
  - cbn [List.map snd]. rewrite zsum_cons, filter_key_other. cbn. lia.
  - rewrite filter_key_other_ne by exact Hne. rewrite IH. lia.
Qed.

Lemma groups_total values :
  series_total (groups values) = Z.of_nat (List.length values).
Proof.
  induction values as [|x l IH]; [reflexivity|].
  cbn [groups]. unfold series_total in *. cbn [List.map snd]. rewrite zsum_cons.
  pose proof (series_total_partition (fun p => label_eqb x (fst p)) (groups l)) as H.
  rewrite groups_key_total in H. unfold series_total in H.
  change (filter (other_key x) (groups l))
    with (filter (fun p => negb (label_eqb x (fst p))) (groups l)).
  cbn [List.length]. lia.
Qed.

Lemma groups_positive values p : In p (groups values) -> 1 <= snd p.
Proof.
  destruct p as [a n]. intros H. apply groups_In in H. destruct H as [-> Hin].
  cbn [snd]. unfold count_label.
  assert (Hf : In a (filter (label_eqb a) values))
    by (apply filter_In; split; [exact Hin | apply label_eqb_refl]).
  destruct (filter (label_eqb a) values); [destruct Hf | cbn [List.length]; lia].
Qed.

(** X13.  The counts of the contributor distribution cover every row once:
    the counts of all authors add up to the number of rows, each count is 1
    at least, the ranking that is printed and plotted adds up to the number
    of rows at most, and it is the whole distribution when there are ten
    authors or fewer (no row for an empty table). *)
Theorem contributor_counts_total env st df names :
  commits_df (self st) = Some df ->
  getitem df (py "author_name") = Ok (ColStr names) ->
  let all := value_counts (quicksort_ties env) (ColStr names) in
  let top := contributor_stats env (ColStr names) in
  let res := analyze_contributor_distribution env st in
  In (Echo (MsgContributors top)) (w_trace (world (snd res))) /\
  series_total all = Z.of_nat (List.length names) /\
  (forall p, In p all -> 1 <= snd p) /\
  series_total top <= Z.of_nat (List.length names) /\
  ((List.length all <= 10)%nat -> top = all) /\
  (names = [] -> top = []).
Proof.
  intros Hdf Hc all top res. subst res.
  rewrite (analyze_contributor_distribution_run env st df _ Hdf Hc).
  unfold contributor_events. fold top.
  assert (Hperm : Permutation all (groups (List.map LStr names))).
  { unfold all, value_counts. cbn [col_labels]. rewrite value_count_groups.
    apply sort_values_descending_perm. }
  assert (Htotal : series_total all = Z.of_nat (List.length names)).
  { unfold series_total. rewrite (zsum_perm _ _ (Permutation_map snd Hperm)).
    fold (series_total (groups (List.map LStr names))).
    rewrite groups_total, length_map. reflexivity. }
  assert (Hpos : forall p, In p all -> 1 <= snd p).
  { intros p Hp. apply (groups_positive (List.map LStr names)).
    now apply (Permutation_in _ Hperm). }
  split.
  { destruct top; cbn [snd world w_trace]; apply in_or_app; right; right;
      now left. }
  split; [exact Htotal|]. split; [exact Hpos|].
  split.
  { rewrite <- Htotal. apply series_total_firstn.
    intros p Hp. specialize (Hpos p Hp). lia. }
  split.
  - intros Hlen. apply firstn_all2. exact Hlen.
  - intros ->. reflexivity.
Qed.

Lemma contributor_counts_total_witness :
  let env := CloneSamples.env_public in
  let df := AuthorSamples.table_of AuthorSamples.authors_abc in
  let names := List.map name AuthorSamples.authors_abc in
  (commits_df (self (TableSamples.with_table df)) = Some df /\
   getitem df (py "author_name") = Ok (ColStr names)) /\
  series_total (value_counts (quicksort_ties env) (ColStr names)) = 11 /\
  contributor_stats env (ColStr names)
  = value_counts (quicksort_ties env) (ColStr names).
Proof.
  cbv zeta. split; [split; reflexivity|].
  destruct (contributor_counts_total CloneSamples.env_public
              (TableSamples.with_table (AuthorSamples.table_of AuthorSamples.authors_abc))
              (AuthorSamples.table_of AuthorSamples.authors_abc)
              (List.map name AuthorSamples.authors_abc) eq_refl eq_refl)
    as (_ & Ht & _ & _ & Hall & _).
  split; [exact Ht|]. apply Hall. vm_compute. lia.
Defined.

(** ** Sums per year add up *)

Lemma zsum_indicator k v gk :
  NoDup gk -> In k gk ->
  zsum (List.map (fun g => if k =? g then v else 0) gk) = v.
Proof.
  induction gk as [|g gk IH]; intros Hnd Hin; [destruct Hin|].
  inversion Hnd as [|? ? Hn Hnd']; subst.
  cbn [List.map]. rewrite zsum_cons.
  destruct (Z.eqb_spec k g) as [->|Hne].
  - rewrite zsum_map_zero; [lia|].
    intros x Hx. destruct (Z.eqb_spec g x); [congruence | reflexivity].
  - destruct Hin as [H|H]; [congruence|]. rewrite IH by assumption. lia.
Qed.

Lemma sum_for_cons g k v keys values :
  sum_for g (k :: keys) (v :: values)
  = (if k =? g then v else 0) + sum_for g keys values.
Proof.
  unfold sum_for. cbn [combine filter fst].
  destruct (k =? g); cbn [List.map snd fold_right]; lia.
Qed.

Lemma sum_for_total gk : forall keys values,
  NoDup gk -> (forall k, In k keys -> In k gk) ->
  List.length values = List.length keys ->
  zsum (List.map (fun g => sum_for g keys values) gk) = zsum values.
Proof.
  induction keys as [|k keys IH]; intros [|v values] Hnd Hin Hlen;
    try discriminate.
  - apply zsum_map_zero. reflexivity.
  - rewrite (map_ext _ (fun g => (if k =? g then v else 0) + sum_for g keys values))
      by (intros g; apply sum_for_cons).
    rewrite zsum_map_add, zsum_indicator; [|exact Hnd | apply Hin; now left].
    rewrite IH; [reflexivity | exact Hnd | | now injection Hlen].
    intros x Hx. apply Hin. now right.
Qed.

Lemma agg_sum_map keys values :
  agg_sum keys values
  = List.map (fun g => wrap64 (sum_for g keys values)) (group_keys keys).
Proof.
  apply (nth_ext _ _ 0 (wrap64 (sum_for 0 keys values))).
  - now rewrite agg_sum_length, length_map.
  - intros j Hj. rewrite agg_sum_length in Hj.
    rewrite agg_sum_nth by exact Hj.
    rewrite (map_nth (fun g => wrap64 (sum_for g keys values))). reflexivity.
Qed.

Lemma zsum_nonneg values : Forall (fun v => 0 <= v) values -> 0 <= zsum values.
Proof. induction 1; [cbn; lia | rewrite zsum_cons; lia]. Qed.

(** A sum of some of the values lies between 0 and the sum of all, when no
    value is negative. *)
Lemma sum_for_bounds g : forall keys values,
  Forall (fun v => 0 <= v) values ->
  0 <= sum_for g keys values <= zsum values.
Proof.
  induction keys as [|k keys IH]; intros values Hall.
  - pose proof (zsum_nonneg values Hall). unfold sum_for. cbn. lia.
  - destruct Hall as [|v values Hv Hall].
    + unfold sum_for. cbn. lia.
    + rewrite sum_for_cons, zsum_cons. specialize (IH values Hall).
      destruct (k =? g); lia.
Qed.

Lemma agg_sum_exact keys values :
  Forall (fun v => 0 <= v) values -> zsum values <= INT64_MAX ->
  agg_sum keys values
  = List.map (fun g => sum_for g keys values) (group_keys keys).
Proof.
  intros Hall Hmax. rewrite agg_sum_map. apply map_ext. intros g.
  apply wrap64_exact. pose proof (sum_for_bounds g keys values Hall).
  unfold is_int64, INT64_MIN, INT64_MAX in *. lia.
Qed.

Lemma agg_sum_bounds keys values :
  Forall (fun v => 0 <= v) values -> zsum values <= INT64_MAX ->
  Forall (fun v => 0 <= v <= INT64_MAX) (agg_sum keys values).
Proof.
  intros Hall Hmax. rewrite (agg_sum_exact keys values Hall Hmax).
  apply Forall_forall. intros v Hv. apply in_map_iff in Hv.
  destruct Hv as (g & <- & _).
  pose proof (sum_for_bounds g keys values Hall). lia.
Qed.

Lemma agg_sum_total keys values :
  List.length values = List.length keys ->
  Forall (fun v => 0 <= v) values -> zsum values <= INT64_MAX ->
  zsum (agg_sum keys values) = zsum values.
Proof.
  intros Hlen Hall Hmax. rewrite (agg_sum_exact keys values Hall Hmax).
  apply sum_for_total.
  - apply group_keys_NoDup.
  - intros k Hk. now apply group_keys_In.
  - exact Hlen.
Qed.

Lemma zip_sub_total : forall x y,
  List.length x = List.length y ->
  Forall (fun v => 0 <= v <= INT64_MAX) x ->
  Forall (fun v => 0 <= v <= INT64_MAX) y ->
  zsum (zip_sub x y) = zsum x - zsum y.
Proof.
  induction x as [|a x IH]; intros [|b y] Hlen Hx Hy; try discriminate;
    [reflexivity|].
  inversion Hx as [|? ? Ha Hx']; inversion Hy as [|? ? Hb Hy']; subst.
  cbn [zip_sub]. rewrite !zsum_cons.
  rewrite IH by (auto; now injection Hlen).
  rewrite wrap64_exact; [lia|].
  unfold is_int64, INT64_MIN, INT64_MAX in *. lia.
Qed.

Lemma zip_sub_length : forall x y,
  List.length x = List.length y -> List.length (zip_sub x y) = List.length x.
Proof.
  induction x as [|a x IH]; intros [|b y] H; try discriminate; [reflexivity|].
  cbn [zip_sub List.length]. f_equal. apply IH. now injection H.
Qed.

(** X14.  The code churn loses no line, as long as the sums fit [int64]: on
    a table whose columns have one value per row, the three columns of the
    frame that is printed have one value per year; when no count is
    negative and the sum of a column is [INT64_MAX] at most, the yearly sums
    of the insertions add up to the sum of the [insertions] column, those
    of the deletions to the sum of the [deletions] column, and the yearly
    net changes to the difference of the two. *)
Theorem code_churn_totals env st df times ins dels :
  commits_df (self st) = Some df ->
  getitem df (py "commit_time") = Ok (ColTime times) ->
  getitem df (py "insertions") = Ok (ColInt ins) ->
  getitem df (py "deletions") = Ok (ColInt dels) ->
  List.length ins = List.length times ->
  List.length dels = List.length times ->
  let res := analyze_code_churn env st in
  exists churn ins_sum del_sum net,
    In (Echo (MsgChurn churn)) (w_trace (world (snd res))) /\
    getitem churn (py "insertions") = Ok (ColInt ins_sum) /\
    getitem churn (py "deletions") = Ok (ColInt del_sum) /\
    getitem churn (py "net_change") = Ok (ColInt net) /\
    List.length ins_sum = nrows churn /\
    List.length del_sum = nrows churn /\
    List.length net = nrows churn /\
    (Forall (fun v => 0 <= v) ins -> zsum ins <= INT64_MAX ->
     zsum ins_sum = zsum ins) /\
    (Forall (fun v => 0 <= v) dels -> zsum dels <= INT64_MAX ->
     zsum del_sum = zsum dels) /\
    (Forall (fun v => 0 <= v) ins -> zsum ins <= INT64_MAX ->
     Forall (fun v => 0 <= v) dels -> zsum dels <= INT64_MAX ->
     zsum net = zsum ins - zsum dels).
Proof.
  intros Hdf Ht Hi Hd Hli Hld res. subst res.
  rewrite (analyze_code_churn_run env st df times ins dels Hdf Ht Hi Hd).
  cbv zeta.
  set (years := List.map year_of times).
  assert (Hly : List.length years = List.length times) by apply length_map.
  exists (code_churn_frame times ins dels), (agg_sum years ins),
         (agg_sum years dels), (zip_sub (agg_sum years ins) (agg_sum years dels)).
  split.
  { destruct times; cbn [snd world w_trace]; apply in_or_app; right; right;
      now left. }
  split; [reflexivity|]. split; [reflexivity|]. split; [reflexivity|].
  unfold nrows, code_churn_frame. cbn [df_index]. fold years.
  split; [apply agg_sum_length|]. split; [apply agg_sum_length|].
  split.
  { rewrite zip_sub_length by (now rewrite !agg_sum_length).
    apply agg_sum_length. }
  split; [intros; apply agg_sum_total; auto; lia|].
  split; [intros; apply agg_sum_total; auto; lia|].
  intros Hi0 Him Hd0 Hdm.
  rewrite zip_sub_total
    by (auto using agg_sum_bounds; now rewrite !agg_sum_length).
  rewrite !agg_sum_total by (auto; lia). reflexivity.
Qed.

Lemma code_churn_totals_witness :
  let env := CloneSamples.env_public in
  let st := TableSamples.with_table TableSamples.churn_table in
  (commits_df (self st) = Some TableSamples.churn_table /\
   getitem TableSamples.churn_table (py "commit_time")
   = Ok (ColTime TableSamples.churn_times) /\
   getitem TableSamples.churn_table (py "insertions") = Ok (ColInt [10; 20; 3]) /\
   getitem TableSamples.churn_table (py "deletions") = Ok (ColInt [5; 5; 40])) /\
  exists churn ins_sum del_sum net,
    In (Echo (MsgChurn churn)) (w_trace (world (snd (analyze_code_churn env st)))) /\
    getitem churn (py "insertions") = Ok (ColInt ins_sum) /\
    getitem churn (py "deletions") = Ok (ColInt del_sum) /\
    getitem churn (py "net_change") = Ok (ColInt net) /\
    zsum ins_sum = 33 /\ zsum del_sum = 50 /\ zsum net = -17.
Proof.
  cbv zeta. split; [repeat split; reflexivity|].
  destruct (code_churn_totals CloneSamples.env_public
              (TableSamples.with_table TableSamples.churn_table)
              TableSamples.churn_table TableSamples.churn_times
              [10; 20; 3] [5; 5; 40] eq_refl eq_refl eq_refl eq_refl eq_refl eq_refl)
    as (churn & ins_sum & del_sum & net & H1 & H2 & H3 & H4 & _ & _ & _ & H5 & H6 & H7).
  assert (Hi : Forall (fun v => 0 <= v) [10; 20; 3])
    by (repeat constructor; lia).
  assert (Hd : Forall (fun v => 0 <= v) [5; 5; 40])
    by (repeat constructor; lia).
  assert (Him : zsum [10; 20; 3] <= INT64_MAX) by (vm_compute; discriminate).
  assert (Hdm : zsum [5; 5; 40] <= INT64_MAX) by (vm_compute; discriminate).
  exists churn, ins_sum, del_sum, net. repeat (split; [assumption|]).
  split; [exact (H5 Hi Him)|]. split; [exact (H6 Hd Hdm)|].
  exact (H7 Hi Him Hd Hdm).
Defined.

(** ** Every commit falls in one bucket *)

Lemma count_bucket_cons off i t times :
  count_bucket off i (t :: times)
  = (if bucket_index off t =? i then 1 else 0) + count_bucket off i times.
Proof.
  unfold count_bucket. cbn [filter].
  destruct (bucket_index off t =? i); cbn [List.length]; lia.
Qed.

Lemma zsum_indicator_zrange x : forall n a,
  zsum (List.map (fun i => if x =? i then 1 else 0) (zrange a n))
  = if (a <=? x) && (x <? a + Z.of_nat n) then 1 else 0.
Proof.
  induction n as [|n IH]; intros a.
  - cbn [zrange List.map]. replace (a + Z.of_nat 0) with a by lia.
    destruct (Z.leb_spec a x), (Z.ltb_spec x a); cbn; try reflexivity; lia.
  - cbn [zrange List.map]. rewrite zsum_cons, IH.
    destruct (Z.eqb_spec x a), (Z.leb_spec (a + 1) x), (Z.ltb_spec x (a + 1 + Z.of_nat n)),
             (Z.leb_spec a x), (Z.ltb_spec x (a + Z.of_nat (S n)));
      cbn [andb]; lia.
Qed.

Lemma bucket_series_total off i0 n : forall times,
  (forall t, In t times -> i0 <= bucket_index off t < i0 + Z.of_nat n) ->
  series_total (bucket_series off times i0 n) = Z.of_nat (List.length times).
Proof.
  unfold series_total, bucket_series.
  induction times as [|t times IH]; intros Hrange.
  - rewrite map_map. cbn [snd]. apply zsum_map_zero. reflexivity.
  - rewrite map_map. cbn [snd].
    rewrite (map_ext _ (fun i => (if bucket_index off t =? i then 1 else 0)
                                 + count_bucket off i times))
      by (intros i; apply count_bucket_cons).
    rewrite zsum_map_add, zsum_indicator_zrange.
    pose proof (Hrange t (or_introl eq_refl)) as Ht.
    replace ((i0 <=? bucket_index off t) && (bucket_index off t <? i0 + Z.of_nat n))
      with true by (symmetry; apply andb_true_iff; split;
                    [apply Z.leb_le | apply Z.ltb_lt]; lia).
    rewrite map_map in IH. cbn [snd] in IH.
    rewrite IH by (intros u Hu; apply Hrange; now right).
    cbn [List.length]. lia.
Qed.

Lemma count_bucket_nonneg off i times : 0 <= count_bucket off i times.
Proof. unfold count_bucket. lia. Qed.

Lemma freq_label_of_offset freq off :
  to_offset freq = Some off -> exists label, dict_get freq_labels freq = Ok label.
Proof.
  intros Hoff. unfold to_offset in Hoff. unfold freq_labels. cbn [dict_get].
  rewrite (str_eqb_sym (py "ME")), (str_eqb_sym (py "W")), (str_eqb_sym (py "D")).
  destruct (str_eqb freq (py "ME")); [eauto|].
  destruct (str_eqb freq (py "W")); [eauto|].
  destruct (str_eqb freq (py "D")); [eauto | discriminate].
Qed.

(** X15.  For each of the three periods the commit trend counts every
    commit in one bucket: the counts of the series, whose last ten rows are
    printed, add up to the number of rows of the table, and no count is
    negative.  On a table with at least one row the series is plotted and
    the operation returns; an empty table gives an empty series, whose plot
    raises [ValueError]. *)
Theorem commit_trend_total env st df times freq off :
  commits_df (self st) = Some df ->
  getitem df (py "commit_time") = Ok (ColTime times) ->
  to_offset freq = Some off ->
  let res := analyze_commit_trend env freq st in
  exists series,
    grouper_size off times = Ok series /\
    In (Echo (MsgTrend freq (tail 10 series))) (w_trace (world (snd res))) /\
    (times <> [] ->
     fst res = Ok tt /\ In (PlotLine series) (w_trace (world (snd res)))) /\
    series_total series = Z.of_nat (List.length times) /\
    (forall p, In p series -> 0 <= snd p) /\
    (times = [] ->
     series = [] /\ exists e, fst res = Raise e /\ exn_type e = py "ValueError").
Proof.
  intros Hdf Ht Hoff res. subst res.
  destruct (freq_label_of_offset freq off Hoff) as [label Hlabel].
  assert (Hg : Grouper env freq = Ok (grouper_size off))
    by (unfold Grouper; now rewrite Hoff).
  destruct times as [|t0 times'].
  - exists []. split; [apply grouper_size_empty|].
    rewrite (analyze_commit_trend_empty env freq st df [] (grouper_size off)
               Hdf Ht Hg (grouper_size_empty off)).
    cbn [fst snd world w_trace].
    split; [apply in_or_app; right; right; now left|].
    split; [congruence|]. split; [reflexivity|].
    split; [intros p []|]. intros _. split; [reflexivity|].
    eexists. split; reflexivity.
  - destruct (grouper_size_series off (t0 :: times') ltac:(discriminate))
      as (i0 & m & Hseries & Hrange).
    exists (bucket_series off (t0 :: times') i0 (S m)).
    split; [exact Hseries|].
    rewrite (analyze_commit_trend_run env freq st df (t0 :: times')
               (grouper_size off) _ label Hdf Ht Hg Hseries Hlabel)
      by discriminate.
    cbn [fst snd world w_trace].
    split; [apply in_or_app; right; right; now left|].
    split.
    { intros _. split; [reflexivity|].
      apply in_or_app. right. do 3 right. now left. }
    split.
    { apply bucket_series_total. intros t Hin. specialize (Hrange t Hin). lia. }
    split; [|discriminate]. intros p Hp. unfold bucket_series in Hp.
    apply in_map_iff in Hp. destruct Hp as (i & <- & _). cbn [snd].
    apply count_bucket_nonneg.
Qed.

Lemma commit_trend_total_witness :
  let st := TableSamples.with_table TrendSamples.jan_mar_table in
  (commits_df (self st) = Some TrendSamples.jan_mar_table /\
   getitem TrendSamples.jan_mar_table (py "commit_time")
   = Ok (ColTime TrendSamples.jan_mar_times) /\
   to_offset (py "W") = Some Week) /\
  exists series,
    In (PlotLine series)
       (w_trace (world (snd (analyze_commit_trend CloneSamples.env_public (py "W") st)))) /\
    series_total series = 3.
Proof.
  cbv zeta. split; [repeat split; reflexivity|].
  destruct (commit_trend_total CloneSamples.env_public
              (TableSamples.with_table TrendSamples.jan_mar_table)
              TrendSamples.jan_mar_table TrendSamples.jan_mar_times (py "W") Week
              eq_refl eq_refl eq_refl)
    as (series & _ & _ & Hin & Ht & _).
  exists series. split; [apply Hin; discriminate | exact Ht].
Defined.

(** ** The first and the last bucket *)

Lemma whole_second_not_edge off t i : whole_second t -> t <> edge off i.
Proof.
  unfold whole_second, edge. intros Ht E.
  assert (Hl : bucket_label off i mod NS_PER_SECOND = 0).
  { destruct off; cbn [bucket_label]; unfold midnight, NS_PER_DAY;
      rewrite Z.mul_assoc; apply Z.mod_mul; discriminate. }
  rewrite E in Ht. unfold NS_PER_DAY, NS_PER_SECOND, SECONDS_PER_DAY in *.
  Z.to_euclidean_division_equations. lia.
Qed.

Lemma adjust_labels_exact off a k mx :
  closed_right off = true ->
  a + 1 <= bucket_index off mx ->
  bucket_index off mx <= a + Z.of_nat (S k) <= bucket_index off mx + 1 ->
  mx <> edge off (bucket_index off mx) ->
  exists m,
    _adjust_bin_edges off (List.map (bucket_label off) (zrange a (S (S k)))) mx
    = Ok (List.map (bucket_label off) (zrange a (S (S m))),
          List.map (edge off) (zrange a (S (S m)))) /\
    bucket_index off mx = a + Z.of_nat (S m).
Proof.
  intros Hoff Hlow Hmx Hinner.
  rewrite (adjust_right off _ mx Hoff). cbv zeta. rewrite map_edge.
  rewrite rev_map_zrange.
  pose proof (edge_index off mx) as Hedge.
  destruct (Z.ltb_spec mx (edge off (a + Z.of_nat k))) as [Hlt|Hge].
  - rewrite !removelast_map, removelast_zrange.
    assert (Hidx : bucket_index off mx <= a + Z.of_nat k)
      by (apply index_le_edge; lia).
    destruct k as [|k]; [cbn in Hidx; lia|].
    exists k. split; [reflexivity | lia].
  - exists k. split; [reflexivity|].
    destruct (Z.eq_dec (bucket_index off mx) (a + Z.of_nat k)) as [E|E]; [|lia].
    exfalso. apply Hinner. rewrite E in *. lia.
Qed.

Section Span.
Variable off : DateOffset.
Variables (a0 : Z) (rest : list Z).
Let ax := a0 :: rest.
Let mn := list_min a0 ax.
Let mx := list_max a0 ax.
Let i0 := bucket_index off mn.
Hypothesis mx_inner : mx <> edge off (bucket_index off mx).

Lemma get_time_bins_right_exact :
  closed_right off = true ->
  exists m,
    _get_time_bins off ax
    = Ok (scan_bins true ax 0 (List.map (edge off) (zrange i0 (S m))),
          List.map (bucket_label off) (zrange i0 (S m))) /\
    bucket_index off mx = i0 + Z.of_nat m.
Proof.
  intros Hoff. unfold _get_time_bins.
  change (match ax with [] => ?x | a1 :: _ => @?f a1 end) with (f a0).
  cbv beta. fold mn. fold mx.
  rewrite (edges_right off mn mx Hoff). cbv iota beta.
  rewrite (first_edge off mn Hoff). fold i0.
  destruct (last_edge off mx Hoff) as (j1 & -> & Hj1).
  pose proof (bucket_index_mono off mn mx (mn_le_mx a0 rest)) as Hi. fold i0 in Hi.
  rewrite date_range_labels by lia.
  replace (Z.to_nat (j1 - (i0 - 1))) with (S (Z.to_nat (j1 - i0))) by lia.
  destruct (adjust_labels_exact off (i0 - 1) (Z.to_nat (j1 - i0)) mx Hoff)
    as (m & -> & Hm); [fold mx; lia | fold mx; lia | exact mx_inner |].
  cbn [rbind]. cbv iota beta.
  change (zrange (i0 - 1) (S (S m)))
    with ((i0 - 1) :: zrange (i0 - 1 + 1) (S m)).
  replace (i0 - 1 + 1) with i0 by lia.
  cbn [List.map].
  change ax with (a0 :: rest) at 1.
  rewrite generate_bins_ok; fold ax.
  - cbn [rbind]. rewrite Hoff. cbn [tl].
    rewrite scan_bins_length, !length_map, Nat.ltb_irrefl.
    exists m. split; [reflexivity | lia].
  - pose proof (edge_index off mn) as He. fold i0 in He.
    assert (mn <= a0) by (apply (ax_bounds a0 rest); now left). lia.
  - change (edge off (i0 - 1) :: List.map (edge off) (zrange i0 (S m)))
      with (List.map (edge off) ((i0 - 1) :: zrange i0 (S m))).
    rewrite (last_map (edge off)).
    replace ((i0 - 1) :: zrange i0 (S m)) with (zrange (i0 - 1) (S (S m)))
      by (cbn [zrange]; now replace (i0 - 1 + 1) with i0 by lia).
    rewrite last_zrange.
    pose proof (last_ax_le a0 rest) as Hlast. pose proof (edge_index off mx) as He.
    replace (i0 - 1 + Z.of_nat (S m)) with (bucket_index off mx) by lia.
    fold ax mx in Hlast. lia.
Qed.
End Span.

Lemma get_time_bins_day_exact a0 rest :
  let ax := a0 :: rest in
  let i0 := bucket_index Day (list_min a0 ax) in
  exists m,
    _get_time_bins Day ax
    = Ok (scan_bins true ax 0 (List.map (edge Day) (zrange i0 (S m))),
          List.map (bucket_label Day) (zrange i0 (S m))) /\
    bucket_index Day (list_max a0 ax) = i0 + Z.of_nat m.
Proof.
  intros ax i0. set (mn := list_min a0 ax) in *. set (mx := list_max a0 ax).
  assert (Hmn : mn <= mx) by (apply list_min_max; now left).
  pose proof (bucket_index_mono Day mn mx Hmn) as Hi. fold i0 in Hi.
  set (m := Z.to_nat (bucket_index Day mx - i0)).
  exists m. unfold _get_time_bins.
  change (match ax with [] => ?x | a1 :: _ => @?f a1 end) with (f a0).
  cbv beta. fold mn. fold mx.
  rewrite day_edges. cbv iota beta. fold i0.
  rewrite date_range_labels by lia.
  replace (Z.to_nat (bucket_index Day mx + 1 - i0)) with (S m) by lia.
  rewrite adjust_day. cbn [rbind]. cbv iota beta.
  change (zrange i0 (S (S m))) with (i0 :: zrange (i0 + 1) (S m)) at 1.
  cbn [List.map].
  change ax with (a0 :: rest) at 1.
  rewrite generate_bins_ok; fold ax.
  - cbn [rbind closed_right]. rewrite scan_bins_left, map_pred_labels_day.
    rewrite scan_bins_length, !length_map, !zrange_length.
    replace (S m <? S (S m))%nat with true by (symmetry; apply Nat.ltb_lt; lia).
    rewrite firstn_map, firstn_zrange.
    split; [reflexivity | lia].
  - cbn [bucket_label]. pose proof (midnight_date_of mn) as H.
    assert (mn <= a0) by (apply list_min_le; now left).
    unfold i0. cbn [bucket_index]. lia.
  - change (bucket_label Day i0 :: List.map (bucket_label Day) (zrange (i0 + 1) (S m)))
      with (List.map (bucket_label Day) (zrange i0 (S (S m)))).
    rewrite (last_map (bucket_label Day)), last_zrange.
    assert (last ax a0 <= mx) by (apply list_max_ge, last_In; discriminate).
    pose proof (midnight_date_of mx) as H1.
    cbn [bucket_label]. unfold i0 in *. cbn [bucket_index] in *.
    rewrite <- midnight_succ in H1.
    assert (midnight (date_of mx + 1) <= midnight (date_of mn + Z.of_nat (S m)))
      by (apply (proj1 (midnight_le _ _)); lia).
    lia.
Qed.

Lemma list_min_In d l : In d l -> In (list_min d l) l.
Proof.
  intros Hd. unfold list_min.
  assert (H : forall l', In (fold_right Z.min d l') l' \/ fold_right Z.min d l' = d).
  { induction l' as [|x l' IH]; [now right|]. cbn [fold_right].
    destruct (Z.min_spec x (fold_right Z.min d l')) as [[_ ->]|[_ ->]].
    - left. now left.
    - destruct IH as [IH|IH]; [left; now right | now right]. }
  destruct (H l) as [H1|H1]; [exact H1 | now rewrite H1].
Qed.

Lemma list_max_In d l : In d l -> In (list_max d l) l.
Proof.
  intros Hd. unfold list_max.
  assert (H : forall l', In (fold_right Z.max d l') l' \/ fold_right Z.max d l' = d).
  { induction l' as [|x l' IH]; [now right|]. cbn [fold_right].
    destruct (Z.max_spec x (fold_right Z.max d l')) as [[_ ->]|[_ ->]].
    - destruct IH as [IH|IH]; [left; now right | now right].
    - left. now left. }
  destruct (H l) as [H1|H1]; [exact H1 | now rewrite H1].
Qed.

(** The series of a binned grouping of whole-second timestamps runs from
    the bucket of the earliest one to the bucket of the latest one. *)
Lemma grouper_size_span off times :
  times <> [] ->
  Forall whole_second times ->
  exists lo hi,
    In lo times /\ In hi times /\
    (forall t, In t times -> lo <= t <= hi) /\
    grouper_size off times
    = Ok (bucket_series off times (bucket_index off lo)
            (S (Z.to_nat (bucket_index off hi - bucket_index off lo)))).
Proof.
  intros Hne Hws. destruct (sort_nonempty times Hne) as (a0 & rest & Hax).
  assert (Hperm : Permutation (a0 :: rest) times)
    by (rewrite <- Hax; apply sort_Zleb_perm).
  assert (Hsorted : StronglySorted Z.le (a0 :: rest))
    by (rewrite <- Hax; apply sort_Zleb_sorted).
  set (lo := list_min a0 (a0 :: rest)). set (hi := list_max a0 (a0 :: rest)).
  assert (Hlo : In lo times)
    by (apply (Permutation_in _ Hperm), list_min_In; now left).
  assert (Hhi : In hi times)
    by (apply (Permutation_in _ Hperm), list_max_In; now left).
  exists lo, hi. split; [exact Hlo|]. split; [exact Hhi|]. split.
  { intros t Ht. apply (Permutation_in _ (Permutation_sym Hperm)) in Ht.
    apply (ax_bounds a0 rest t Ht). }
  unfold grouper_size. rewrite Hax.
  assert (Hbins : exists m,
    _get_time_bins off (a0 :: rest)
    = Ok (scan_bins true (a0 :: rest) 0
            (List.map (edge off) (zrange (bucket_index off lo) (S m))),
          List.map (bucket_label off) (zrange (bucket_index off lo) (S m))) /\
    bucket_index off hi = bucket_index off lo + Z.of_nat m).
  { destruct (closed_right off) eqn:Hoff.
    - apply get_time_bins_right_exact; [|exact Hoff].
      apply whole_second_not_edge. rewrite Forall_forall in Hws. now apply Hws.
    - destruct off; try discriminate. apply get_time_bins_day_exact. }
  destruct Hbins as (m & -> & Hm). cbn [rbind]. cbv iota beta.
  replace (Z.to_nat (bucket_index off hi - bucket_index off lo)) with m by lia.
  rewrite (series_of_scan off a0 rest Hsorted). unfold bucket_series.
  apply f_equal. apply map_ext. intros i. apply f_equal.
  now apply count_bucket_perm.
Qed.

Lemma count_bucket_pos off t times :
  In t times -> 1 <= count_bucket off (bucket_index off t) times.
Proof.
  intros Hin. unfold count_bucket.
  assert (Hf : In t (filter (fun v => bucket_index off v =? bucket_index off t) times))
    by (apply filter_In; split; [exact Hin | apply Z.eqb_refl]).
  destruct (filter _ times); [destruct Hf | cbn [List.length]; lia].
Qed.

(** X16.  On timestamps of whole seconds, as extraction stores them, the
    series of the commit trend starts with the bucket of the earliest commit
    and ends with the bucket of the latest one: the first and the last
    count are 1 at least, and the series has one row for each bucket from
    the one to the other. *)
Theorem commit_trend_span env st df times freq off :
  commits_df (self st) = Some df ->
  getitem df (py "commit_time") = Ok (ColTime times) ->
  times <> [] ->
  Forall whole_second times ->
  to_offset freq = Some off ->
  let res := analyze_commit_trend env freq st in
  exists series lo hi,
    fst res = Ok tt /\
    In (PlotLine series) (w_trace (world (snd res))) /\
    In lo times /\ In hi times /\
    (forall t, In t times -> lo <= t <= hi) /\
    hd_error series
    = Some (label_of off lo, count_in off (label_of off lo) times) /\
    last series (0, 0)
    = (label_of off hi, count_in off (label_of off hi) times) /\
    1 <= count_in off (label_of off lo) times /\
    1 <= count_in off (label_of off hi) times /\
    Z.of_nat (List.length series)
    = bucket_index off hi - bucket_index off lo + 1.
Proof.
  intros Hdf Ht Hne Hws Hoff res. subst res.
  destruct (freq_label_of_offset freq off Hoff) as [label Hlabel].
  destruct (grouper_size_span off times Hne Hws)
    as (lo & hi & Hlo & Hhi & Hbound & Hseries).
  set (m := Z.to_nat (bucket_index off hi - bucket_index off lo)) in *.
  pose proof (bucket_index_mono off lo hi (proj2 (Hbound lo Hlo))) as Hmono.
  exists (bucket_series off times (bucket_index off lo) (S m)), lo, hi.
  rewrite (analyze_commit_trend_run env freq st df times (grouper_size off)
             (bucket_series off times (bucket_index off lo) (S m)) label Hdf Ht);
    [| unfold Grouper; now rewrite Hoff | exact Hseries | exact Hlabel
     | discriminate].
  cbn [fst snd world w_trace]. split; [reflexivity|].
  split; [apply in_or_app; right; cbn; tauto|].
  split; [exact Hlo|]. split; [exact Hhi|]. split; [exact Hbound|].
  rewrite !count_in_bucket, !label_of_index.
  split; [reflexivity|]. split.
  { unfold bucket_series. rewrite zrange_snoc, map_app. cbn [List.map].
    rewrite last_last.
    replace (bucket_index off lo + Z.of_nat m) with (bucket_index off hi) by lia.
    reflexivity. }
  split; [now apply count_bucket_pos|]. split; [now apply count_bucket_pos|].
  unfold bucket_series. rewrite length_map, zrange_length. lia.
Qed.

Lemma commit_trend_span_witness :
  let st := TableSamples.with_table TrendSamples.jan_mar_table in
  (commits_df (self st) = Some TrendSamples.jan_mar_table /\
   getitem TrendSamples.jan_mar_table (py "commit_time")
   = Ok (ColTime TrendSamples.jan_mar_times) /\
   TrendSamples.jan_mar_times <> [] /\
   Forall whole_second TrendSamples.jan_mar_times /\
   to_offset (py "ME") = Some MonthEnd) /\
  exists series,
    In (PlotLine series)
       (w_trace (world (snd (analyze_commit_trend CloneSamples.env_public (py "ME") st)))) /\
    exists lo hi,
      In lo TrendSamples.jan_mar_times /\ In hi TrendSamples.jan_mar_times /\
      Z.of_nat (List.length series)
      = bucket_index MonthEnd hi - bucket_index MonthEnd lo + 1.
Proof.
  cbv zeta.
  assert (Hws : Forall whole_second TrendSamples.jan_mar_times)
    by (repeat (constructor; [vm_compute; reflexivity|]); constructor).
  split.
  { split; [reflexivity|]. split; [reflexivity|]. split; [discriminate|].
    split; [exact Hws | reflexivity]. }
  destruct (commit_trend_span CloneSamples.env_public
              (TableSamples.with_table TrendSamples.jan_mar_table)
              TrendSamples.jan_mar_table TrendSamples.jan_mar_times (py "ME") MonthEnd
              eq_refl eq_refl ltac:(discriminate) Hws eq_refl)
    as (series & lo & hi & _ & Hin & Hlo & Hhi & _ & _ & _ & _ & _ & Hlen).
  exists series. split; [exact Hin|]. exists lo, hi.
  split; [exact Hlo|]. split; [exact Hhi | exact Hlen].
Defined.

(** ** Storing a derived column again *)

Lemma set_assoc_again cols k c :
  set_assoc (set_assoc cols k c) k c = set_assoc cols k c.
Proof.
  induction cols as [|[k0 c0] cols IH]; cbn [set_assoc].
  - now rewrite str_eqb_refl.
  - destruct (str_eqb k0 k) eqn:E; cbn [set_assoc]; rewrite E; [reflexivity|].
    now rewrite IH.
Qed.

Lemma setitem_again df k c : setitem (setitem df k c) k c = setitem df k c.
Proof. unfold setitem. cbn [df_index df_columns]. now rewrite set_assoc_again. Qed.

Lemma with_frame_again a df df' : with_frame (with_frame a df) df' = with_frame a df'.
Proof. reflexivity. Qed.

Lemma trend_ok_table env freq st st1 :
  analyze_commit_trend env freq st = (Ok tt, st1) ->
  exists df d, commits_df (self st) = Some df /\ derived_date df = Ok d.
Proof.
  unfold analyze_commit_trend, derived_date. msimpl.
  destruct (commits_df (self st)) as [df|]; msimpl; [|discriminate].
  destruct (getitem df (py "commit_time")) as [c|] eqn:Hc; msimpl; [|discriminate].
  destruct (dt_date c) as [d|] eqn:Hd; msimpl; [|discriminate].
  intros _. exists df, d. rewrite Hc. split; [reflexivity | exact Hd].
Qed.

Lemma churn_ok_table env st st1 :
  analyze_code_churn env st = (Ok tt, st1) ->
  exists df y, commits_df (self st) = Some df /\ derived_year df = Ok y.
Proof.
  unfold analyze_code_churn, derived_year. msimpl.
  destruct (commits_df (self st)) as [df|]; msimpl; [|discriminate].
  destruct (getitem df (py "commit_time")) as [c|] eqn:Hc; msimpl; [|discriminate].
  destruct (dt_year c) as [y|] eqn:Hy; msimpl; [|discriminate].
  intros _. exists df, y. rewrite Hc. split; [reflexivity | exact Hy].
Qed.

(** X17.  The derived columns are stored once: after a commit trend that
    returned, another commit trend, with any period, leaves the table as
    the first left it, whether it returns or raises; the same holds for a
    second code churn. *)
Theorem derived_columns_stored_once env freq st st1 :
  (analyze_commit_trend env freq st = (Ok tt, st1) ->
   forall freq', self (snd (analyze_commit_trend env freq' st1)) = self st1) /\
  (analyze_code_churn env st = (Ok tt, st1) ->
   self (snd (analyze_code_churn env st1)) = self st1).
Proof.
  split.
  - intros Hrun freq'.
    destruct (trend_ok_table env freq st st1 Hrun) as (df & d & Hdf & Hd).
    pose proof (trend_self env freq st) as H1. rewrite Hrun, Hdf, Hd in H1.
    cbn [snd] in H1.
    rewrite (trend_self env freq' st1), H1. cbn [with_frame commits_df].
    assert (Hd' : derived_date (setitem df (py "commit_date") d) = Ok d).
    { unfold derived_date in *. rewrite getitem_setitem_other; [exact Hd|].
      intros H; vm_compute in H; discriminate. }
    rewrite Hd', setitem_again. reflexivity.
  - intros Hrun.
    destruct (churn_ok_table env st st1 Hrun) as (df & y & Hdf & Hy).
    pose proof (churn_self env st) as H1. rewrite Hrun, Hdf, Hy in H1.
    cbn [snd] in H1.
    rewrite (churn_self env st1), H1. cbn [with_frame commits_df].
    assert (Hy' : derived_year (setitem df (py "commit_year") y) = Ok y).
    { unfold derived_year in *. rewrite getitem_setitem_other; [exact Hy|].
      intros H; vm_compute in H; discriminate. }
    rewrite Hy', setitem_again. reflexivity.
Qed.

Lemma derived_columns_stored_once_witness :
  let st := TableSamples.with_table TrendSamples.jan_mar_table in
  let st1 := snd (analyze_commit_trend CloneSamples.env_public (py "ME") st) in
  analyze_commit_trend CloneSamples.env_public (py "ME") st = (Ok tt, st1) /\
  self (snd (analyze_commit_trend CloneSamples.env_public (py "W") st1)) = self st1.
Proof.
  cbv zeta.
  assert (E : analyze_commit_trend CloneSamples.env_public (py "ME")
                (TableSamples.with_table TrendSamples.jan_mar_table)
              = (Ok tt, snd (analyze_commit_trend CloneSamples.env_public (py "ME")
                               (TableSamples.with_table TrendSamples.jan_mar_table))))
    by (vm_compute; reflexivity).
  split; [exact E|].
  exact (proj1 (derived_columns_stored_once CloneSamples.env_public (py "ME") _ _)
           E (py "W")).
Defined.

(** ** The order of the files *)

Lemma in_sequence_writes : forall rest ls c l,
  writes c l -> Forall2 writes rest ls ->
  forall st, exists delta k,
    w_trace (world (snd (in_sequence c rest st))) = w_trace (world st) ++ delta /\
    files_written delta = List.concat (firstn k (l :: ls)) /\
    (k <= S (List.length rest))%nat /\
    (is_ok (fst (in_sequence c rest st)) = true <-> k = S (List.length rest)).
Proof.
  induction rest as [|c' rest IH]; intros ls c l Hc Hrest st.
  - inversion Hrest; subst. cbn [in_sequence List.length].
    destruct (Hc st) as (delta & Ht & Hf).
    destruct (is_ok (fst (c st))).
    + exists delta, 1%nat. cbn [firstn List.concat]. rewrite app_nil_r.
      split; [exact Ht|]. split; [exact Hf|]. split; [lia | tauto].
    + exists delta, 0%nat. split; [exact Ht|]. split; [exact Hf|].
      split; [lia|]. split; discriminate.
  - inversion Hrest as [|? l' ? ls' Hc' Hrest']; subst. cbn [in_sequence List.length].
    destruct (Hc st) as (delta & Ht & Hf). unfold bind.
    destruct (c st) as [[u|e] st1]; cbn [fst snd is_ok] in *.
    + destruct (IH ls' c' l' Hc' Hrest' st1) as (delta' & k & Ht' & Hf' & Hk & Hok).
      exists (delta ++ delta'), (S k).
      split; [rewrite Ht', Ht, app_assoc; reflexivity|].
      split; [rewrite files_written_app, Hf, Hf'; reflexivity|].
      split; [lia|]. rewrite Hok. lia.
    + exists delta, 0%nat. split; [exact Ht|]. split; [exact Hf|].
      split; [lia|]. split; discriminate.
Qed.

Lemma in_sequence_snoc rest : forall c c' st,
  in_sequence c (rest ++ [c']) st = bind (in_sequence c rest) (fun _ => c') st.
Proof.
  induction rest as [|a rest IH]; intros c c' st; [reflexivity|].
  cbn [app in_sequence]. unfold bind at 1 2 3.
  destruct (c st) as [[u|e] st1]; [|reflexivity].
  rewrite IH. reflexivity.
Qed.

(** X18.  A full run writes its files in one order: the CSV file, the
    contributor chart, the monthly and the weekly trend chart, the churn
    chart, the word cloud.  A stage that raises writes no file and ends the
    run, so the files written are always the first [n] of the six; the run
    returns exactly when all six are written, and then its last line is the
    closing message. *)
Theorem run_full_analysis_files env st :
  let res := run_full_analysis env st in
  exists delta n,
    w_trace (world (snd res)) = w_trace (world st) ++ delta /\
    files_written delta = firstn n OUTPUT_FILES /\
    (n <= 6)%nat /\
    (fst res = Ok tt <-> n = 6%nat) /\
    (fst res = Ok tt -> last delta Sleep = Echo MsgDone).
Proof.
  cbv zeta.
  change (run_full_analysis env)
    with (in_sequence (clone_repo env)
            ([ extract_commit_data env; analyze_contributor_distribution env;
               analyze_commit_trend env (py "ME"); analyze_commit_trend env (py "W");
               analyze_code_churn env; generate_commit_message_wordcloud env ]
             ++ [print MsgDone])).
  rewrite in_sequence_snoc.
  destruct (in_sequence_writes
              [ extract_commit_data env; analyze_contributor_distribution env;
                analyze_commit_trend env (py "ME"); analyze_commit_trend env (py "W");
                analyze_code_churn env; generate_commit_message_wordcloud env ]
              [ [CSV_PATH]; [CONTRIBUTORS_PATH]; [trend_path (py "ME")];
                [trend_path (py "W")]; [CHURN_PATH]; [WORDCLOUD_PATH] ]
              (clone_repo env) [] (writes_clone_repo env)
              ltac:(repeat constructor;
                    auto using writes_extract_commit_data, writes_contributors,
                      writes_trend, writes_churn, writes_wordcloud)
              st) as (delta & k & Ht & Hf & Hk & Hok).
  unfold bind. cbn [List.length] in *.
  destruct (in_sequence _ _ st) as [[[]|e] st7]; cbn [fst snd is_ok] in *.
  - assert (k = 7%nat) by (now apply Hok). subst k.
    exists (delta ++ [Echo MsgDone]), 6%nat. msimpl.
    split; [rewrite Ht, app_assoc; reflexivity|].
    split; [rewrite files_written_app, Hf; reflexivity|].
    split; [lia|]. split; [tauto|]. intros _. apply last_last.
  - assert (Hk7 : k <> 7%nat) by (intros ->; destruct Hok as [_ Hok]; now specialize (Hok eq_refl)).
    exists delta, (Nat.pred k).
    split; [exact Ht|]. split.
    { rewrite Hf.
      do 7 (destruct k as [|k]; [reflexivity|]). lia. }
    split; [lia|]. split; [split; [discriminate | lia] | discriminate].
Qed.

Lemma run_full_analysis_files_witness :
  let res := main CloneSamples.env_token Samples.empty_world in
  fst res = Ok tt /\
  exists delta,
    w_trace (world (snd res)) = [] ++ delta /\ files_written delta = OUTPUT_FILES.
Proof.
  cbv zeta. unfold main.
  assert (E : fst (run_full_analysis CloneSamples.env_token
                     (mkState (__init__ TARGET_REPO DEFAULT_LOCAL_REPO_PATH)
                              Samples.empty_world)) = Ok tt)
    by (vm_compute; reflexivity).
  split; [exact E|].
  destruct (run_full_analysis_files CloneSamples.env_token
              (mkState (__init__ TARGET_REPO DEFAULT_LOCAL_REPO_PATH)
                       Samples.empty_world))
    as (delta & n & Ht & Hf & _ & Hn & _).
  exists delta. split; [exact Ht|].
  rewrite Hf, (proj1 Hn E). reflexivity.
Defined.

(** ** A full run *)

Lemma bind_ok {A B} (c : M A) (k : A -> M B) st a st' :
  c st = (Ok a, st') -> bind c k st = k a st'.
Proof. intros H. unfold bind. now rewrite H. Qed.

Lemma bind_raise {A B} (c : M A) (k : A -> M B) st e st' :
  c st = (Raise e, st') -> bind c k st = (Raise e, st').
Proof. intros H. unfold bind. now rewrite H. Qed.

Lemma take_whole_second values indexer :
  Forall whole_second values -> Forall whole_second (take 0 values indexer).
Proof.
  intros H. unfold take. apply Forall_forall. intros t Ht.
  apply in_map_iff in Ht. destruct Ht as (i & <- & _).
  destruct (Nat.lt_ge_cases i (List.length values)) as [Hlt|Hge].
  - rewrite Forall_forall in H. apply H. now apply nth_In.
  - rewrite nth_overflow by exact Hge. reflexivity.
Qed.

Lemma time_column_whole_second data : Forall whole_second (time_column data).
Proof.
  unfold time_column. apply Forall_forall. intros t Ht.
  apply in_map_iff in Ht. destruct Ht as (r & <- & _).
  unfold whole_second, to_datetime64. apply Z.mod_mul. discriminate.
Qed.

Lemma column_names_final_table env d data times :
  column_names (final_table (extracted_table env (d :: data)) times)
  = COMMIT_KEYS ++ [py "commit_date"; py "commit_year"].
Proof.
  unfold final_table.
  rewrite column_names_setitem_new.
  - rewrite column_names_setitem_new by reflexivity.
    rewrite column_names_extracted_table, <- app_assoc. reflexivity.
  - rewrite column_names_setitem_new by reflexivity.
    rewrite column_names_extracted_table. reflexivity.
Qed.

Lemma getitem_final_table table times k :
  In k COMMIT_KEYS -> getitem (final_table table times) k = getitem table k.
Proof.
  intros Hk. unfold final_table.
  rewrite !getitem_setitem_other; [reflexivity | |];
    intros ->; vm_compute in Hk; intuition discriminate.
Qed.

Lemma map_nth_seq {A} (d : A) (v : list A) :
  List.map (fun i => nth i v d) (seq 0 (List.length v)) = v.
Proof.
  induction v as [|x v IH]; [reflexivity|].
  cbn [List.length seq List.map nth]. f_equal.
  rewrite <- seq_shift, map_map. exact IH.
Qed.

(** The rows taken along a permutation of the positions are the rows. *)
Lemma take_perm {A} (d : A) v idx :
  Permutation idx (seq 0 (List.length v)) -> Permutation (take d v idx) v.
Proof.
  intros H. unfold take.
  rewrite (Permutation_map (fun i => nth i v d) H). now rewrite map_nth_seq.
Qed.

Lemma analyze_contributor_distribution_ok env st df names :
  commits_df (self st) = Some df ->
  getitem df (py "author_name") = Ok (ColStr names) ->
  names <> [] ->
  analyze_contributor_distribution env st =
  (Ok tt,
   mkState (self st)
     (mkWorld (CONTRIBUTORS_PATH :: w_paths (world st)) (w_repos (world st))
        (w_trace (world st) ++ contributor_events env (ColStr names)))).
Proof.
  intros Hdf Hc Hne.
  rewrite (analyze_contributor_distribution_run env st df _ Hdf Hc).
  destruct (contributor_stats env (ColStr names)) eqn:E; [|reflexivity].
  apply (proj1 (contributor_stats_nil _ _)) in E. cbn [col_labels] in E.
  apply map_eq_nil in E. contradiction.
Qed.

Lemma analyze_code_churn_ok env st df times ins dels :
  commits_df (self st) = Some df ->
  getitem df (py "commit_time") = Ok (ColTime times) ->
  getitem df (py "insertions") = Ok (ColInt ins) ->
  getitem df (py "deletions") = Ok (ColInt dels) ->
  times <> [] ->
  analyze_code_churn env st =
  (Ok tt,
   mkState (with_frame (self st)
              (setitem df (py "commit_year") (ColInt (List.map year_of times))))
     (mkWorld (CHURN_PATH :: w_paths (world st)) (w_repos (world st))
        (w_trace (world st) ++ churn_events times ins dels))).
Proof.
  intros Hdf Ht Hi Hd Hne.
  rewrite (analyze_code_churn_run env st df times ins dels Hdf Ht Hi Hd).
  destruct times; [congruence | reflexivity].
Qed.

(** X19.  Once the repository is resolved, its log is listed and one
    commit at least is readable, a full run reaches the word cloud, and
    its outcome is the outcome of laying out the word cloud of the messages
    of the table that extraction stored, in the order of its rows:
    extraction, the contributor distribution, the two commit trends and the
    code churn do not fail.  That table holds the messages and the
    timestamps of the readable commits, the timestamps (whole seconds) in
    ascending order.  The table of the analyzer ends as that table with the
    columns [commit_date] and [commit_year] appended, the seven extracted
    columns unchanged. *)
Theorem run_full_analysis_outcome env st st1 r l :
  clone_repo env st = (Ok tt, st1) ->
  repo (self st1) = Some r ->
  log r = Ok l ->
  let data := good_records env (firstn MAX_COUNT l) in
  data <> [] ->
  let res := run_full_analysis env st in
  exists table messages times,
    commits_df (self (snd (extract_commit_data env st1))) = Some table /\
    getitem table (py "commit_message") = Ok (ColStr messages) /\
    getitem table (py "commit_time") = Ok (ColTime times) /\
    Permutation messages (List.map commit_message data) /\
    Permutation times (time_column data) /\
    StronglySorted Z.le times /\
    Forall whole_second times /\
    fst res = wordcloud_generate env (word_text env messages) /\
    self (snd res) = with_frame (self st1) (final_table table times) /\
    column_names (final_table table times)
    = COMMIT_KEYS ++ [py "commit_date"; py "commit_year"] /\
    (forall k, In k COMMIT_KEYS ->
               getitem (final_table table times) k = getitem table k).
Proof.
  intros Hclone Hrepo Hlog data Hdata res. subst res data.
  pose proof (extract_commit_data_run env st1 r l Hrepo Hlog) as H2.
  cbv zeta in H2.
  destruct (good_records env (firstn MAX_COUNT l)) as [|d data'] eqn:Edata;
    [congruence|]. clear Hdata.
  set (table := extracted_table env (d :: data')) in *.
  set (idx := time_order env (d :: data')).
  set (messages := take [] (List.map commit_message (d :: data')) idx).
  set (times := take 0 (time_column (d :: data')) idx).
  set (names := take [] (List.map author_name (d :: data')) idx).
  set (ins := take 0 (List.map insertions (d :: data')) idx).
  set (dels := take 0 (List.map deletions (d :: data')) idx).
  assert (Hmsg : getitem table (py "commit_message") = Ok (ColStr messages))
    by reflexivity.
  assert (Htime : getitem table (py "commit_time") = Ok (ColTime times))
    by reflexivity.
  assert (Hname : getitem table (py "author_name") = Ok (ColStr names))
    by reflexivity.
  assert (Hins : getitem table (py "insertions") = Ok (ColInt ins)) by reflexivity.
  assert (Hdel : getitem table (py "deletions") = Ok (ColInt dels)) by reflexivity.
  assert (Hidx : List.length idx = S (List.length data'))
    by apply time_order_length.
  assert (Htimes : times <> []).
  { intros E. apply (f_equal (@List.length Z)) in E. unfold times in E.
    rewrite take_length, Hidx in E. discriminate. }
  assert (Hnames : names <> []).
  { intros E. apply (f_equal (@List.length str)) in E. unfold names in E.
    rewrite take_length, Hidx in E. discriminate. }
  exists table, messages, times.
  split; [rewrite H2; reflexivity|].
  split; [exact Hmsg|]. split; [exact Htime|].
  split.
  { apply take_perm. rewrite length_map. apply time_order_perm. }
  split.
  { apply take_perm. unfold time_column. rewrite length_map.
    apply time_order_perm. }
  split; [apply time_order_sorted|].
  split; [apply take_whole_second, time_column_whole_second|].
  assert (Hrun :
    fst (run_full_analysis env st) = wordcloud_generate env (word_text env messages) /\
    self (snd (run_full_analysis env st))
    = with_frame (self st1) (final_table table times)).
  { unfold run_full_analysis.
    rewrite (bind_ok _ _ _ _ _ Hclone).
    (* extraction *)
    match type of H2 with _ = (_, ?s) => set (st2 := s) in H2 end.
    rewrite (bind_ok _ _ _ _ _ H2).
    (* contributors *)
    pose proof (analyze_contributor_distribution_ok env st2 table names
                  eq_refl Hname Hnames) as H3.
    match type of H3 with _ = (_, ?s) => set (st3 := s) in H3 end.
    rewrite (bind_ok _ _ _ _ _ H3).
    (* trend by month *)
    destruct (grouper_size_nonempty MonthEnd times Htimes)
      as (series_m & Hm & Hmne).
    pose proof (analyze_commit_trend_run env (py "ME") st3 table times
                  (grouper_size MonthEnd) series_m [26376%N]
                  eq_refl Htime eq_refl Hm eq_refl Hmne) as H4.
    set (table1 := setitem table (py "commit_date") (ColDate (List.map date_of times)))
      in *.
    match type of H4 with _ = (_, ?s) => set (st4 := s) in H4 end.
    rewrite (bind_ok _ _ _ _ _ H4).
    (* trend by week *)
    assert (Htime1 : getitem table1 (py "commit_time") = Ok (ColTime times)).
    { unfold table1. rewrite getitem_setitem_other; [exact Htime|].
      intros H; vm_compute in H; discriminate. }
    destruct (grouper_size_nonempty Week times Htimes)
      as (series_w & Hw & Hwne).
    pose proof (analyze_commit_trend_run env (py "W") st4 table1 times
                  (grouper_size Week) series_w [21608%N]
                  eq_refl Htime1 eq_refl Hw eq_refl Hwne) as H5.
    unfold table1 in H5. rewrite setitem_again in H5. fold table1 in H5.
    match type of H5 with _ = (_, ?s) => set (st5 := s) in H5 end.
    rewrite (bind_ok _ _ _ _ _ H5).
    (* churn *)
    assert (Hins1 : getitem table1 (py "insertions") = Ok (ColInt ins)).
    { unfold table1. rewrite getitem_setitem_other; [exact Hins|].
      intros H; vm_compute in H; discriminate. }
    assert (Hdel1 : getitem table1 (py "deletions") = Ok (ColInt dels)).
    { unfold table1. rewrite getitem_setitem_other; [exact Hdel|].
      intros H; vm_compute in H; discriminate. }
    pose proof (analyze_code_churn_ok env st5 table1 times ins dels
                  eq_refl Htime1 Hins1 Hdel1 Htimes) as H6.
    fold (final_table table times) in H6.
    match type of H6 with _ = (_, ?s) => set (st6 := s) in H6 end.
    rewrite (bind_ok _ _ _ _ _ H6).
    (* word cloud *)
    assert (Hmsg6 : getitem (final_table table times) (py "commit_message")
                    = Ok (ColStr messages)).
    { rewrite getitem_final_table; [exact Hmsg|]. vm_compute. tauto. }
    pose proof (generate_commit_message_wordcloud_run env st6
                  (final_table table times) messages eq_refl Hmsg6) as H7.
    destruct (wordcloud_generate env (word_text env messages)) as [[]|e].
    - rewrite (bind_ok _ _ _ _ _ H7). split; reflexivity.
    - rewrite (bind_raise _ _ _ _ _ H7). split; reflexivity. }
  destruct Hrun as [Hfst Hself].
  split; [exact Hfst|]. split; [exact Hself|].
  split; [apply column_names_final_table|].
  intros k Hk. now apply getitem_final_table.
Qed.

Lemma run_full_analysis_outcome_witness :
  let st := CloneSamples.fresh Samples.URL in
  let st1 := snd (clone_repo CloneSamples.env_token st) in
  (clone_repo CloneSamples.env_token st = (Ok tt, st1) /\
   repo (self st1) = Some CloneSamples.one_commit_repo /\
   good_records CloneSamples.env_token
     (firstn MAX_COUNT
        [Samples.good_commit "0123456789abcdef" Samples.alice 1700000000 10 2
           "initial import"]) <> []) /\
  fst (run_full_analysis CloneSamples.env_token st) = Ok tt /\
  exists df,
    commits_df (self (snd (run_full_analysis CloneSamples.env_token st))) = Some df /\
    column_names df = COMMIT_KEYS ++ [py "commit_date"; py "commit_year"].
Proof.
  cbv zeta.
  assert (H1 : clone_repo CloneSamples.env_token (CloneSamples.fresh Samples.URL)
               = (Ok tt, snd (clone_repo CloneSamples.env_token
                                (CloneSamples.fresh Samples.URL))))
    by (vm_compute; reflexivity).
  assert (H2 : repo (self (snd (clone_repo CloneSamples.env_token
                                  (CloneSamples.fresh Samples.URL))))
               = Some CloneSamples.one_commit_repo) by (vm_compute; reflexivity).
  assert (H3 : good_records CloneSamples.env_token
                 (firstn MAX_COUNT
                    [Samples.good_commit "0123456789abcdef" Samples.alice
                       1700000000 10 2 "initial import"]) <> [])
    by (vm_compute; discriminate).
  split; [split; [exact H1 | split; [exact H2 | exact H3]]|].
  destruct (run_full_analysis_outcome CloneSamples.env_token _ _ _ _ H1 H2 eq_refl H3)
    as (table & messages & times & _ & _ & _ & _ & _ & _ & _ & Hfst & Hself
        & Hcols & _).
  split; [rewrite Hfst; reflexivity|].
  eexists. split; [rewrite Hself; reflexivity | exact Hcols].
Defined.

(** ** Commit times on the calendar *)

Lemma date_of_datetime y m d hh mm ss :
  valid_hms hh mm ss ->
  date_of (to_datetime64 (datetime y m d hh mm ss)) = date_of_ymd y m d.
Proof.
  intros (Hh & Hm & Hs).
  unfold date_of, to_datetime64, datetime, NS_PER_DAY, NS_PER_SECOND, SECONDS_PER_DAY.
  generalize (date_of_ymd y m d) as day. intros day.
  Z.to_euclidean_division_equations. lia.
Qed.

Lemma midnight_datetime y m d :
  midnight (date_of_ymd y m d) = to_datetime64 (datetime y m d 0 0 0).
Proof.
  unfold midnight, to_datetime64, datetime, NS_PER_DAY. lia.
Qed.

(** X20.  A commit made at the local time [hh:mm:ss] of the day [d] of
    the month [m] of the year [y] is stored as a timestamp of whole seconds
    whose [commit_year] is [y] and whose [commit_date] is that day; it is
    counted in the daily bucket of that day, in the monthly bucket labelled
    by the last day of the month [m] of [y], and in the weekly bucket
    labelled by the first Sunday that is not before the day. *)
Theorem commit_time_calendar y m d hh mm ss :
  valid_ymd y m d -> valid_hms hh mm ss ->
  let t := to_datetime64 (datetime y m d hh mm ss) in
  dt_year (ColTime [t]) = Ok (ColInt [y]) /\
  dt_date (ColTime [t]) = Ok (ColDate [date_of_ymd y m d]) /\
  ymd_of_date (date_of_ymd y m d) = (y, m, d) /\
  label_of Day t = to_datetime64 (datetime y m d 0 0 0) /\
  label_of MonthEnd t = to_datetime64 (datetime y m (_days_in_month y m) 0 0 0) /\
  (exists k, 0 <= k < 7 /\
     label_of Week t = midnight (date_of_ymd y m d + k) /\
     weekday (date_of_ymd y m d + k) = WEEKDAY_SUN) /\
  whole_second t.
Proof.
  intros Hymd Hhms t.
  assert (Hdate : date_of t = date_of_ymd y m d) by now apply date_of_datetime.
  pose proof (ymd_of_date_of_ymd y m d Hymd) as Hrt.
  split.
  { cbn [dt_year List.map]. unfold year_of, year_of_date. now rewrite Hdate, Hrt. }
  split; [cbn [dt_date List.map]; now rewrite Hdate|].
  split; [exact Hrt|].
  split.
  { cbn [label_of]. unfold normalize. rewrite Hdate. apply midnight_datetime. }
  split.
  { cbn [label_of]. rewrite Hdate, Hrt. apply midnight_datetime. }
  split.
  { exists ((WEEKDAY_SUN - weekday (date_of_ymd y m d)) mod 7).
    cbn [label_of]. rewrite Hdate.
    split; [apply Z.mod_pos_bound; lia|]. split; [reflexivity|].
    unfold weekday, WEEKDAY_SUN, EPOCH_ORDINAL.
    generalize (date_of_ymd y m d) as day. intros day.
    Z.to_euclidean_division_equations. lia. }
  unfold whole_second, t, to_datetime64. apply Z.mod_mul. discriminate.
Qed.

Lemma commit_time_calendar_witness :
  valid_ymd 2024 2 29 /\ valid_hms 23 59 59 /\
  dt_year (ColTime [to_datetime64 (datetime 2024 2 29 23 59 59)]) = Ok (ColInt [2024]) /\
  label_of MonthEnd (to_datetime64 (datetime 2024 2 29 23 59 59))
  = to_datetime64 (datetime 2024 2 29 0 0 0).
Proof.
  assert (H1 : valid_ymd 2024 2 29) by (vm_compute; repeat split; discriminate).
  assert (H2 : valid_hms 23 59 59) by (vm_compute; repeat split; discriminate).
  split; [exact H1|]. split; [exact H2|].
  destruct (commit_time_calendar 2024 2 29 23 59 59 H1 H2) as (Hy & _ & _ & _ & Hm & _).
  split; [exact Hy | exact Hm].
Defined.

